(** * The smoothing-pool oracle: per-slot step, API overlay, leaf aggregation

    A shallow embedding of the parts of the oracle that the specification
    makes claims about:

    - [AreAddressEqual], [GetSubInBlock], [GetUnsubInBlock] and
      [ApplyNonFinalizedState] of [api/api.go];
    - [validateParameters] and [AdvanceStateToNextSlot] of the oracle
      package;
    - the body of [mainLoop] of the driver;
    - [AggregateValidatorsIndexes] of the merklelizer, whose code is only
      known through its tests and the specification.

    Conventions.  A Go [uint64] is a [Z] in [0, 2^64) and arithmetic on it
    is wrapped with [wrap64] where the source computes.  A [*big.Int] is a
    [Z].  A Go [string] is a [string] (a sequence of bytes).  A Go
    [map[uint64]*ValidatorInfo] is a [gmap Z ValidatorInfo]: every key owns
    its own record and its own big integers, which is how the only caller
    builds the map (fresh records and a deep copy of the oracle state).
    Pointers are taken to be set: an event has its [Event] and its
    [Validator], an entry of the map has its big integers.
    [log.Fatal] ends the process; a function that may reach it returns an
    [outcome]. *)

From Stdlib Require Import ZArith List String Ascii Bool Lia.
From Stdlib Require Import Sorting.Permutation Sorting.Sorted.
From stdpp Require Import gmap strings list fin_maps.

Local Open Scope Z_scope.

(** ** Machine integers *)

Definition wrap64 (z : Z) : Z := z mod 2 ^ 64.

(** ** Process termination

    [log.Fatal] writes the message and calls [os.Exit(1)]: the caller never
    sees a result. *)

Inductive outcome (A : Type) : Type :=
| Returns (a : A)
| Fatal.

Arguments Returns {A} a.
Arguments Fatal {A}.

Definition bind {A B : Type} (m : outcome A) (k : A -> outcome B) : outcome B :=
  match m with
  | Returns a => k a
  | Fatal => Fatal
  end.

Notation "'let!' x ':=' m 'in' k" := (bind m (fun x => k))
  (at level 10, x name, m at level 100, k at level 200).

(** [for _, a := range l { s = f a s }] where the body may end the process. *)
Fixpoint forEach {A St : Type} (f : A -> St -> outcome St) (l : list A) (s : St)
  : outcome St :=
  match l with
  | [] => Returns s
  | a :: l' => let! s' := f a s in forEach f l' s'
  end.

(** ** Strings: [len] and [strings.ToLower] *)

Module GoStrings.

Definition isUpperByte (c : ascii) : bool :=
  let n := N_of_ascii c in (65 <=? n)%N && (n <=? 90)%N.

(** ['A' <= c && c <= 'Z'] gives [c + ('a' - 'A')]. *)
Definition lowerByte (c : ascii) : ascii :=
  if isUpperByte c then ascii_of_N (N_of_ascii c + 32) else c.

(** [c < utf8.RuneSelf] *)
Definition isASCIIByte (c : ascii) : bool := (N_of_ascii c <? 128)%N.

Fixpoint isASCII (s : string) : bool :=
  match s with
  | EmptyString => true
  | String c s' => isASCIIByte c && isASCII s'
  end.

Fixpoint asciiLower (s : string) : string :=
  match s with
  | EmptyString => EmptyString
  | String c s' => String (lowerByte c) (asciiLower s')
  end.

Section ToLower.
(** The case mapping of the [unicode] package applied rune by rune,
    which [strings.ToLower] falls back to for a string with a byte
    outside ASCII.  It belongs to the Go library and stays a
    parameter. *)
Variable unicodeLower : string -> string.

Definition ToLower (s : string) : string :=
  if isASCII s then asciiLower s else unicodeLower s.
End ToLower.

End GoStrings.

(** ** [AreAddressEqual] (api/api.go) *)

Section AreAddressEqual.
Variable unicodeLower : string -> string.

Definition AreAddressEqual (address1 address2 : string) : outcome bool :=
  if negb (Nat.eqb (String.length address1) (String.length address2)) then
    Fatal
  else if String.eqb (GoStrings.ToLower unicodeLower address1)
                     (GoStrings.ToLower unicodeLower address2) then
    Returns true
  else
    Returns false.
End AreAddressEqual.

(** ** Data of the oracle package used by the API and the per-slot step *)

Inductive ValStatus : Type :=
| Untracked | NotSubscribed | Active | YellowCard | RedCard | Banned.

Inductive BlockType : Type :=
| MissedProposal | WrongFeeRecipient | OkPoolProposal | OkPoolProposalBlsKeys.

Inductive RewardType : Type :=
| UnknownRewardType | VanilaBlock | MevBlock.

Definition ValStatus_eqb (a b : ValStatus) : bool :=
  match a, b with
  | Untracked, Untracked | NotSubscribed, NotSubscribed | Active, Active
  | YellowCard, YellowCard | RedCard, RedCard | Banned, Banned => true
  | _, _ => false
  end.

Definition BlockType_eqb (a b : BlockType) : bool :=
  match a, b with
  | MissedProposal, MissedProposal | WrongFeeRecipient, WrongFeeRecipient
  | OkPoolProposal, OkPoolProposal
  | OkPoolProposalBlsKeys, OkPoolProposalBlsKeys => true
  | _, _ => false
  end.

(** [oracle.Block]: the classified block of one slot. *)
Module Block.
Record t : Type := mk {
  Slot : Z;
  Block : Z;
  ValidatorIndex : Z;
  ValidatorKey : string;
  BlockType : BlockType;
  Reward : Z;
  RewardType : RewardType;
  WithdrawalAddress : string
}.
End Block.

(** [oracle.ValidatorInfo], with the fields the API fills in. *)
Record ValidatorInfo : Type := mkValidatorInfo {
  ValidatorStatus : ValStatus;
  AccumulatedRewardsWei : Z;
  PendingRewardsWei : Z;
  CollateralWei : Z;
  WithdrawalAddress : string;
  ValidatorIndex : Z;
  ValidatorKey : string;
  ValidatorProposedBlocks : list Block.t;
  ValidatorMissedBlocks : list Block.t;
  ValidatorWrongFeeBlocks : list Block.t
}.

(** [common.Address]: twenty bytes. *)
Definition Address : Type := list Byte.byte.

(** [types.Log]: the position of a contract event on the chain.  The
    overlay reads [BlockNumber] only; [Index] is the position of the log
    inside its block. *)
Module Log.
Record t : Type := mk { BlockNumber : Z; Index : Z }.
End Log.

(** [v1.ValidatorState] and [v1.Validator] of the beacon API client. *)
Inductive ValidatorState : Type :=
| ValidatorStateUnknown
| ValidatorStatePendingInitialized
| ValidatorStatePendingQueued
| ValidatorStateActiveOngoing
| ValidatorStateActiveExiting
| ValidatorStateActiveSlashed
| ValidatorStateExitedUnslashed
| ValidatorStateExitedSlashed
| ValidatorStateWithdrawalPossible
| ValidatorStateWithdrawalDone.

Module BeaconValidator.
Record t : Type := mk {
  Index : Z;
  Status : ValidatorState;
  WithdrawalCredentials : list Byte.byte
}.
End BeaconValidator.

(** [contract.ContractSubscribeValidator] and [oracle.Subscription]. *)
Module Subscription.
Record event : Type := mkEvent {
  ValidatorID : Z;
  SubscriptionCollateral : Z;
  Sender : Address;
  Raw : Log.t
}.
Record t : Type := mk { Event : event; Validator : BeaconValidator.t }.
Definition block (s : t) : Z := Log.BlockNumber (Raw (Event s)).
End Subscription.

(** [contract.ContractUnsubscribeValidator] and [oracle.Unsubscription]. *)
Module Unsubscription.
Record event : Type := mkEvent {
  ValidatorID : Z;
  Sender : Address;
  Raw : Log.t
}.
Record t : Type := mk { Event : event; Validator : BeaconValidator.t }.
Definition block (u : t) : Z := Log.BlockNumber (Raw (Event u)).
End Unsubscription.

(** ** The non-finalized overlay: [ApplyNonFinalizedState] (api/api.go) *)

(** [GetSubInBlock] *)
Definition GetSubInBlock (subs : list Subscription.t) (block : Z)
  : list Subscription.t :=
  List.filter (fun sub => Subscription.block sub =? block) subs.

(** [GetUnsubInBlock] *)
Definition GetUnsubInBlock (subs : list Unsubscription.t) (block : Z)
  : list Unsubscription.t :=
  List.filter (fun unsub => Unsubscription.block unsub =? block) subs.

(** The two loops that collect the block numbers carrying an event: a
    number is appended when the scan of the list did not find it. *)
Definition appendIfNew (eventsBlocksList : list Z) (block : Z) : list Z :=
  if existsb (fun b => b =? block) eventsBlocksList then eventsBlocksList
  else eventsBlocksList ++ [block].

Definition collectBlocks (subs : list Subscription.t)
  (unsubs : list Unsubscription.t) : list Z :=
  fold_left appendIfNew (map Unsubscription.block unsubs)
    (fold_left appendIfNew (map Subscription.block subs) []).

(** [sort.Slice(eventsBlocksList, func(i, j) { return l[i] < l[j] })]. *)
Fixpoint insertBlock (b : Z) (l : list Z) : list Z :=
  match l with
  | [] => [b]
  | x :: l' => if b <=? x then b :: l else x :: insertBlock b l'
  end.

Definition sortBlocks (l : list Z) : list Z := fold_right insertBlock [] l.

Definition setStatusAndPending (val : ValidatorInfo) (st : ValStatus)
  (pending : Z) : ValidatorInfo :=
  {| ValidatorStatus := st;
     AccumulatedRewardsWei := AccumulatedRewardsWei val;
     PendingRewardsWei := pending;
     CollateralWei := CollateralWei val;
     WithdrawalAddress := WithdrawalAddress val;
     ValidatorIndex := ValidatorIndex val;
     ValidatorKey := ValidatorKey val;
     ValidatorProposedBlocks := ValidatorProposedBlocks val;
     ValidatorMissedBlocks := ValidatorMissedBlocks val;
     ValidatorWrongFeeBlocks := ValidatorWrongFeeBlocks val |}.

Section Overlay.
(** Library and oracle-package functions the overlay calls. *)
Variable unicodeLower : string -> string.
(** [common.Address.String]: the checksummed hexadecimal form. *)
Variable AddressString : Address -> string.
(** [oracle.CanValidatorSubscribeToPool] *)
Variable CanValidatorSubscribeToPool : BeaconValidator.t -> bool.
(** [m.config.CollateralInWei] *)
Variable CollateralInWei : Z.

(** Body of [for _, subInBlock := range blockSub]. *)
Definition applySubscription (subInBlock : Subscription.t)
  (validators : gmap Z ValidatorInfo) : outcome (gmap Z ValidatorInfo) :=
  let valIndex := Subscription.ValidatorID (Subscription.Event subInBlock) in
  match validators !! valIndex with
  | Some val =>
      let valWithdrawalAddress := WithdrawalAddress val in
      let eventAddress :=
        AddressString (Subscription.Sender (Subscription.Event subInBlock)) in
      let! same := AreAddressEqual unicodeLower valWithdrawalAddress eventAddress in
      if same then
        if Subscription.SubscriptionCollateral (Subscription.Event subInBlock)
           >=? CollateralInWei then
          if CanValidatorSubscribeToPool (Subscription.Validator subInBlock) then
            if ValStatus_eqb (ValidatorStatus val) Untracked
               || ValStatus_eqb (ValidatorStatus val) NotSubscribed then
              Returns (<[valIndex :=
                setStatusAndPending val Active
                  (PendingRewardsWei val
                   + Subscription.SubscriptionCollateral
                       (Subscription.Event subInBlock))]> validators)
            else Returns validators
          else Returns validators
        else Returns validators
      else Returns validators
  | None => Returns validators
  end.

(** Body of [for _, unsubInBlock := range blockUnsub]. *)
Definition applyUnsubscription (unsubInBlock : Unsubscription.t)
  (validators : gmap Z ValidatorInfo) : outcome (gmap Z ValidatorInfo) :=
  let valIndex := Unsubscription.ValidatorID (Unsubscription.Event unsubInBlock) in
  match validators !! valIndex with
  | Some val =>
      let valWithdrawalAddress := WithdrawalAddress val in
      let eventAddress :=
        AddressString (Unsubscription.Sender (Unsubscription.Event unsubInBlock)) in
      let! same := AreAddressEqual unicodeLower valWithdrawalAddress eventAddress in
      if same then
        if ValStatus_eqb (ValidatorStatus val) Active
           || ValStatus_eqb (ValidatorStatus val) YellowCard
           || ValStatus_eqb (ValidatorStatus val) RedCard then
          Returns (<[valIndex := setStatusAndPending val NotSubscribed 0]> validators)
        else Returns validators
      else Returns validators
  | None => Returns validators
  end.

(** Body of [for _, block := range eventsBlocksList]. *)
Definition applyBlock (subs : list Subscription.t)
  (unsubs : list Unsubscription.t) (block : Z)
  (validators : gmap Z ValidatorInfo) : outcome (gmap Z ValidatorInfo) :=
  let blockSub := GetSubInBlock subs block in
  let blockUnsub := GetUnsubInBlock unsubs block in
  let! validators1 := forEach applySubscription blockSub validators in
  forEach applyUnsubscription blockUnsub validators1.

Definition ApplyNonFinalizedState (subs : list Subscription.t)
  (unsubs : list Unsubscription.t) (validators : gmap Z ValidatorInfo)
  : outcome (gmap Z ValidatorInfo) :=
  let eventsBlocksList := sortBlocks (collectBlocks subs unsubs) in
  forEach (applyBlock subs unsubs) eventsBlocksList validators.

End Overlay.

(** ** The per-slot step: [AdvanceStateToNextSlot] (oracle package) *)

(** [oracle.Donation] *)
Module Donation.
Record t : Type := mk { AmountWei : Z; Block : Z }.
End Donation.

(** [oracle.OracleState], with the fields the API reads. *)
Record OracleState : Type := mkOracleState {
  LatestSlot : Z;
  Validators : gmap Z ValidatorInfo;
  PoolFeesPercent : Z;
  PoolFeesAddress : string;
  PoolAccumulatedFees : Z;
  ProposedBlocks : list Block.t;
  MissedBlocks : list Block.t;
  WrongFeeBlocks : list Block.t;
  Donations : list Donation.t
}.

Definition setLatestSlot (s : OracleState) (slot : Z) : OracleState :=
  {| LatestSlot := slot;
     Validators := Validators s;
     PoolFeesPercent := PoolFeesPercent s;
     PoolFeesAddress := PoolFeesAddress s;
     PoolAccumulatedFees := PoolAccumulatedFees s;
     ProposedBlocks := ProposedBlocks s;
     MissedBlocks := MissedBlocks s;
     WrongFeeBlocks := WrongFeeBlocks s;
     Donations := Donations s |}.

Definition setPoolAccumulatedFees (s : OracleState) (fees : Z) : OracleState :=
  {| LatestSlot := LatestSlot s;
     Validators := Validators s;
     PoolFeesPercent := PoolFeesPercent s;
     PoolFeesAddress := PoolFeesAddress s;
     PoolAccumulatedFees := fees;
     ProposedBlocks := ProposedBlocks s;
     MissedBlocks := MissedBlocks s;
     WrongFeeBlocks := WrongFeeBlocks s;
     Donations := Donations s |}.

(** Modelled from the spec: [SendRewardToPool], a method of the oracle
    state whose code is not among the sources.  Section 4.4 gives it as
    [poolAccumulatedFees += amount]. *)
Definition SendRewardToPool (reward : Z) (s : OracleState) : OracleState :=
  setPoolAccumulatedFees s (PoolAccumulatedFees s + reward).

(** The error [validateParameters] builds with [errors.New]: it prints the
    two slots that disagree. *)
Inductive error : Type :=
| SlotMismatch (blockPoolSlot oracleLatestSlot : Z).

Section Step.
(** [or.cfg.CollateralInWei] *)
Variable CollateralInWei : Z.

(** The other methods of the oracle state that the step calls.  Their
    code is not among the sources: the step is embedded over any
    implementation of them, each of which may also end the process. *)
Variable HandleManualSubscriptions :
  Z -> list Subscription.t -> OracleState -> outcome OracleState.
Variable IsValidatorSubscribed : Z -> OracleState -> bool.
Variable HandleMissedBlock : Block.t -> OracleState -> outcome OracleState.
Variable HandleCorrectBlockProposal : Block.t -> OracleState -> outcome OracleState.
Variable HandleBanValidator : Block.t -> OracleState -> outcome OracleState.
Variable HandleManualUnsubscriptions :
  list Unsubscription.t -> OracleState -> outcome OracleState.
Variable HandleDonations : list Donation.t -> OracleState -> outcome OracleState.

Definition validateParameters (s : OracleState) (blockPool : Block.t)
  (blockSubs : list Subscription.t) (blockUnsubs : list Unsubscription.t)
  (blockDonations : list Donation.t) : option error :=
  if negb (Block.Slot blockPool =? LatestSlot s) then
    Some (SlotMismatch (Block.Slot blockPool) (LatestSlot s))
  else None.

(** [if blockPool.BlockType == MissedProposal && IsValidatorSubscribed(..)] *)
Definition stepMissed (blockPool : Block.t) (s : OracleState)
  : outcome OracleState :=
  if BlockType_eqb (Block.BlockType blockPool) MissedProposal
     && IsValidatorSubscribed (Block.ValidatorIndex blockPool) s
  then HandleMissedBlock blockPool s
  else Returns s.

(** [if blockPool.BlockType != MissedProposal { ... }] *)
Definition stepProposed (blockPool : Block.t) (s : OracleState)
  : outcome OracleState :=
  if negb (BlockType_eqb (Block.BlockType blockPool) MissedProposal) then
    let! s1 :=
      (if BlockType_eqb (Block.BlockType blockPool) OkPoolProposalBlsKeys
       then Returns (SendRewardToPool (Block.Reward blockPool) s)
       else Returns s) in
    let! s2 :=
      (if BlockType_eqb (Block.BlockType blockPool) OkPoolProposal
       then HandleCorrectBlockProposal blockPool s1
       else Returns s1) in
    if BlockType_eqb (Block.BlockType blockPool) WrongFeeRecipient
       && IsValidatorSubscribed (Block.ValidatorIndex blockPool) s2
    then HandleBanValidator blockPool s2
    else Returns s2
  else Returns s.

(** The result is the Go pair [(uint64, error)] and the oracle state the
    call leaves behind. *)
Definition AdvanceStateToNextSlot (s : OracleState) (blockPool : Block.t)
  (blockSubs : list Subscription.t) (blockUnsubs : list Unsubscription.t)
  (blockDonations : list Donation.t)
  : outcome (Z * option error * OracleState) :=
  match validateParameters s blockPool blockSubs blockUnsubs blockDonations with
  | Some err => Returns (0, Some err, s)
  | None =>
      let! s1 := HandleManualSubscriptions CollateralInWei blockSubs s in
      let! s2 := stepMissed blockPool s1 in
      let! s3 := stepProposed blockPool s2 in
      let! s4 := HandleManualUnsubscriptions blockUnsubs s3 in
      let! s5 := HandleDonations blockDonations s4 in
      let processedSlot := LatestSlot s5 in
      Returns (processedSlot, None,
               setLatestSlot s5 (wrap64 (LatestSlot s5 + 1)))
  end.

End Step.

(** ** The driver: [mainLoop] *)

(** Hardcoded for Ethereum. *)
Definition SlotsInEpoch : Z := 32.

(** [config.Config], the fields the driver reads. *)
Module Config.
Record t : Type := mk {
  DeployedSlot : Z;
  CheckPointSizeInSlots : Z;
  DryRun : bool
}.
End Config.

(** What the consensus client answers during one pass of the loop. *)
Inductive NodeSyncingReply : Type :=
| NodeSyncingError
| NodeSyncingOk (IsSyncing : bool).

Inductive FinalityReply : Type :=
| FinalityError
| FinalityOk (FinalizedEpoch : Z).

Module Replies.
Record t : Type := mk { NodeSyncing : NodeSyncingReply; Finality : FinalityReply }.
End Replies.

(** What one pass of the loop does that the outside can see. *)
Inductive Action (Root : Type) : Type :=
| Sleep15
| Advanced
| DumpedOracleState (slot : Z)
| UpdatedContractMerkleRoot (mRoot : Root).

Arguments Sleep15 {Root}.
Arguments Advanced {Root}.
Arguments DumpedOracleState {Root} slot.
Arguments UpdatedContractMerkleRoot {Root} mRoot.

(** How the process ends inside the loop: [log.Fatal], or the run-time
    panic of [%] by zero. *)
Inductive Stop : Type := StopFatal | StopDivideByZero.

Inductive Pass (St Root : Type) : Type :=
| Continue (s : St) (done : list (Action Root))
| Stopped (why : Stop) (done : list (Action Root)).

Arguments Continue {St Root} s done.
Arguments Stopped {St Root} why done.

Section MainLoop.
(** The oracle as the driver sees it: its state with the slot to process
    next, the call that advances it, and the call that dumps it and
    returns the Merkle root. *)
Variables St Root : Type.
Variable Slot : St -> Z.
(** [None] is a returned error. *)
Variable AdvanceStateToNextEpoch : St -> option St.
(** [(failed, mRoot)] and the state after the dump. *)
Variable DumpOracleStateToDatabase : St -> bool * Root * St.
Variable cfg : Config.t.

(** [(oracle.State.Slot - cfg.DeployedSlot) % cfg.CheckPointSizeInSlots == 0];
    [None] when the modulus is zero. *)
Definition checkpointReached (s : St) : option bool :=
  if Config.CheckPointSizeInSlots cfg =? 0 then None
  else Some (wrap64 (Slot s - Config.DeployedSlot cfg)
               mod Config.CheckPointSizeInSlots cfg =? 0).

(** The part of the body from the checkpoint test on. *)
Definition checkpointStep (s : St) (done : list (Action Root)) : Pass St Root :=
  match checkpointReached s with
  | None => Stopped StopDivideByZero done
  | Some false => Continue s done
  | Some true =>
      let '(failed, mRoot, s') := DumpOracleStateToDatabase s in
      let done1 := done ++ [DumpedOracleState (Slot s)] in
      let done2 :=
        if negb (Config.DryRun cfg)
        then done1 ++ [UpdatedContractMerkleRoot mRoot] else done1 in
      if failed then Stopped StopFatal done2 else Continue s' done2
  end.

(** One pass of [for { ... }]. *)
Definition mainLoopBody (r : Replies.t) (s : St) : Pass St Root :=
  match Replies.NodeSyncing r with
  | NodeSyncingError => Continue s [Sleep15]
  | NodeSyncingOk true => Continue s [Sleep15]
  | NodeSyncingOk false =>
      match Replies.Finality r with
      | FinalityError => Continue s [Sleep15]
      | FinalityOk finalizedEpoch =>
          let finalizedSlot := wrap64 (finalizedEpoch * SlotsInEpoch) in
          if finalizedSlot >? Slot s then
            match AdvanceStateToNextEpoch s with
            | None => Stopped StopFatal []
            | Some s' => checkpointStep s' [Advanced]
            end
          else checkpointStep s [Sleep15]
      end
  end.

(** The loop over the replies of the consensus client, pass by pass: the
    actions of every pass, up to the pass that ends the process. *)
Fixpoint mainLoop (replies : list Replies.t) (s : St) : list (list (Action Root)) :=
  match replies with
  | [] => []
  | r :: replies' =>
      match mainLoopBody r s with
      | Continue s' done => done :: mainLoop replies' s'
      | Stopped _ done => [done]
      end
  end.

End MainLoop.

Arguments mainLoopBody {St Root}.
Arguments mainLoop {St Root}.
Arguments checkpointStep {St Root}.
Arguments checkpointReached {St}.

(** A pass is a checkpoint when it dumped the oracle state, and it
    processed slots when it advanced the oracle. *)
Definition isDump {Root : Type} (a : Action Root) : bool :=
  match a with DumpedOracleState _ => true | _ => false end.

Definition isAdvance {Root : Type} (a : Action Root) : bool :=
  match a with Advanced => true | _ => false end.

Definition checkpointed {Root : Type} (pass : list (Action Root)) : bool :=
  existsb isDump pass.

Definition processedSlots {Root : Type} (pass : list (Action Root)) : bool :=
  existsb isAdvance pass.

(** Whether a slot has been processed since the previous checkpoint, after
    the passes [before] (oldest first) and the pass [now] itself: scanning
    back from [now], a pass that advanced is met before a pass that
    dumped. *)
Fixpoint processedSinceCheckpoint {Root : Type}
  (earlier : list (list (Action Root))) : bool :=
  match earlier with
  | [] => false
  | pass :: older =>
      if checkpointed pass then false
      else processedSlots pass || processedSinceCheckpoint older
  end.

Definition slotProcessedSincePreviousCheckpoint {Root : Type}
  (before : list (list (Action Root))) (now : list (Action Root)) : bool :=
  processedSlots now || processedSinceCheckpoint (rev before).

(** ** Leaf aggregation: [AggregateValidatorsIndexes] (merklelizer) *)

Module Merklelizer.

Record RawLeaf : Type := mkRawLeaf {
  DepositAddress : string;
  AccumulatedBalance : Z
}.

(** Modelled from the spec: which validators are subscribed (section 3,
    invariant 4): the status is Active, YellowCard or RedCard. *)
Definition isSubscribed (v : ValidatorInfo) : bool :=
  match ValidatorStatus v with
  | Active | YellowCard | RedCard => true
  | _ => false
  end.

(** Modelled from the spec: step 1 of the leaf construction of section
    4.7, a raw leaf per subscribed validator with its withdrawal address
    and its accumulated rewards.  The code of the merklelizer is not
    among the sources; its tests are. *)
Definition validatorLeaves (s : OracleState) : list RawLeaf :=
  map (fun v => mkRawLeaf (WithdrawalAddress v) (AccumulatedRewardsWei v))
    (List.filter isSubscribed (map snd (map_to_list (Validators s)))).

(** Modelled from the spec: step 2, the pool-fees leaf is put in front. *)
Definition withPoolFeesLeaf (s : OracleState) : list RawLeaf :=
  mkRawLeaf (PoolFeesAddress s) (PoolAccumulatedFees s) :: validatorLeaves s.

(** Modelled from the spec: step 3, leaves are grouped by address and
    their balances summed. *)
Fixpoint addLeaf (leaf : RawLeaf) (acc : list RawLeaf) : list RawLeaf :=
  match acc with
  | [] => [leaf]
  | l :: acc' =>
      if String.eqb (DepositAddress l) (DepositAddress leaf)
      then mkRawLeaf (DepositAddress l)
             (AccumulatedBalance l + AccumulatedBalance leaf) :: acc'
      else l :: addLeaf leaf acc'
  end.

Definition aggregate (leaves : list RawLeaf) : list RawLeaf :=
  fold_left (fun acc leaf => addLeaf leaf acc) leaves [].

(** Modelled from the spec: step 4, the leaves are sorted by address,
    ascending in the order of their bytes. *)
Fixpoint insertLeaf (leaf : RawLeaf) (l : list RawLeaf) : list RawLeaf :=
  match l with
  | [] => [leaf]
  | x :: l' =>
      if String.leb (DepositAddress leaf) (DepositAddress x)
      then leaf :: l else x :: insertLeaf leaf l'
  end.

Definition OrderByDepositAddress (leaves : list RawLeaf) : list RawLeaf :=
  fold_right insertLeaf [] leaves.

Definition AggregateValidatorsIndexes (s : OracleState) : list RawLeaf :=
  OrderByDepositAddress (aggregate (withPoolFeesLeaf s)).

End Merklelizer.


(** ** The order in which the overlay replays the events *)

Inductive OverlayEvent : Type :=
| SubscribeEvent (sub : Subscription.t)
| UnsubscribeEvent (unsub : Unsubscription.t).

Definition eventBlock (e : OverlayEvent) : Z :=
  match e with
  | SubscribeEvent sub => Subscription.block sub
  | UnsubscribeEvent unsub => Unsubscription.block unsub
  end.

Definition eventLogIndex (e : OverlayEvent) : Z :=
  match e with
  | SubscribeEvent sub =>
      Log.Index (Subscription.Raw (Subscription.Event sub))
  | UnsubscribeEvent unsub =>
      Log.Index (Unsubscription.Raw (Unsubscription.Event unsub))
  end.

Definition eventValidatorID (e : OverlayEvent) : Z :=
  match e with
  | SubscribeEvent sub => Subscription.ValidatorID (Subscription.Event sub)
  | UnsubscribeEvent unsub => Unsubscription.ValidatorID (Unsubscription.Event unsub)
  end.

Definition eventSender (e : OverlayEvent) : Address :=
  match e with
  | SubscribeEvent sub => Subscription.Sender (Subscription.Event sub)
  | UnsubscribeEvent unsub => Unsubscription.Sender (Unsubscription.Event unsub)
  end.

(** 0 for a subscription, 1 for an unsubscription. *)
Definition eventKind (e : OverlayEvent) : Z :=
  match e with
  | SubscribeEvent _ => 0
  | UnsubscribeEvent _ => 1
  end.

(** The events of the two lists the overlay is given. *)
Definition allEvents (subs : list Subscription.t) (unsubs : list Unsubscription.t)
  : list OverlayEvent :=
  map SubscribeEvent subs ++ map UnsubscribeEvent unsubs.

(** The place of an event in the order "block number, then subscriptions
    before unsubscriptions", as one number. *)
Definition eventRank (e : OverlayEvent) : Z := 2 * eventBlock e + eventKind e.

(** A stable sort: an element is inserted before the first element that is
    not smaller, so elements that compare equal keep the order of the
    list. *)
Fixpoint insertBy {A : Type} (leb : A -> A -> bool) (x : A) (l : list A) : list A :=
  match l with
  | [] => [x]
  | y :: l' => if leb x y then x :: l else y :: insertBy leb x l'
  end.

Definition sortBy {A : Type} (leb : A -> A -> bool) (l : list A) : list A :=
  fold_right (insertBy leb) [] l.

(** By block number and, inside a block, subscriptions before
    unsubscriptions. *)
Definition blockThenKindLeb (e1 e2 : OverlayEvent) : bool :=
  (eventBlock e1 <? eventBlock e2)
  || ((eventBlock e1 =? eventBlock e2) && (eventKind e1 <=? eventKind e2)).

(** By block number and, inside a block, by the index of the log. *)
Definition blockThenLogIndexLeb (e1 e2 : OverlayEvent) : bool :=
  (eventBlock e1 <? eventBlock e2)
  || ((eventBlock e1 =? eventBlock e2) && (eventLogIndex e1 <=? eventLogIndex e2)).

(** The events in the order in which the loops of [ApplyNonFinalizedState]
    meet them. *)
Definition eventsOfBlock (subs : list Subscription.t)
  (unsubs : list Unsubscription.t) (block : Z) : list OverlayEvent :=
  map SubscribeEvent (GetSubInBlock subs block)
  ++ map UnsubscribeEvent (GetUnsubInBlock unsubs block).

Definition eventsInLoopOrder (subs : list Subscription.t)
  (unsubs : list Unsubscription.t) : list OverlayEvent :=
  flat_map (eventsOfBlock subs unsubs) (sortBlocks (collectBlocks subs unsubs)).

Section Replay.
Variable unicodeLower : string -> string.
Variable AddressString : Address -> string.
Variable CanValidatorSubscribeToPool : BeaconValidator.t -> bool.
Variable CollateralInWei : Z.

Definition applyEvent (e : OverlayEvent) (validators : gmap Z ValidatorInfo)
  : outcome (gmap Z ValidatorInfo) :=
  match e with
  | SubscribeEvent sub =>
      applySubscription unicodeLower AddressString CanValidatorSubscribeToPool
        CollateralInWei sub validators
  | UnsubscribeEvent unsub =>
      applyUnsubscription unicodeLower AddressString unsub validators
  end.

(** Replaying a list of events one at a time. *)
Definition replay (events : list OverlayEvent) (validators : gmap Z ValidatorInfo)
  : outcome (gmap Z ValidatorInfo) :=
  forEach applyEvent events validators.

(** The replay as the specification words it (sections 4.8 and 5): all
    events one at a time in the order of (block number, index within the
    block). *)
Definition replayInLogOrder (subs : list Subscription.t)
  (unsubs : list Unsubscription.t) (validators : gmap Z ValidatorInfo)
  : outcome (gmap Z ValidatorInfo) :=
  replay (sortBy blockThenLogIndexLeb (allEvents subs unsubs)) validators.

(** The condition under which a subscription changes the entry [val] of
    its validator: the four tests of the loop body, in their order. *)
Definition subscriptionApplies (sub : Subscription.t) (val : ValidatorInfo) : bool :=
  String.eqb (GoStrings.ToLower unicodeLower (WithdrawalAddress val))
    (GoStrings.ToLower unicodeLower
       (AddressString (Subscription.Sender (Subscription.Event sub))))
  && (Subscription.SubscriptionCollateral (Subscription.Event sub) >=? CollateralInWei)
  && CanValidatorSubscribeToPool (Subscription.Validator sub)
  && (ValStatus_eqb (ValidatorStatus val) Untracked
      || ValStatus_eqb (ValidatorStatus val) NotSubscribed).

Definition unsubscriptionApplies (unsub : Unsubscription.t) (val : ValidatorInfo)
  : bool :=
  String.eqb (GoStrings.ToLower unicodeLower (WithdrawalAddress val))
    (GoStrings.ToLower unicodeLower
       (AddressString (Unsubscription.Sender (Unsubscription.Event unsub))))
  && (ValStatus_eqb (ValidatorStatus val) Active
      || ValStatus_eqb (ValidatorStatus val) YellowCard
      || ValStatus_eqb (ValidatorStatus val) RedCard).

(** The event does not make [AreAddressEqual] end the process: the entry
    of its validator, if the map has one, has a withdrawal address as long
    as the sender's string. *)
Definition lengthsAgree (validators : gmap Z ValidatorInfo) (e : OverlayEvent) : Prop :=
  forall val, validators !! eventValidatorID e = Some val ->
    String.length (WithdrawalAddress val)
    = String.length (AddressString (eventSender e)).

End Replay.

(** Two records of a validator that differ at most in the status and the
    pending rewards. *)
Definition sameButStatusAndPending (v v' : ValidatorInfo) : Prop :=
  AccumulatedRewardsWei v' = AccumulatedRewardsWei v /\
  CollateralWei v' = CollateralWei v /\
  WithdrawalAddress v' = WithdrawalAddress v /\
  ValidatorIndex v' = ValidatorIndex v /\
  ValidatorKey v' = ValidatorKey v /\
  ValidatorProposedBlocks v' = ValidatorProposedBlocks v /\
  ValidatorMissedBlocks v' = ValidatorMissedBlocks v /\
  ValidatorWrongFeeBlocks v' = ValidatorWrongFeeBlocks v.

(** Two maps with the same keys whose entries differ at most in the status
    and the pending rewards. *)
Definition overlayOf (validators validators' : gmap Z ValidatorInfo) : Prop :=
  forall k,
    match validators !! k, validators' !! k with
    | Some v, Some v' => sameButStatusAndPending v v'
    | None, None => True
    | _, _ => False
    end.

(** ** Concrete instances used by the examples

    The hexadecimal form of an address: ["0x"] and two lowercase digits per
    byte.  [common.Address.String] gives the same digits with the letters
    in the case of the EIP-55 checksum, and [AreAddressEqual] compares
    lowercased strings. *)

Definition hexDigit (n : N) : ascii :=
  if (n <? 10)%N then ascii_of_N (48 + n) else ascii_of_N (87 + n).

Definition hexOfByte (b : Byte.byte) (rest : string) : string :=
  let n := Byte.to_N b in
  String (hexDigit (n / 16)) (String (hexDigit (n mod 16)) rest).

Definition hexAddress (a : Address) : string :=
  String "0" (String "x" (fold_right hexOfByte EmptyString a)).

Definition byteOfN (n : N) : Byte.byte :=
  match Byte.of_N n with
  | Some b => b
  | None => Byte.x00
  end.

Definition addressOfList (l : list N) : Address := map byteOfN l.

(** Modelled from the spec: [oracle.CanValidatorSubscribeToPool], whose
    code is not among the sources.  Section 4.5 asks for a beacon-side
    status that is neither slashed nor exited. *)
Definition canSubscribeUnlessSlashedOrExited (v : BeaconValidator.t) : bool :=
  match BeaconValidator.Status v with
  | ValidatorStateActiveSlashed
  | ValidatorStateExitedUnslashed
  | ValidatorStateExitedSlashed
  | ValidatorStateWithdrawalPossible
  | ValidatorStateWithdrawalDone => false
  | _ => true
  end.

(** What the tests of the overlay read back from the map. *)
Definition statusAndPending (k : Z) (r : outcome (gmap Z ValidatorInfo))
  : outcome (option (ValStatus * Z)) :=
  match r with
  | Returns m =>
      Returns (match m !! k with
               | Some v => Some (ValidatorStatus v, PendingRewardsWei v)
               | None => None
               end)
  | Fatal => Fatal
  end.

(** The validator and the events of [Test_ApplyNonFinalizedState_Subscription]
    and [Test_ApplyNonFinalizedState_Unsubscribe]. *)
Definition testSender : Address :=
  addressOfList [148; 39; 163; 9; 145; 23; 15; 145; 125; 123; 131; 222; 246;
                 228; 77; 38; 87; 120; 113; 237]%N.

Definition zeroSender : Address := addressOfList (repeat 0%N 20).

Definition testValidator (index : Z) (status : ValStatus) (pending : Z)
  : ValidatorInfo :=
  {| ValidatorStatus := status;
     AccumulatedRewardsWei := 0;
     PendingRewardsWei := pending;
     CollateralWei := 0;
     WithdrawalAddress := "0x9427a30991170f917d7b83def6e44d26577871ed";
     ValidatorIndex := index;
     ValidatorKey := "";
     ValidatorProposedBlocks := [];
     ValidatorMissedBlocks := [];
     ValidatorWrongFeeBlocks := [] |}.

Definition testSubscription (id collateral : Z) (sender : Address)
  (beacon : ValidatorState) (block index : Z) : Subscription.t :=
  {| Subscription.Event :=
       {| Subscription.ValidatorID := id;
          Subscription.SubscriptionCollateral := collateral;
          Subscription.Sender := sender;
          Subscription.Raw := {| Log.BlockNumber := block; Log.Index := index |} |};
     Subscription.Validator :=
       {| BeaconValidator.Index := id;
          BeaconValidator.Status := beacon;
          BeaconValidator.WithdrawalCredentials := [] |} |}.

Definition testUnsubscription (id : Z) (sender : Address) (block index : Z)
  : Unsubscription.t :=
  {| Unsubscription.Event :=
       {| Unsubscription.ValidatorID := id;
          Unsubscription.Sender := sender;
          Unsubscription.Raw := {| Log.BlockNumber := block; Log.Index := index |} |};
     Unsubscription.Validator :=
       {| BeaconValidator.Index := id;
          BeaconValidator.Status := ValidatorStateActiveOngoing;
          BeaconValidator.WithdrawalCredentials := [] |} |}.

(** The overlay with the collateral of the tests, 1000 wei. *)
Definition testOverlay (subs : list Subscription.t) (unsubs : list Unsubscription.t)
  (validators : gmap Z ValidatorInfo) : outcome (gmap Z ValidatorInfo) :=
  ApplyNonFinalizedState (fun s => s) hexAddress canSubscribeUnlessSlashedOrExited
    1000 subs unsubs validators.

(** The events of one block in which validator 1, subscribed, first
    unsubscribes (log 0) and then subscribes again (log 1). *)
Definition resubscribeSubs : list Subscription.t :=
  [testSubscription 1 1000 testSender ValidatorStateActiveOngoing 10 1].

Definition resubscribeUnsubs : list Unsubscription.t :=
  [testUnsubscription 1 testSender 10 0].

Definition resubscribeValidators : gmap Z ValidatorInfo :=
  {[ 1 := testValidator 1 Active 500 ]}.

(** Handlers of the per-slot step for the examples.  Modelled from the
    spec: [HandleDonations], whose code is not among the sources; section
    4.5 has a donation add its amount to the pool's accumulated fees and
    be appended to the donations. *)
Definition donate (s : OracleState) (d : Donation.t) : OracleState :=
  {| LatestSlot := LatestSlot s;
     Validators := Validators s;
     PoolFeesPercent := PoolFeesPercent s;
     PoolFeesAddress := PoolFeesAddress s;
     PoolAccumulatedFees := PoolAccumulatedFees s + Donation.AmountWei d;
     ProposedBlocks := ProposedBlocks s;
     MissedBlocks := MissedBlocks s;
     WrongFeeBlocks := WrongFeeBlocks s;
     Donations := Donations s ++ [d] |}.

Definition donationsHandler (ds : list Donation.t) (s : OracleState)
  : outcome OracleState :=
  Returns (fold_left donate ds s).

(** Handlers that leave the state as it is, for the methods the examples
    do not exercise. *)
Definition idleHandler {A : Type} (_ : A) (s : OracleState) : outcome OracleState :=
  Returns s.

Definition idleSubscriptions (_ : Z) (_ : list Subscription.t) (s : OracleState)
  : outcome OracleState :=
  Returns s.

(** Modelled from the spec: [IsValidatorSubscribed] (section 3, invariant
    4): the validator has a record whose status is Active, YellowCard or
    RedCard. *)
Definition isSubscribedIn (valIndex : Z) (s : OracleState) : bool :=
  match Validators s !! valIndex with
  | Some v => Merklelizer.isSubscribed v
  | None => false
  end.

Definition exampleStep :=
  AdvanceStateToNextSlot 1000 idleSubscriptions isSubscribedIn idleHandler
    idleHandler idleHandler idleHandler donationsHandler.

Definition exampleState (slot fees : Z) : OracleState :=
  {| LatestSlot := slot;
     Validators := ∅;
     PoolFeesPercent := 0;
     PoolFeesAddress := "0x0000000000000000000000000000000000000000";
     PoolAccumulatedFees := fees;
     ProposedBlocks := [];
     MissedBlocks := [];
     WrongFeeBlocks := [];
     Donations := [] |}.

Definition exampleBlock (slot : Z) (type : BlockType) (reward : Z) : Block.t :=
  {| Block.Slot := slot;
     Block.Block := 0;
     Block.ValidatorIndex := 7;
     Block.ValidatorKey := "";
     Block.BlockType := type;
     Block.Reward := reward;
     Block.RewardType := VanilaBlock;
     Block.WithdrawalAddress := "" |}.

(** An oracle for the driver whose state is the slot to process next: an
    epoch is 32 slots, and the dump succeeds and returns no root worth a
    name. *)
Definition slotOracleAdvance (slot : Z) : option Z := Some (wrap64 (slot + 32)).

Definition slotOracleDump (slot : Z) : bool * unit * Z := (false, tt, slot).

Definition slotOracleLoop (cfg : Config.t) (replies : list Replies.t) (slot : Z)
  : list (list (Action unit)) :=
  mainLoop (fun slot => slot) slotOracleAdvance slotOracleDump cfg replies slot.

(** The consensus client is in sync and reports [epoch] as finalized. *)
Definition finalized (epoch : Z) : Replies.t :=
  {| Replies.NodeSyncing := NodeSyncingOk false;
     Replies.Finality := FinalityOk epoch |}.

Definition exampleConfig : Config.t :=
  {| Config.DeployedSlot := 96;
     Config.CheckPointSizeInSlots := 32;
     Config.DryRun := false |}.

(** ** What the leaves are compared with *)

(** The balance a list of raw leaves holds for an address. *)
Definition balanceAt (address : string) (leaves : list Merklelizer.RawLeaf) : Z :=
  fold_right Z.add 0
    (map Merklelizer.AccumulatedBalance
       (List.filter (fun l => String.eqb (Merklelizer.DepositAddress l) address)
          leaves)).



(** The states of the tests of the merklelizer: validators with an address
    and accumulated rewards, and the fees of the pool. *)
Definition leafValidator (address : string) (accumulated : Z) : ValidatorInfo :=
  {| ValidatorStatus := Active;
     AccumulatedRewardsWei := accumulated;
     PendingRewardsWei := 0;
     CollateralWei := 0;
     WithdrawalAddress := address;
     ValidatorIndex := 0;
     ValidatorKey := "";
     ValidatorProposedBlocks := [];
     ValidatorMissedBlocks := [];
     ValidatorWrongFeeBlocks := [] |}.

Definition leafState (poolFeesAddress : string) (fees : Z)
  (validators : list (Z * ValidatorInfo)) : OracleState :=
  {| LatestSlot := 0;
     Validators := list_to_map validators;
     PoolFeesPercent := 0;
     PoolFeesAddress := poolFeesAddress;
     PoolAccumulatedFees := fees;
     ProposedBlocks := [];
     MissedBlocks := [];
     WrongFeeBlocks := [];
     Donations := [] |}.

(** ** What one event can do to an entry

    The two assignments of the loop bodies of the overlay: a subscription
    with a collateral of at least the configured one makes an Untracked or
    NotSubscribed entry Active and adds the collateral to its pending
    rewards; an unsubscription makes an Active, YellowCard or RedCard entry
    NotSubscribed and clears its pending rewards. *)
Definition entryStep (CollateralInWei : Z) (v v' : ValidatorInfo) : Prop :=
  (exists collateral,
     CollateralInWei <= collateral /\
     (ValidatorStatus v = Untracked \/ ValidatorStatus v = NotSubscribed) /\
     v' = setStatusAndPending v Active (PendingRewardsWei v + collateral))
  \/
  ((ValidatorStatus v = Active \/ ValidatorStatus v = YellowCard
    \/ ValidatorStatus v = RedCard) /\
   v' = setStatusAndPending v NotSubscribed 0).

(** ** The checks of the request parameters (api/api.go)

    The two regular expressions are anchored at both ends and consist of
    the literal ["0x"] and a counted repetition of a class of ASCII bytes,
    so they are matched byte by byte: a byte outside ASCII is in neither
    class. *)

(** A range [lo-hi] of a character class. *)
Definition inRange (lo hi c : ascii) : bool :=
  (N_of_ascii lo <=? N_of_ascii c)%N && (N_of_ascii c <=? N_of_ascii hi)%N.

(** [[0-9a-fA-F]] *)
Definition addressClass (c : ascii) : bool :=
  inRange "0" "9" c || inRange "a" "f" c || inRange "A" "F" c.

(** [[0-9a-fA-f]], as the source writes it: the last range ends at the
    lowercase [f]. *)
Definition pubkeyClass (c : ascii) : bool :=
  inRange "0" "9" c || inRange "a" "f" c || inRange "A" "f" c.

(** [class{n}$]: exactly [n] bytes of the class and then the end of the
    text. *)
Fixpoint matchRepeatToEnd (class : ascii -> bool) (n : nat) (s : string) : bool :=
  match n, s with
  | O, EmptyString => true
  | S n', String c s' => class c && matchRepeatToEnd class n' s'
  | _, _ => false
  end.

(** [^0x] followed by the rest of the expression. *)
Definition match0x (rest : string -> bool) (v : string) : bool :=
  match v with
  | String c (String d s) => Ascii.eqb c "0" && Ascii.eqb d "x" && rest s
  | _ => false
  end.

(** [regexp.MustCompile("^0x[0-9a-fA-F]{40}$").MatchString(v)] *)
Definition IsValidAddress (v : string) : bool :=
  match0x (matchRepeatToEnd addressClass 40) v.

(** [regexp.MustCompile("^0x[0-9a-fA-f]{96}$").MatchString(v)] *)
Definition IsValidPubkey (v : string) : bool :=
  match0x (matchRepeatToEnd pubkeyClass 96) v.

(** ** [OracleReady] (api/api.go) *)

Inductive Readiness : Type :=
| Ready
| FinalityUnavailable
| NotInSync (slotsFromFinalized maxSlotsBehind : Z).

(** [latestProcessedSlot] is [m.oracle.State().LatestProcessedSlot]. *)
Definition OracleReady (finality : FinalityReply) (latestProcessedSlot : Z)
  (maxSlotsBehind : Z) : Readiness :=
  match finality with
  | FinalityError => FinalityUnavailable
  | FinalityOk finalizedEpoch =>
      let finalizedSlot := wrap64 (finalizedEpoch * 32) in
      let slotsFromFinalized := wrap64 (finalizedSlot - latestProcessedSlot) in
      if slotsFromFinalized >? maxSlotsBehind
      then NotInSync slotsFromFinalized maxSlotsBehind
      else Ready
  end.

(** ** The numbers of [handleStatus] (api/api.go)

    The part of the handler that computes from the finalized epoch, the
    latest processed slot and the size of a checkpoint, once the nodes
    have answered. *)
Module Status.
Record t : Type := mk {
  IsOracleInSync : bool;
  LatestFinalizedSlot : Z;
  OracleHeadDistance : Z;
  NextCheckpointSlot : Z;
  NextCheckpointRemainingUnix : Z;
  PreviousCheckpointAgeUnix : Z
}.
End Status.

(** [None] is the run-time panic of [%] by zero. *)
Definition statusNumbers (finalizedEpoch latestProcessedSlot
  checkPointSizeInSlots : Z) : option Status.t :=
  let SecondsInSlot := 12 in
  let finalizedSlot := wrap64 (finalizedEpoch * 32) in
  let oracleSync := wrap64 (latestProcessedSlot - finalizedSlot) =? 0 in
  if checkPointSizeInSlots =? 0 then None
  else
    let slotsFromLastCheckpoint := latestProcessedSlot mod checkPointSizeInSlots in
    let slotsTillNextCheckpoint :=
      wrap64 (checkPointSizeInSlots - slotsFromLastCheckpoint) in
    Some {| Status.IsOracleInSync := oracleSync;
            Status.LatestFinalizedSlot := finalizedSlot;
            Status.OracleHeadDistance := wrap64 (finalizedSlot - latestProcessedSlot);
            Status.NextCheckpointSlot :=
              wrap64 (latestProcessedSlot + slotsTillNextCheckpoint);
            Status.NextCheckpointRemainingUnix :=
              wrap64 (slotsTillNextCheckpoint * SecondsInSlot);
            Status.PreviousCheckpointAgeUnix :=
              wrap64 (slotsFromLastCheckpoint * SecondsInSlot) |}.

(** ** What the further properties of the driver and of the step speak of *)

Definition isUpdate {Root : Type} (a : Action Root) : bool :=
  match a with UpdatedContractMerkleRoot _ => true | _ => false end.

(** A pass published when it sent a Merkle root to the contract. *)
Definition published {Root : Type} (pass : list (Action Root)) : bool :=
  existsb isUpdate pass.

Definition passActions {St Root : Type} (p : Pass St Root) : list (Action Root) :=
  match p with
  | Continue _ done => done
  | Stopped _ done => done
  end.

(** The state a pass tests for a checkpoint: the one
    [AdvanceStateToNextEpoch] left when the finalized slot is above the
    oracle's, the one the pass started from otherwise. *)
Definition stateAtCheckpointTest {St : Type} (Slot : St -> Z)
  (AdvanceStateToNextEpoch : St -> option St) (finalizedEpoch : Z) (s s1 : St)
  : Prop :=
  if wrap64 (finalizedEpoch * SlotsInEpoch) >? Slot s
  then AdvanceStateToNextEpoch s = Some s1
  else s1 = s.

(** A method of the oracle state that, where it returns, leaves
    [LatestSlot] as it found it. *)
Definition keepsLatestSlot (h : OracleState -> outcome OracleState) : Prop :=
  forall s s', h s = Returns s' -> LatestSlot s' = LatestSlot s.

(** ** The answers of the HTTP handlers (api/api.go)

    [respondError] writes a status code and a message, [respondOK] the
    code 200 and a body.  A message is kept by what the handler builds it
    from. *)
Inductive Message : Type :=
| InvalidWithdrawalAddress (withdrawalAddress : string)
| InvalidDepositAddress (withdrawalAddress : string)
| OracleNotReady (why : Readiness)
| ValidatorsNotLoaded
| LatestProcessedBlockIsZero
| CouldNotGetSubscriptions
| CouldNotGetUnsubscriptions
| CouldNotGetContractRoot
| RootsDoNotMatch (oracleRoot contractRoot : string)
| NoProofsFor (withdrawalAddress : string)
| NoLeafsFor (withdrawalAddress : string)
| CouldNotGetClaimedBalance
| InvalidPubkeyFormat
| InvalidNetwork (network : string)
| CouldNotCallRelayer.

Inductive Response (A : Type) : Type :=
| RespondError (code : Z) (message : Message)
| RespondOK (response : A).

Arguments RespondError {A} code message.
Arguments RespondOK {A} response.

Definition StatusBadRequest : Z := 400.
Definition StatusInternalServerError : Z := 500.

(** [hex.EncodeToString] *)
Definition hexEncodeToString (b : list Byte.byte) : string :=
  fold_right hexOfByte EmptyString b.

(** ** [handleMemoryValidatorsByWithdrawal] (api/api.go)

    What the handler reads from the oracle and from the nodes while it
    serves one request.  [Onchain.Validators()] is called once per use in
    the source and is taken to answer the same map each time; [None] is
    the nil map.  The deep copy of the oracle's validators is the map
    itself, maps being values here. *)
Module ByWithdrawal.
Record Env : Type := mkEnv {
  Finality : FinalityReply;
  OnchainValidators : option (gmap Z BeaconValidator.t);
  LatestProcessedSlot : Z;
  LatestProcessedBlock : Z;
  StateValidators : gmap Z ValidatorInfo;
  (** [None] is a returned error. *)
  GetSubscriptionsTillHead : Z -> option (list Subscription.t);
  GetUnsubscriptionsTillHead : Z -> option (list Unsubscription.t)
}.
End ByWithdrawal.

Section HandleByWithdrawal.
Variable unicodeLower : string -> string.
Variable AddressString : Address -> string.
Variable CanValidatorSubscribeToPool : BeaconValidator.t -> bool.
Variable CollateralInWei : Z.
(** [oracle.GetEth1Address], from the hexadecimal text of the withdrawal
    credentials; [None] is a returned error. *)
Variable GetEth1Address : string -> option string.
(** [hex.EncodeToString(validator.Validator.PublicKey[:])] *)
Variable PublicKeyHex : BeaconValidator.t -> string.

Definition untrackedEntry (validator : BeaconValidator.t) (eth1Add : string)
  : ValidatorInfo :=
  {| ValidatorStatus := Untracked;
     AccumulatedRewardsWei := 0;
     PendingRewardsWei := 0;
     CollateralWei := 0;
     WithdrawalAddress := eth1Add;
     ValidatorIndex := BeaconValidator.Index validator;
     ValidatorKey := String "0" (String "x" (PublicKeyHex validator));
     ValidatorProposedBlocks := [];
     ValidatorMissedBlocks := [];
     ValidatorWrongFeeBlocks := [] |}.

(** Body of the loop over the validators of the beacon chain. *)
Definition addUntracked (withdrawalAddress : string)
  (entry : Z * BeaconValidator.t) (requestedValidators : gmap Z ValidatorInfo)
  : outcome (gmap Z ValidatorInfo) :=
  let valIndex := fst entry in
  let validator := snd entry in
  let credStr := hexEncodeToString (BeaconValidator.WithdrawalCredentials validator) in
  match GetEth1Address credStr with
  | None => Returns requestedValidators
  | Some eth1Add =>
      let! same := AreAddressEqual unicodeLower eth1Add withdrawalAddress in
      if negb same then Returns requestedValidators
      else if negb (CanValidatorSubscribeToPool validator) then
        Returns requestedValidators
      else
        Returns (<[valIndex := untrackedEntry validator eth1Add]> requestedValidators)
  end.

(** Body of the loop over the copy of the oracle's validators. *)
Definition addTracked (withdrawalAddress : string)
  (entry : Z * ValidatorInfo) (requestedValidators : gmap Z ValidatorInfo)
  : outcome (gmap Z ValidatorInfo) :=
  let valIndex := fst entry in
  let validator := snd entry in
  let! same :=
    AreAddressEqual unicodeLower (WithdrawalAddress validator) withdrawalAddress in
  if same then Returns (<[valIndex := validator]> requestedValidators)
  else Returns requestedValidators.

(** The two loops.  Go leaves the order in which a map is ranged over
    open; the loops write one key per entry, so the order does not show
    in the result, and the model ranges in the order of [map_to_list]. *)
Definition requestedValidators (env : ByWithdrawal.Env)
  (onchain : gmap Z BeaconValidator.t) (withdrawalAddress : string)
  : outcome (gmap Z ValidatorInfo) :=
  let! untracked :=
    forEach (addUntracked withdrawalAddress) (map_to_list onchain) ∅ in
  forEach (addTracked withdrawalAddress)
    (map_to_list (ByWithdrawal.StateValidators env)) untracked.

(** [sort.Slice(values, func(i, j) { return values[i].ValidatorIndex <
    values[j].ValidatorIndex })] on [maps.Values]. *)
Definition sortByValidatorIndex (values : list ValidatorInfo) : list ValidatorInfo :=
  sortBy (fun v1 v2 => ValidatorIndex v1 <=? ValidatorIndex v2) values.

Definition handleMemoryValidatorsByWithdrawal (env : ByWithdrawal.Env)
  (withdrawalAddress : string) : outcome (Response (list ValidatorInfo)) :=
  let withdrawalAddress := GoStrings.ToLower unicodeLower withdrawalAddress in
  if negb (IsValidAddress withdrawalAddress) then
    Returns (RespondError StatusBadRequest
               (InvalidWithdrawalAddress withdrawalAddress))
  else
    let MaxSlotsBehind := 32 * 3 in
    match OracleReady (ByWithdrawal.Finality env)
            (ByWithdrawal.LatestProcessedSlot env) MaxSlotsBehind with
    | Ready =>
        match ByWithdrawal.OnchainValidators env with
        | None =>
            Returns (RespondError StatusInternalServerError ValidatorsNotLoaded)
        | Some onchain =>
            let! requested := requestedValidators env onchain withdrawalAddress in
            if (size requested =? 0)%nat then Returns (RespondOK [])
            else if ByWithdrawal.LatestProcessedBlock env =? 0 then
              Returns (RespondError StatusInternalServerError
                         LatestProcessedBlockIsZero)
            else
              let firstNotProcessedBlock :=
                wrap64 (ByWithdrawal.LatestProcessedBlock env + 1) in
              match ByWithdrawal.GetSubscriptionsTillHead env
                      firstNotProcessedBlock with
              | None =>
                  Returns (RespondError StatusInternalServerError
                             CouldNotGetSubscriptions)
              | Some allSubsTillHead =>
                  match ByWithdrawal.GetUnsubscriptionsTillHead env
                          firstNotProcessedBlock with
                  | None =>
                      Returns (RespondError StatusInternalServerError
                                 CouldNotGetUnsubscriptions)
                  | Some allUnsubsTillHead =>
                      let! final :=
                        ApplyNonFinalizedState unicodeLower AddressString
                          CanValidatorSubscribeToPool CollateralInWei
                          allSubsTillHead allUnsubsTillHead requested in
                      Returns (RespondOK
                                 (sortByValidatorIndex
                                    (map snd (map_to_list final))))
                  end
              end
        end
    | notReady =>
        Returns (RespondError StatusInternalServerError (OracleNotReady notReady))
    end.

End HandleByWithdrawal.

(** What the two loops of [handleMemoryValidatorsByWithdrawal] leave under a
    key, read off the two maps: the oracle's record when its withdrawal
    address is the requested one, else a fresh untracked record when the
    beacon chain has a validator under the key that withdraws to the
    address and may subscribe. *)
Definition untrackedFor (unicodeLower : string -> string)
  (CanValidatorSubscribeToPool : BeaconValidator.t -> bool)
  (GetEth1Address : string -> option string)
  (PublicKeyHex : BeaconValidator.t -> string)
  (onchain : gmap Z BeaconValidator.t) (withdrawalAddress : string) (k : Z)
  : option ValidatorInfo :=
  match onchain !! k with
  | Some validator =>
      match GetEth1Address
              (hexEncodeToString (BeaconValidator.WithdrawalCredentials validator))
      with
      | Some eth1Add =>
          match AreAddressEqual unicodeLower eth1Add withdrawalAddress with
          | Returns true =>
              if CanValidatorSubscribeToPool validator
              then Some (untrackedEntry PublicKeyHex validator eth1Add)
              else None
          | _ => None
          end
      | None => None
      end
  | None => None
  end.

Definition trackedOrUntrackedFor (unicodeLower : string -> string)
  (CanValidatorSubscribeToPool : BeaconValidator.t -> bool)
  (GetEth1Address : string -> option string)
  (PublicKeyHex : BeaconValidator.t -> string)
  (stateValidators : gmap Z ValidatorInfo)
  (onchain : gmap Z BeaconValidator.t) (withdrawalAddress : string) (k : Z)
  : option ValidatorInfo :=
  match stateValidators !! k with
  | Some validator =>
      match AreAddressEqual unicodeLower (WithdrawalAddress validator)
              withdrawalAddress with
      | Returns true => Some validator
      | _ =>
          untrackedFor unicodeLower CanValidatorSubscribeToPool GetEth1Address
            PublicKeyHex onchain withdrawalAddress k
      end
  | None =>
      untrackedFor unicodeLower CanValidatorSubscribeToPool GetEth1Address
        PublicKeyHex onchain withdrawalAddress k
  end.

(** An instance of the handler for the examples.  Modelled from the
    spec's description of withdrawal credentials, the code of
    [oracle.GetEth1Address] not being among the sources: credentials that
    start with the byte 01 carry the address in their last twenty bytes. *)
Definition exampleGetEth1Address (credStr : string) : option string :=
  match credStr with
  | String "0" (String "1" rest) =>
      Some (String "0" (String "x" (substring 22 40 rest)))
  | _ => None
  end.

Definition exampleCredentials (a : Address) : list Byte.byte :=
  byteOfN 1 :: repeat Byte.x00 11 ++ a.

Definition exampleEnv (stateValidators : gmap Z ValidatorInfo) : ByWithdrawal.Env :=
  {| ByWithdrawal.Finality := FinalityOk 4;
     ByWithdrawal.OnchainValidators :=
       Some {[ 2 := {| BeaconValidator.Index := 2;
                       BeaconValidator.Status := ValidatorStateActiveOngoing;
                       BeaconValidator.WithdrawalCredentials :=
                         exampleCredentials testSender |} ]};
     ByWithdrawal.LatestProcessedSlot := 128;
     ByWithdrawal.LatestProcessedBlock := 100;
     ByWithdrawal.StateValidators := stateValidators;
     ByWithdrawal.GetSubscriptionsTillHead := fun _ =>
       Some [testSubscription 2 1000 testSender ValidatorStateActiveOngoing 101 0];
     ByWithdrawal.GetUnsubscriptionsTillHead := fun _ =>
       Some [testUnsubscription 1 testSender 102 0] |}.

Definition exampleHandler (stateValidators : gmap Z ValidatorInfo)
  (withdrawalAddress : string) : outcome (Response (list ValidatorInfo)) :=
  handleMemoryValidatorsByWithdrawal (fun s => s) hexAddress
    canSubscribeUnlessSlashedOrExited 1000 exampleGetEth1Address
    (fun _ => EmptyString) (exampleEnv stateValidators) withdrawalAddress.

Definition exampleBody : list ValidatorInfo :=
  [ testValidator 1 NotSubscribed 0;
    {| ValidatorStatus := Active;
       AccumulatedRewardsWei := 0;
       PendingRewardsWei := 1000;
       CollateralWei := 0;
       WithdrawalAddress := "0x9427a30991170f917d7b83def6e44d26577871ed";
       ValidatorIndex := 2;
       ValidatorKey := "0x";
       ValidatorProposedBlocks := [];
       ValidatorMissedBlocks := [];
       ValidatorWrongFeeBlocks := [] |} ].

(** ** [handleOnchainMerkleProof] (api/api.go) *)

(** [oracle.RawLeaf] as this handler reads it. *)
Module CommittedLeaf.
Record t : Type := mk {
  WithdrawalAddress : string;
  AccumulatedBalance : Z
}.
End CommittedLeaf.

(** What the handler reads while it serves one request: the finality the
    consensus client reports, the root and the claimed balances the
    contract holds ([None] is a returned error), and the latest committed
    state of the oracle. *)
Module MerkleProof.
Record Env : Type := mkEnv {
  Finality : FinalityReply;
  LatestProcessedSlot : Z;
  GetContractMerkleRoot : option string;
  GetContractClaimedBalance : string -> option Z;
  CommittedMerkleRoot : string;
  CommittedSlot : Z;
  CommittedProofs : gmap string (list string);
  CommittedLeafs : gmap string CommittedLeaf.t;
  CommittedValidators : gmap Z ValidatorInfo
}.

(** [httpOkProofs]; a field written with [big.Int.String] holds the
    number. *)
Record httpOkProofs : Type := mkOk {
  LeafWithdrawalAddress : string;
  LeafAccumulatedBalance : Z;
  MerkleRoot : string;
  CheckpointSlot : Z;
  Proofs : list string;
  RegisteredValidators : list Z;
  TotalAccumulatedRewardsWei : Z;
  ClaimableRewardsWei : Z;
  AlreadyClaimedRewardsWei : Z;
  PendingRewardsWei : Z
}.
End MerkleProof.

Section HandleMerkleProof.
Variable unicodeLower : string -> string.

(** [strings.ToLower(validator.WithdrawalAddress) ==
    strings.ToLower(withdrawalAddress)] *)
Definition withdrawsToLower (withdrawalAddress : string) (validator : ValidatorInfo)
  : bool :=
  String.eqb (GoStrings.ToLower unicodeLower (WithdrawalAddress validator))
             (GoStrings.ToLower unicodeLower withdrawalAddress).

(** The loop that appends the keys of the validators registered to the
    address, in the order the map is ranged over (which Go leaves open;
    here the order of [map_to_list]). *)
Definition registeredValidators (validators : gmap Z ValidatorInfo)
  (withdrawalAddress : string) : list Z :=
  fold_left
    (fun registered entry =>
       if withdrawsToLower withdrawalAddress (snd entry)
       then registered ++ [fst entry] else registered)
    (map_to_list validators) [].

(** The loop that adds up their pending rewards. *)
Definition totalPending (validators : gmap Z ValidatorInfo)
  (withdrawalAddress : string) : Z :=
  fold_left
    (fun total entry =>
       if withdrawsToLower withdrawalAddress (snd entry)
       then total + PendingRewardsWei (snd entry) else total)
    (map_to_list validators) 0.

Definition handleOnchainMerkleProof (env : MerkleProof.Env)
  (withdrawalAddress : string) : Response MerkleProof.httpOkProofs :=
  if negb (IsValidAddress withdrawalAddress) then
    RespondError StatusBadRequest (InvalidWithdrawalAddress withdrawalAddress)
  else
    let withdrawalAddress := GoStrings.ToLower unicodeLower withdrawalAddress in
    let MaxSlotsBehind := 32 * 1 in
    match OracleReady (MerkleProof.Finality env)
            (MerkleProof.LatestProcessedSlot env) MaxSlotsBehind with
    | Ready =>
        match MerkleProof.GetContractMerkleRoot env with
        | None => RespondError StatusInternalServerError CouldNotGetContractRoot
        | Some contractRoot =>
            let oracleLatestRoot := MerkleProof.CommittedMerkleRoot env in
            if negb (String.eqb contractRoot oracleLatestRoot) then
              RespondError StatusInternalServerError
                (RootsDoNotMatch oracleLatestRoot contractRoot)
            else
              match MerkleProof.CommittedProofs env !! withdrawalAddress with
              | None => RespondError StatusBadRequest (NoProofsFor withdrawalAddress)
              | Some proofs =>
                  match MerkleProof.CommittedLeafs env !! withdrawalAddress with
                  | None =>
                      RespondError StatusBadRequest (NoLeafsFor withdrawalAddress)
                  | Some leafs =>
                      let registered :=
                        registeredValidators (MerkleProof.CommittedValidators env)
                          withdrawalAddress in
                      match MerkleProof.GetContractClaimedBalance env
                              withdrawalAddress with
                      | None =>
                          RespondError StatusInternalServerError
                            CouldNotGetClaimedBalance
                      | Some claimed =>
                          let pending :=
                            totalPending (MerkleProof.CommittedValidators env)
                              withdrawalAddress in
                          RespondOK
                            {| MerkleProof.LeafWithdrawalAddress :=
                                 CommittedLeaf.WithdrawalAddress leafs;
                               MerkleProof.LeafAccumulatedBalance :=
                                 CommittedLeaf.AccumulatedBalance leafs;
                               MerkleProof.MerkleRoot :=
                                 MerkleProof.CommittedMerkleRoot env;
                               MerkleProof.CheckpointSlot :=
                                 MerkleProof.CommittedSlot env;
                               MerkleProof.Proofs := proofs;
                               MerkleProof.RegisteredValidators := registered;
                               MerkleProof.TotalAccumulatedRewardsWei :=
                                 CommittedLeaf.AccumulatedBalance leafs;
                               MerkleProof.ClaimableRewardsWei :=
                                 CommittedLeaf.AccumulatedBalance leafs - claimed;
                               MerkleProof.AlreadyClaimedRewardsWei := claimed;
                               MerkleProof.PendingRewardsWei := pending |}
                      end
                  end
              end
        end
    | notReady =>
        RespondError StatusInternalServerError (OracleNotReady notReady)
    end.

End HandleMerkleProof.

(** The pending rewards of the validators under the given keys. *)
Definition pendingOf (validators : gmap Z ValidatorInfo) (keys : list Z) : Z :=
  fold_right Z.add 0
    (map (fun k => match validators !! k with
                   | Some v => PendingRewardsWei v
                   | None => 0
                   end) keys).

Definition exampleProofEnv : MerkleProof.Env :=
  {| MerkleProof.Finality := FinalityOk 4;
     MerkleProof.LatestProcessedSlot := 128;
     MerkleProof.GetContractMerkleRoot := Some "0xabcd";
     MerkleProof.GetContractClaimedBalance := fun _ => Some 300;
     MerkleProof.CommittedMerkleRoot := "0xabcd";
     MerkleProof.CommittedSlot := 96;
     MerkleProof.CommittedProofs :=
       {[ "0x9427a30991170f917d7b83def6e44d26577871ed" := ["0x01"; "0x02"] ]};
     MerkleProof.CommittedLeafs :=
       {[ "0x9427a30991170f917d7b83def6e44d26577871ed" :=
            {| CommittedLeaf.WithdrawalAddress :=
                 "0x9427a30991170f917d7b83def6e44d26577871ed";
               CommittedLeaf.AccumulatedBalance := 1000 |} ]};
     MerkleProof.CommittedValidators :=
       {[ 1 := testValidator 1 Active 500 ]} |}.

Definition exampleProofs : MerkleProof.httpOkProofs :=
  {| MerkleProof.LeafWithdrawalAddress :=
       "0x9427a30991170f917d7b83def6e44d26577871ed";
     MerkleProof.LeafAccumulatedBalance := 1000;
     MerkleProof.MerkleRoot := "0xabcd";
     MerkleProof.CheckpointSlot := 96;
     MerkleProof.Proofs := ["0x01"; "0x02"];
     MerkleProof.RegisteredValidators := [1];
     MerkleProof.TotalAccumulatedRewardsWei := 1000;
     MerkleProof.ClaimableRewardsWei := 700;
     MerkleProof.AlreadyClaimedRewardsWei := 300;
     MerkleProof.PendingRewardsWei := 500 |}.

(** ** [handleMemoryStatistics] (api/api.go, on [OracleState.LatestSlot]) *)

Module Statistics.
(** [httpOkMemoryStatistics] *)
Record t : Type := mk {
  TotalSubscribed : Z;
  TotalActive : Z;
  TotalYellowCard : Z;
  TotalRedCard : Z;
  TotalBanned : Z;
  TotalNotSubscribed : Z;
  LatestCheckpointSlot : Z;
  NextCheckpointSlot : Z;
  TotalAccumulatedRewardsWei : Z;
  TotalPendingRewaradsWei : Z;
  TotalRewardsSentWei : Z;
  TotalDonationsWei : Z;
  AvgBlockRewardWei : Z;
  TotalProposedBlocks : Z;
  TotalMissedBlocks : Z;
  TotalWrongFeeBlocks : Z
}.

(** The variables of the loop over the validators. *)
Record totals : Type := mkTotals {
  totalActive : Z;
  totalYellowCard : Z;
  totalRedCard : Z;
  totalBanned : Z;
  totalNotSubscribed : Z;
  totalAccumulatedRewards : Z;
  totalPendingRewards : Z
}.
End Statistics.

(** Body of [for _, validator := range m.OracleState.Validators]: the
    chain of [if] and [else if] on the status, then the two sums. *)
Definition countValidator (t : Statistics.totals) (validator : ValidatorInfo)
  : Statistics.totals :=
  let bump (st : ValStatus) (n : Z) : Z :=
    if ValStatus_eqb (ValidatorStatus validator) st then wrap64 (n + 1) else n in
  {| Statistics.totalActive := bump Active (Statistics.totalActive t);
     Statistics.totalYellowCard := bump YellowCard (Statistics.totalYellowCard t);
     Statistics.totalRedCard := bump RedCard (Statistics.totalRedCard t);
     Statistics.totalBanned := bump Banned (Statistics.totalBanned t);
     Statistics.totalNotSubscribed :=
       bump NotSubscribed (Statistics.totalNotSubscribed t);
     Statistics.totalAccumulatedRewards :=
       Statistics.totalAccumulatedRewards t + AccumulatedRewardsWei validator;
     Statistics.totalPendingRewards :=
       Statistics.totalPendingRewards t + PendingRewardsWei validator |}.

Definition handleMemoryStatistics (CheckPointSizeInSlots : Z) (s : OracleState)
  : Statistics.t :=
  let t := fold_left countValidator (map snd (map_to_list (Validators s)))
             (Statistics.mkTotals 0 0 0 0 0 0 0) in
  let totalSubscribed :=
    wrap64 (wrap64 (Statistics.totalActive t + Statistics.totalYellowCard t)
            + Statistics.totalRedCard t) in
  let totalRewardsSentWei :=
    fold_left (fun total block => total + Block.Reward block) (ProposedBlocks s) 0 in
  let totalDonationsWei :=
    fold_left (fun total donation => total + Donation.AmountWei donation)
      (Donations s) 0 in
  let totalProposedBlocks := Z.of_nat (length (ProposedBlocks s)) in
  let avgBlockRewardWei :=
    if negb (totalProposedBlocks =? 0)
    then totalRewardsSentWei / Z.of_nat (length (ProposedBlocks s))
    else 0 in
  {| Statistics.TotalSubscribed := totalSubscribed;
     Statistics.TotalActive := Statistics.totalActive t;
     Statistics.TotalYellowCard := Statistics.totalYellowCard t;
     Statistics.TotalRedCard := Statistics.totalRedCard t;
     Statistics.TotalBanned := Statistics.totalBanned t;
     Statistics.TotalNotSubscribed := Statistics.totalNotSubscribed t;
     Statistics.LatestCheckpointSlot := LatestSlot s;
     Statistics.NextCheckpointSlot := wrap64 (LatestSlot s + CheckPointSizeInSlots);
     Statistics.TotalAccumulatedRewardsWei := Statistics.totalAccumulatedRewards t;
     Statistics.TotalPendingRewaradsWei := Statistics.totalPendingRewards t;
     Statistics.TotalRewardsSentWei := totalRewardsSentWei;
     Statistics.TotalDonationsWei := totalDonationsWei;
     Statistics.AvgBlockRewardWei := avgBlockRewardWei;
     Statistics.TotalProposedBlocks := totalProposedBlocks;
     Statistics.TotalMissedBlocks := Z.of_nat (length (MissedBlocks s));
     Statistics.TotalWrongFeeBlocks := Z.of_nat (length (WrongFeeBlocks s)) |}.

(** The number of validators of a state in a status. *)
Definition countStatus (st : ValStatus) (s : OracleState) : Z :=
  Z.of_nat
    (length
       (List.filter (fun v => ValStatus_eqb (ValidatorStatus v) st)
          (map snd (map_to_list (Validators s))))).

Definition sumOf {A : Type} (w : A -> Z) (l : list A) : Z :=
  fold_right Z.add 0 (map w l).

Definition exampleStatisticsState : OracleState :=
  {| LatestSlot := 128;
     Validators := {[ 1 := testValidator 1 Active 500;
                      2 := testValidator 2 Untracked 0;
                      3 := testValidator 3 Banned 0 ]};
     PoolFeesPercent := 0;
     PoolFeesAddress := "0x0000000000000000000000000000000000000000";
     PoolAccumulatedFees := 0;
     ProposedBlocks := [exampleBlock 100 OkPoolProposal 40;
                        exampleBlock 101 OkPoolProposal 45];
     MissedBlocks := [];
     WrongFeeBlocks := [];
     Donations := [] |}.

(** ** [handleValidatorRelayers] (api/api.go) *)

(** What [http.Get] on the registration URL of a relay gave, as far as the
    handler looks at it: an error of the call, a status other than 200, a
    body that could not be read or is no registration, or a registration
    with the text of its fee recipient and its timestamp. *)
Inductive RelayReply : Type :=
| RelayGetError
| RelayStatusNotOK
| RelayBodyUnreadable
| RelayBodyNotJSON
| RelayRegistration (feeRecipient : string) (timestamp : Z).

Module Relayers.
(** [httpRelay]; the timestamp is kept as the number it is printed from,
    [None] where the field is left empty. *)
Record httpRelay : Type := mkRelay {
  RelayAddress : string;
  FeeRecipient : string;
  Timestamp : option Z
}.

(** [httpOkRelayersState] *)
Record httpOkRelayersState : Type := mkOk {
  CorrectFeeRecipients : bool;
  CorrectFeeRelays : list httpRelay;
  WrongFeeRelays : list httpRelay;
  UnregisteredRelays : list httpRelay
}.

(** The three lists the loop appends to. *)
Record lists : Type := mkLists {
  correctFeeRelays : list httpRelay;
  wrongFeeRelays : list httpRelay;
  unregisteredRelays : list httpRelay
}.
End Relayers.

Section HandleRelayers.
Variable unicodeLower : string -> string.
(** [config.MainnetRelays], [config.GoerliRelays], [Cfg.PoolAddress] *)
Variables MainnetRelays GoerliRelays : list string.
Variable PoolAddress : string.
(** The call to a relay for a validator key. *)
Variable Get : string -> string -> RelayReply.

(** Body of [for _, relay := range relays]; [inl] is the error the handler
    answers before it returns. *)
Definition askRelay (valPubKey relay : string) (l : Relayers.lists)
  : Message + Relayers.lists :=
  match Get relay valPubKey with
  | RelayGetError => inl CouldNotCallRelayer
  | RelayStatusNotOK =>
      inr {| Relayers.correctFeeRelays := Relayers.correctFeeRelays l;
             Relayers.wrongFeeRelays := Relayers.wrongFeeRelays l;
             Relayers.unregisteredRelays :=
               Relayers.unregisteredRelays l
               ++ [Relayers.mkRelay relay EmptyString None] |}
  | RelayBodyUnreadable => inl CouldNotCallRelayer
  | RelayBodyNotJSON => inl CouldNotCallRelayer
  | RelayRegistration feeRecipient timestamp =>
      let relayRegistration :=
        Relayers.mkRelay relay feeRecipient (Some timestamp) in
      if String.eqb (GoStrings.ToLower unicodeLower feeRecipient)
                    (GoStrings.ToLower unicodeLower PoolAddress)
      then
        inr {| Relayers.correctFeeRelays :=
                 Relayers.correctFeeRelays l ++ [relayRegistration];
               Relayers.wrongFeeRelays := Relayers.wrongFeeRelays l;
               Relayers.unregisteredRelays := Relayers.unregisteredRelays l |}
      else
        inr {| Relayers.correctFeeRelays := Relayers.correctFeeRelays l;
               Relayers.wrongFeeRelays :=
                 Relayers.wrongFeeRelays l ++ [relayRegistration];
               Relayers.unregisteredRelays := Relayers.unregisteredRelays l |}
  end.

Fixpoint askRelays (valPubKey : string) (relays : list string)
  (l : Relayers.lists) : Message + Relayers.lists :=
  match relays with
  | [] => inr l
  | relay :: relays' =>
      match askRelay valPubKey relay l with
      | inl message => inl message
      | inr l' => askRelays valPubKey relays' l'
      end
  end.

Definition handleValidatorRelayers (Network valPubKey : string)
  : Response Relayers.httpOkRelayersState :=
  if negb (IsValidPubkey valPubKey) then
    RespondError StatusInternalServerError InvalidPubkeyFormat
  else
    match (if String.eqb Network "mainnet" then Some MainnetRelays
           else if String.eqb Network "goerli" then Some GoerliRelays
           else None) with
    | None => RespondError StatusInternalServerError (InvalidNetwork Network)
    | Some relays =>
        match askRelays valPubKey relays (Relayers.mkLists [] [] []) with
        | inl message => RespondError StatusInternalServerError message
        | inr l =>
            let registeredCorrectFee :=
              (length (Relayers.wrongFeeRelays l) =? 0)%nat
              && (0 <? length (Relayers.correctFeeRelays l))%nat in
            RespondOK
              {| Relayers.CorrectFeeRecipients := registeredCorrectFee;
                 Relayers.CorrectFeeRelays := Relayers.correctFeeRelays l;
                 Relayers.WrongFeeRelays := Relayers.wrongFeeRelays l;
                 Relayers.UnregisteredRelays := Relayers.unregisteredRelays l |}
        end
    end.

(** How a relay answered, as the handler sorts it. *)
Inductive RelayClass : Type :=
| RegisteredToPool | RegisteredElsewhere | NotRegistered | RelayFailed.

Definition RelayClass_eqb (c1 c2 : RelayClass) : bool :=
  match c1, c2 with
  | RegisteredToPool, RegisteredToPool
  | RegisteredElsewhere, RegisteredElsewhere
  | NotRegistered, NotRegistered
  | RelayFailed, RelayFailed => true
  | _, _ => false
  end.

Definition relayClass (valPubKey relay : string) : RelayClass :=
  match Get relay valPubKey with
  | RelayRegistration feeRecipient _ =>
      if String.eqb (GoStrings.ToLower unicodeLower feeRecipient)
                    (GoStrings.ToLower unicodeLower PoolAddress)
      then RegisteredToPool else RegisteredElsewhere
  | RelayStatusNotOK => NotRegistered
  | _ => RelayFailed
  end.

Definition relaysOfClass (valPubKey : string) (c : RelayClass)
  (relays : list string) : list string :=
  List.filter (fun relay => RelayClass_eqb (relayClass valPubKey relay) c) relays.

Definition relaysOfNetwork (Network : string) : option (list string) :=
  if String.eqb Network "mainnet" then Some MainnetRelays
  else if String.eqb Network "goerli" then Some GoerliRelays
  else None.

End HandleRelayers.

(** ** [GetDepositAddressOfValidator] (oracle, the earlier step) *)

Definition someDepositAddresses : list string :=
  [ "0x001eDa52592fE2f8a28dA25E8033C263744b1b6E";
    "0x0029a125E6A3f058628Bd619C91f481e4470D673";
    "0x003718fb88964A1F167eCf205c7f04B25FF46B8E";
    "0x004b1EaBc3ea60331a01fFfC3D63E5F6B3aB88B3";
    "0x005CD1608e40d1e775a97d12e4f594029567C071";
    "0x0069c9017BDd6753467c138449eF98320be1a4E4";
    "0x007cF0936ACa64Ef22C0019A616801Bec7FCCECF" ].

(** [dbReply] is what [Postgres.GetDepositAddressOfValidatorKey] returned,
    [None] for an error.  The result [None] is the run-time panic of an
    index out of range. *)
Definition GetDepositAddressOfValidator (dbReply : option string) (slot : Z)
  : option string :=
  match dbReply with
  | Some depositAddress => Some depositAddress
  | None => nth_error someDepositAddresses (Z.to_nat (slot mod 7))
  end.

(** Two relays for the examples: the first has the key registered with the
    pool's address in another letter case, the second does not know it. *)
Definition exampleRelayGet (relay valPubKey : string) : RelayReply :=
  if String.eqb relay "relay-a"
  then RelayRegistration "0x9427A30991170F917D7B83DEF6E44D26577871ED" 1700000000
  else RelayStatusNotOK.

Definition examplePubkey : string :=
  "0xabababababababababababababababababababababababababababababababababababababababababababababababab".

Definition exampleRelayers (Network valPubKey : string)
  : Response Relayers.httpOkRelayersState :=
  handleValidatorRelayers (fun s => s) ["relay-a"; "relay-b"] []
    "0x9427a30991170f917d7b83def6e44d26577871ed" exampleRelayGet
    Network valPubKey.

Definition exampleRelayersState : Relayers.httpOkRelayersState :=
  {| Relayers.CorrectFeeRecipients := true;
     Relayers.CorrectFeeRelays :=
       [Relayers.mkRelay "relay-a" "0x9427A30991170F917D7B83DEF6E44D26577871ED"
          (Some 1700000000)];
     Relayers.WrongFeeRelays := [];
     Relayers.UnregisteredRelays :=
       [Relayers.mkRelay "relay-b" EmptyString None] |}.
(** * Properties *)

(** ** Machine integers and the process monad *)

Lemma wrap64_small (z : Z) : 0 <= z < 2 ^ 64 -> wrap64 z = z.
Proof. intros H. unfold wrap64. apply Z.mod_small. exact H. Qed.

Lemma wrap64_succ (z : Z) : 0 <= z < 2 ^ 64 - 1 -> wrap64 (z + 1) = z + 1.
Proof. intros H. apply wrap64_small. lia. Qed.

Lemma bind_Returns_inv {A B : Type} (m : outcome A) (k : A -> outcome B) (b : B) :
  bind m k = Returns b <-> exists a, m = Returns a /\ k a = Returns b.
Proof.
  split.
  - destruct m as [a|]; simpl; intros H; [exists a; auto | discriminate].
  - intros (a & -> & H). exact H.
Qed.

Lemma forEach_app {A St : Type} (f : A -> St -> outcome St) (l1 l2 : list A) (s : St) :
  forEach f (l1 ++ l2) s = bind (forEach f l1 s) (forEach f l2).
Proof.
  revert s. induction l1 as [|a l1 IH]; intros s; simpl; [reflexivity|].
  destruct (f a s) as [s'|]; simpl; [apply IH | reflexivity].
Qed.

(** A relation that every step of a loop keeps, and that is reflexive and
    transitive, holds between the state before and after the loop. *)
Lemma forEach_invariant {A St : Type} (R : St -> St -> Prop)
  (f : A -> St -> outcome St) :
  (forall s, R s s) ->
  (forall s1 s2 s3, R s1 s2 -> R s2 s3 -> R s1 s3) ->
  (forall a s s', f a s = Returns s' -> R s s') ->
  forall l s s', forEach f l s = Returns s' -> R s s'.
Proof.
  intros Hrefl Htrans Hstep l.
  induction l as [|a l IH]; intros s s' H; simpl in H.
  - inversion H; subst. apply Hrefl.
  - apply bind_Returns_inv in H. destruct H as (s1 & H1 & H2).
    eapply Htrans; [eapply Hstep; exact H1 | eapply IH; exact H2].
Qed.

(** ** Strings *)

Lemma asciiLower_length (s : string) :
  String.length (GoStrings.asciiLower s) = String.length s.
Proof. induction s as [|c s IH]; simpl; [reflexivity | now rewrite IH]. Qed.

Lemma ToLower_ascii (unicodeLower : string -> string) (s : string) :
  GoStrings.isASCII s = true ->
  GoStrings.ToLower unicodeLower s = GoStrings.asciiLower s.
Proof. intros H. unfold GoStrings.ToLower. now rewrite H. Qed.

Lemma AreAddressEqual_unfold (unicodeLower : string -> string) (a1 a2 : string) :
  AreAddressEqual unicodeLower a1 a2 =
  if Nat.eqb (String.length a1) (String.length a2)
  then Returns (String.eqb (GoStrings.ToLower unicodeLower a1)
                           (GoStrings.ToLower unicodeLower a2))
  else Fatal.
Proof.
  unfold AreAddressEqual.
  destruct (Nat.eqb (String.length a1) (String.length a2)); simpl; [|reflexivity].
  now destruct (String.eqb _ _).
Qed.


(** The three outcomes on addresses. *)
Example AreAddressEqual_examples :
  AreAddressEqual (fun s => s) "0x9427A30991170f91" "0x9427a30991170F91" = Returns true /\
  AreAddressEqual (fun s => s) "0x9427a30991170f91" "0x9427a30991170f92" = Returns false /\
  AreAddressEqual (fun s => s) "0x9427a30991170f91" "" = Fatal.
Proof. repeat split; reflexivity. Qed.

(** ** The per-slot step *)

Section StepProperties.
Variable CollateralInWei : Z.
Variable HandleManualSubscriptions :
  Z -> list Subscription.t -> OracleState -> outcome OracleState.
Variable IsValidatorSubscribed : Z -> OracleState -> bool.
Variable HandleMissedBlock : Block.t -> OracleState -> outcome OracleState.
Variable HandleCorrectBlockProposal : Block.t -> OracleState -> outcome OracleState.
Variable HandleBanValidator : Block.t -> OracleState -> outcome OracleState.
Variable HandleManualUnsubscriptions :
  list Unsubscription.t -> OracleState -> outcome OracleState.
Variable HandleDonations : list Donation.t -> OracleState -> outcome OracleState.

Local Abbreviation step :=
  (AdvanceStateToNextSlot CollateralInWei HandleManualSubscriptions
     IsValidatorSubscribed HandleMissedBlock HandleCorrectBlockProposal
     HandleBanValidator HandleManualUnsubscriptions HandleDonations).

Lemma validateParameters_None s blockPool blockSubs blockUnsubs blockDonations :
  validateParameters s blockPool blockSubs blockUnsubs blockDonations = None <->
  Block.Slot blockPool = LatestSlot s.
Proof.
  unfold validateParameters.
  destruct (Z.eqb_spec (Block.Slot blockPool) (LatestSlot s)); simpl;
    split; intros H; congruence.
Qed.

(** The two tests on the block type, taken together, select one effect
    per block type. *)
Lemma classification_cases (blockPool : Block.t) (s : OracleState) :
  (let! s' := stepMissed IsValidatorSubscribed HandleMissedBlock blockPool s in
   stepProposed IsValidatorSubscribed HandleCorrectBlockProposal
     HandleBanValidator blockPool s') =
  match Block.BlockType blockPool with
  | MissedProposal =>
      if IsValidatorSubscribed (Block.ValidatorIndex blockPool) s
      then HandleMissedBlock blockPool s else Returns s
  | OkPoolProposalBlsKeys =>
      Returns (SendRewardToPool (Block.Reward blockPool) s)
  | OkPoolProposal => HandleCorrectBlockProposal blockPool s
  | WrongFeeRecipient =>
      if IsValidatorSubscribed (Block.ValidatorIndex blockPool) s
      then HandleBanValidator blockPool s else Returns s
  end.
Proof.
  unfold stepMissed, stepProposed.
  destruct (Block.BlockType blockPool); simpl.
  - destruct (IsValidatorSubscribed _ s); simpl; [|reflexivity].
    destruct (HandleMissedBlock blockPool s); reflexivity.
  - reflexivity.
  - destruct (HandleCorrectBlockProposal blockPool s); reflexivity.
  - reflexivity.
Qed.

Lemma step_unfold s blockPool blockSubs blockUnsubs blockDonations :
  Block.Slot blockPool = LatestSlot s ->
  step s blockPool blockSubs blockUnsubs blockDonations =
  (let! s1 := HandleManualSubscriptions CollateralInWei blockSubs s in
   let! s3 :=
     (let! s2 := stepMissed IsValidatorSubscribed HandleMissedBlock blockPool s1 in
      stepProposed IsValidatorSubscribed HandleCorrectBlockProposal
        HandleBanValidator blockPool s2) in
   let! s4 := HandleManualUnsubscriptions blockUnsubs s3 in
   let! s5 := HandleDonations blockDonations s4 in
   Returns (LatestSlot s5, None, setLatestSlot s5 (wrap64 (LatestSlot s5 + 1)))).
Proof.
  intros Hslot. unfold AdvanceStateToNextSlot.
  apply (validateParameters_None s blockPool blockSubs blockUnsubs blockDonations)
    in Hslot.
  rewrite Hslot.
  destruct (HandleManualSubscriptions CollateralInWei blockSubs s) as [s1|];
    simpl; [|reflexivity].
  destruct (stepMissed _ _ blockPool s1) as [s2|]; simpl; reflexivity.
Qed.

(** C1: a step whose block is the one of the latest slot returns exactly
    when its phases return one after the other: the subscriptions of the
    block on the state the step starts from; then the effect of the
    block's classification on the state the subscriptions left, a missed
    proposal (and a wrong fee recipient) being handled only when the
    proposer is subscribed in that state; then the unsubscriptions; then
    the donations; and at last [LatestSlot] is incremented by one (as a
    64-bit number), the slot before the increment being the one
    returned. *)
Theorem AdvanceStateToNextSlot_order s blockPool blockSubs blockUnsubs
  blockDonations :
  Block.Slot blockPool = LatestSlot s ->
  forall processedSlot err s',
  (AdvanceStateToNextSlot CollateralInWei HandleManualSubscriptions
      IsValidatorSubscribed HandleMissedBlock HandleCorrectBlockProposal
      HandleBanValidator HandleManualUnsubscriptions HandleDonations) s blockPool blockSubs blockUnsubs blockDonations
    = Returns (processedSlot, err, s') <->
  exists s1 s2 s3 s4,
    HandleManualSubscriptions CollateralInWei blockSubs s = Returns s1 /\
    match Block.BlockType blockPool with
    | MissedProposal =>
        if IsValidatorSubscribed (Block.ValidatorIndex blockPool) s1
        then HandleMissedBlock blockPool s1 else Returns s1
    | OkPoolProposalBlsKeys =>
        Returns (SendRewardToPool (Block.Reward blockPool) s1)
    | OkPoolProposal => HandleCorrectBlockProposal blockPool s1
    | WrongFeeRecipient =>
        if IsValidatorSubscribed (Block.ValidatorIndex blockPool) s1
        then HandleBanValidator blockPool s1 else Returns s1
    end = Returns s2 /\
    HandleManualUnsubscriptions blockUnsubs s2 = Returns s3 /\
    HandleDonations blockDonations s3 = Returns s4 /\
    processedSlot = LatestSlot s4 /\
    err = None /\
    s' = setLatestSlot s4 (wrap64 (LatestSlot s4 + 1)) /\
    LatestSlot s' = wrap64 (LatestSlot s4 + 1) /\
    (0 <= LatestSlot s4 < 2 ^ 64 - 1 -> LatestSlot s' = LatestSlot s4 + 1).
Proof.
  intros Hslot processedSlot err s'.
  rewrite (step_unfold _ _ _ _ _ Hslot).
  rewrite bind_Returns_inv. split.
  - intros (s1 & H1 & H). apply bind_Returns_inv in H.
    destruct H as (s2 & H2 & H). rewrite classification_cases in H2.
    apply bind_Returns_inv in H. destruct H as (s3 & H3 & H).
    apply bind_Returns_inv in H. destruct H as (s4 & H4 & H).
    inversion H; subst. exists s1, s2, s3, s4.
    repeat split; auto. simpl. intros Hr. now apply wrap64_succ.
  - intros (s1 & s2 & s3 & s4 & H1 & H2 & H3 & H4 & -> & -> & -> & _).
    exists s1. split; [exact H1|].
    rewrite classification_cases, H2. simpl. rewrite H3. simpl.
    rewrite H4. reflexivity.
Qed.

(** C2: when the slot of the classified block is not the latest slot of
    the oracle, the step returns slot 0 with the error that names the two
    slots, and the oracle state it leaves is the state it was given:
    no handler has run and [LatestSlot] has not moved. *)
Theorem AdvanceStateToNextSlot_slot_mismatch s blockPool blockSubs blockUnsubs
  blockDonations :
  Block.Slot blockPool <> LatestSlot s ->
  (AdvanceStateToNextSlot CollateralInWei HandleManualSubscriptions
      IsValidatorSubscribed HandleMissedBlock HandleCorrectBlockProposal
      HandleBanValidator HandleManualUnsubscriptions HandleDonations) s blockPool blockSubs blockUnsubs blockDonations =
  Returns (0, Some (SlotMismatch (Block.Slot blockPool) (LatestSlot s)), s).
Proof.
  intros Hne. unfold AdvanceStateToNextSlot, validateParameters.
  destruct (Z.eqb_spec (Block.Slot blockPool) (LatestSlot s)) as [Heq|_];
    [contradiction | reflexivity].
Qed.


End StepProperties.

(** ** The non-finalized overlay *)

Lemma bind_Returns_r {A : Type} (m : outcome A) : bind m Returns = m.
Proof. destruct m; reflexivity. Qed.

Lemma forEach_map {A B St : Type} (g : A -> B) (f : B -> St -> outcome St)
  (l : list A) (s : St) :
  forEach f (map g l) s = forEach (fun a => f (g a)) l s.
Proof.
  revert s. induction l as [|a l IH]; intros s; simpl; [reflexivity|].
  destruct (f (g a) s); simpl; [apply IH | reflexivity].
Qed.

Lemma forEach_flat_map {A B St : Type} (g : A -> list B) (f : B -> St -> outcome St)
  (l : list A) (s : St) :
  forEach f (flat_map g l) s = forEach (fun a => forEach f (g a)) l s.
Proof.
  revert s. induction l as [|a l IH]; intros s; simpl; [reflexivity|].
  rewrite forEach_app.
  destruct (forEach f (g a) s); simpl; [apply IH | reflexivity].
Qed.

Lemma forEach_ext {A St : Type} (f g : A -> St -> outcome St) (l : list A) (s : St) :
  (forall a s, f a s = g a s) -> forEach f l s = forEach g l s.
Proof.
  intros Hfg. revert s. induction l as [|a l IH]; intros s; simpl; [reflexivity|].
  rewrite Hfg. destruct (g a s); simpl; [apply IH | reflexivity].
Qed.

Lemma sameButStatusAndPending_refl (v : ValidatorInfo) :
  sameButStatusAndPending v v.
Proof. unfold sameButStatusAndPending. tauto. Qed.

Lemma sameButStatusAndPending_trans (v1 v2 v3 : ValidatorInfo) :
  sameButStatusAndPending v1 v2 -> sameButStatusAndPending v2 v3 ->
  sameButStatusAndPending v1 v3.
Proof.
  unfold sameButStatusAndPending.
  intros (A1 & A2 & A3 & A4 & A5 & A6 & A7 & A8) (B1 & B2 & B3 & B4 & B5 & B6 & B7 & B8).
  repeat split; congruence.
Qed.

Lemma sameButStatusAndPending_set (v : ValidatorInfo) (st : ValStatus) (p : Z) :
  sameButStatusAndPending v (setStatusAndPending v st p).
Proof. unfold sameButStatusAndPending. simpl. tauto. Qed.

Lemma overlayOf_refl (m : gmap Z ValidatorInfo) : overlayOf m m.
Proof.
  intros k. destruct (m !! k); [apply sameButStatusAndPending_refl | exact I].
Qed.

Lemma overlayOf_trans (m1 m2 m3 : gmap Z ValidatorInfo) :
  overlayOf m1 m2 -> overlayOf m2 m3 -> overlayOf m1 m3.
Proof.
  intros H12 H23 k. specialize (H12 k). specialize (H23 k).
  destruct (m1 !! k), (m2 !! k), (m3 !! k); try contradiction; try exact I.
  eapply sameButStatusAndPending_trans; eassumption.
Qed.

Lemma overlayOf_insert (m : gmap Z ValidatorInfo) (k : Z) (v v' : ValidatorInfo) :
  m !! k = Some v -> sameButStatusAndPending v v' -> overlayOf m (<[k := v']> m).
Proof.
  intros Hk Hsame j. destruct (decide (k = j)) as [->|Hne].
  - rewrite lookup_insert_eq, Hk. exact Hsame.
  - rewrite lookup_insert_ne by exact Hne.
    destruct (m !! j); [apply sameButStatusAndPending_refl | exact I].
Qed.

Lemma overlayOf_dom (m m' : gmap Z ValidatorInfo) : overlayOf m m' -> dom m' = dom m.
Proof.
  intros H. apply set_eq. intros k. rewrite !elem_of_dom.
  specialize (H k). destruct (m !! k), (m' !! k); try contradiction;
    split; intros [x Hx]; try discriminate; eauto.
Qed.

Section OverlayProperties.
Variable unicodeLower : string -> string.
Variable AddressString : Address -> string.
Variable CanValidatorSubscribeToPool : BeaconValidator.t -> bool.
Variable CollateralInWei : Z.

Local Abbreviation applySub :=
  (applySubscription unicodeLower AddressString CanValidatorSubscribeToPool
     CollateralInWei).
Local Abbreviation applyUnsub := (applyUnsubscription unicodeLower AddressString).
Local Abbreviation apply :=
  (applyEvent unicodeLower AddressString CanValidatorSubscribeToPool CollateralInWei).
Local Abbreviation overlay :=
  (ApplyNonFinalizedState unicodeLower AddressString CanValidatorSubscribeToPool
     CollateralInWei).
Local Abbreviation subApplies :=
  (subscriptionApplies unicodeLower AddressString CanValidatorSubscribeToPool
     CollateralInWei).
Local Abbreviation unsubApplies := (unsubscriptionApplies unicodeLower AddressString).
Local Abbreviation agree := (lengthsAgree AddressString).

Lemma applySubscription_unfold (sub : Subscription.t)
  (validators : gmap Z ValidatorInfo) :
  applySub sub validators =
  match validators !! Subscription.ValidatorID (Subscription.Event sub) with
  | None => Returns validators
  | Some val =>
      if Nat.eqb (String.length (WithdrawalAddress val))
           (String.length (AddressString (Subscription.Sender (Subscription.Event sub))))
      then Returns
             (if subApplies sub val
              then <[Subscription.ValidatorID (Subscription.Event sub) :=
                      setStatusAndPending val Active
                        (PendingRewardsWei val
                         + Subscription.SubscriptionCollateral (Subscription.Event sub))]>
                     validators
              else validators)
      else Fatal
  end.
Proof.
  unfold applySubscription, subscriptionApplies.
  destruct (validators !! _) as [val|]; [|reflexivity].
  rewrite AreAddressEqual_unfold.
  destruct (Nat.eqb _ _); simpl; [|reflexivity].
  destruct (String.eqb _ _); simpl; [|reflexivity].
  destruct (_ >=? _); simpl; [|reflexivity].
  destruct (CanValidatorSubscribeToPool _); simpl; [|reflexivity].
  destruct (_ || _); reflexivity.
Qed.

Lemma applyUnsubscription_unfold (unsub : Unsubscription.t)
  (validators : gmap Z ValidatorInfo) :
  applyUnsub unsub validators =
  match validators !! Unsubscription.ValidatorID (Unsubscription.Event unsub) with
  | None => Returns validators
  | Some val =>
      if Nat.eqb (String.length (WithdrawalAddress val))
           (String.length
              (AddressString (Unsubscription.Sender (Unsubscription.Event unsub))))
      then Returns
             (if unsubApplies unsub val
              then <[Unsubscription.ValidatorID (Unsubscription.Event unsub) :=
                      setStatusAndPending val NotSubscribed 0]> validators
              else validators)
      else Fatal
  end.
Proof.
  unfold applyUnsubscription, unsubscriptionApplies.
  destruct (validators !! _) as [val|]; [|reflexivity].
  rewrite AreAddressEqual_unfold.
  destruct (Nat.eqb _ _); simpl; [|reflexivity].
  destruct (String.eqb _ _); simpl; [|reflexivity].
  destruct (_ || _); reflexivity.
Qed.

(** An event either ends the process, when the lengths of the two
    addresses differ, or returns a map that differs from the one it was
    given at most in the status and the pending rewards of its validator. *)
Lemma applyEvent_cases (e : OverlayEvent) (validators : gmap Z ValidatorInfo) :
  match apply e validators with
  | Returns validators' => agree validators e /\ overlayOf validators validators'
  | Fatal => ~ agree validators e
  end.
Proof.
  unfold lengthsAgree.
  destruct e as [sub|unsub]; simpl.
  - rewrite applySubscription_unfold.
    destruct (validators !! _) as [val|] eqn:Hval.
    + destruct (Nat.eqb_spec (String.length (WithdrawalAddress val))
        (String.length (AddressString (Subscription.Sender (Subscription.Event sub)))))
        as [Hlen|Hlen].
      * split; [intros v Hv; inversion Hv; subst; exact Hlen|].
        destruct (subApplies sub val); [|apply overlayOf_refl].
        eapply overlayOf_insert; [exact Hval | apply sameButStatusAndPending_set].
      * intros H. apply Hlen, H. reflexivity.
    + split; [intros v Hv; discriminate | apply overlayOf_refl].
  - rewrite applyUnsubscription_unfold.
    destruct (validators !! _) as [val|] eqn:Hval.
    + destruct (Nat.eqb_spec (String.length (WithdrawalAddress val))
        (String.length
           (AddressString (Unsubscription.Sender (Unsubscription.Event unsub)))))
        as [Hlen|Hlen].
      * split; [intros v Hv; inversion Hv; subst; exact Hlen|].
        destruct (unsubApplies unsub val); [|apply overlayOf_refl].
        eapply overlayOf_insert; [exact Hval | apply sameButStatusAndPending_set].
      * intros H. apply Hlen, H. reflexivity.
    + split; [intros v Hv; discriminate | apply overlayOf_refl].
Qed.

Lemma lengthsAgree_overlayOf (m m' : gmap Z ValidatorInfo) (e : OverlayEvent) :
  overlayOf m m' -> agree m e <-> agree m' e.
Proof.
  intros H. unfold lengthsAgree. specialize (H (eventValidatorID e)).
  destruct (m !! eventValidatorID e) as [v|], (m' !! eventValidatorID e) as [v'|];
    try contradiction.
  - destruct H as (_ & _ & HW & _).
    split; intros Hl x Hx; inversion Hx; subst.
    + rewrite HW. apply Hl. reflexivity.
    + rewrite <- HW. apply Hl. reflexivity.
  - split; intros _ x Hx; discriminate.
Qed.

(** A replay returns exactly when none of its events has addresses of
    different lengths, and then it is an overlay of the map it started
    from. *)
Lemma replay_cases (events : list OverlayEvent) (validators : gmap Z ValidatorInfo) :
  match replay unicodeLower AddressString CanValidatorSubscribeToPool
          CollateralInWei events validators with
  | Returns validators' =>
      Forall (agree validators) events /\ overlayOf validators validators'
  | Fatal => ~ Forall (agree validators) events
  end.
Proof.
  unfold replay. revert validators.
  induction events as [|e events IH]; intros validators; simpl.
  - split; [constructor | apply overlayOf_refl].
  - pose proof (applyEvent_cases e validators) as He.
    destruct (apply e validators) as [m1|]; simpl.
    + destruct He as [Hag Hov]. specialize (IH m1).
      destruct (forEach apply events m1) as [m2|].
      * destruct IH as [Hall Hov2]. split.
        -- constructor; [exact Hag|].
           eapply Forall_impl; [exact Hall|].
           intros e' He'. exact (proj2 (lengthsAgree_overlayOf _ _ e' Hov) He').
        -- eapply overlayOf_trans; eassumption.
      * intros Hall. apply IH. inversion Hall; subst.
        eapply Forall_impl; [eassumption|].
        intros e' He'. exact (proj1 (lengthsAgree_overlayOf _ _ e' Hov) He').
    + intros Hall. inversion Hall; subst. contradiction.
Qed.

(** The loops of [ApplyNonFinalizedState] replay the events one at a time
    in the order in which they meet them. *)
Lemma ApplyNonFinalizedState_replay (subs : list Subscription.t)
  (unsubs : list Unsubscription.t) (validators : gmap Z ValidatorInfo) :
  overlay subs unsubs validators =
  replay unicodeLower AddressString CanValidatorSubscribeToPool CollateralInWei
    (eventsInLoopOrder subs unsubs) validators.
Proof.
  unfold ApplyNonFinalizedState, replay, eventsInLoopOrder.
  rewrite forEach_flat_map. apply forEach_ext. intros block m.
  unfold applyBlock, eventsOfBlock. rewrite forEach_app, forEach_map.
  change (fun a : Subscription.t => apply (SubscribeEvent a)) with applySub.
  destruct (forEach applySub (GetSubInBlock subs block) m) as [m1|]; simpl;
    [|reflexivity].
  rewrite forEach_map. reflexivity.
Qed.

End OverlayProperties.

(** ** Stable sorting by a key *)

Lemma insertBy_In {A : Type} (leb : A -> A -> bool) (x : A) (l : list A) (z : A) :
  In z (insertBy leb x l) <-> z = x \/ In z l.
Proof.
  induction l as [|y l IH]; simpl.
  - split; intros [H|H]; auto.
  - destruct (leb x y); simpl; [split; intros [H|H]; auto|].
    rewrite IH. split; intros H; tauto.
Qed.

Lemma sortBy_In {A : Type} (leb : A -> A -> bool) (l : list A) (z : A) :
  In z (sortBy leb l) <-> In z l.
Proof.
  induction l as [|x l IH]; simpl; [tauto|].
  rewrite insertBy_In, IH. split; intros [H|H]; auto.
Qed.

Lemma sortBy_ext {A : Type} (leb1 leb2 : A -> A -> bool) (l : list A) :
  (forall x y, leb1 x y = leb2 x y) -> sortBy leb1 l = sortBy leb2 l.
Proof.
  intros Hext. induction l as [|x l IH]; simpl; [reflexivity|].
  rewrite IH. generalize (sortBy leb2 l). intros l'.
  induction l' as [|y l' IH']; simpl; [reflexivity|].
  rewrite Hext, IH'. reflexivity.
Qed.

Section SortByKey.
Context {A : Type} (key : A -> Z).

Local Abbreviation keyLeb := (fun x y : A => key x <=? key y).
Local Abbreviation keyLe := (fun x y : A => key x <= key y).
Local Abbreviation keyIs := (fun (v : Z) (y : A) => key y =? v).

Lemma insertBy_sorted (x : A) (l : list A) :
  StronglySorted keyLe l -> StronglySorted keyLe (insertBy keyLeb x l).
Proof.
  induction l as [|y l IH]; intros Hs; simpl.
  - constructor; constructor.
  - apply StronglySorted_inv in Hs. destruct Hs as [Hs Hy].
    destruct (Z.leb_spec (key x) (key y)) as [Hxy|Hxy].
    + constructor; [constructor; assumption|].
      constructor; [exact Hxy|].
      rewrite List.Forall_forall in Hy |- *. intros z Hz.
      specialize (Hy z Hz). simpl in Hy. lia.
    + constructor; [apply IH; exact Hs|].
      rewrite List.Forall_forall in Hy |- *. intros z Hz.
      apply insertBy_In in Hz. destruct Hz as [->|Hz]; [lia | apply Hy, Hz].
Qed.

Lemma sortBy_sorted (l : list A) : StronglySorted keyLe (sortBy keyLeb l).
Proof.
  induction l as [|x l IH]; simpl; [constructor | apply insertBy_sorted, IH].
Qed.

(** Inserting keeps, for every key, the order of the elements that have
    it: the new element goes in front of those with its own key. *)
Lemma filter_insertBy (v : Z) (x : A) (l : list A) :
  List.filter (keyIs v) (insertBy keyLeb x l) =
  if key x =? v then x :: List.filter (keyIs v) l else List.filter (keyIs v) l.
Proof.
  induction l as [|y l IH]; simpl.
  - destruct (key x =? v); reflexivity.
  - destruct (Z.leb_spec (key x) (key y)) as [Hxy|Hxy]; simpl.
    + destruct (key x =? v); reflexivity.
    + rewrite IH.
      destruct (Z.eqb_spec (key x) v) as [Hx|Hx];
        destruct (Z.eqb_spec (key y) v) as [Hy|Hy]; try reflexivity.
      lia.
Qed.

Lemma filter_sortBy (v : Z) (l : list A) :
  List.filter (keyIs v) (sortBy keyLeb l) = List.filter (keyIs v) l.
Proof.
  induction l as [|x l IH]; simpl; [reflexivity|].
  rewrite filter_insertBy, IH. reflexivity.
Qed.

(** Two lists sorted by the key in which, for every key, the elements
    with that key come in the same order, are the same list. *)
Lemma sorted_unique (X Y : list A) :
  StronglySorted keyLe X -> StronglySorted keyLe Y ->
  (forall v, List.filter (keyIs v) X = List.filter (keyIs v) Y) ->
  X = Y.
Proof.
  revert Y. induction X as [|x X IH]; intros Y HX HY Hf.
  - destruct Y as [|y Y]; [reflexivity|].
    specialize (Hf (key y)). simpl in Hf. rewrite Z.eqb_refl in Hf. discriminate.
  - destruct Y as [|y Y].
    + specialize (Hf (key x)). simpl in Hf. rewrite Z.eqb_refl in Hf. discriminate.
    + apply StronglySorted_inv in HX. destruct HX as [HX HxX].
      apply StronglySorted_inv in HY. destruct HY as [HY HyY].
      rewrite List.Forall_forall in HxX, HyY.
      assert (Hxy : key y <= key x).
      { assert (Hin : In x (List.filter (keyIs (key x)) (y :: Y))).
        { rewrite <- Hf. simpl. rewrite Z.eqb_refl. left. reflexivity. }
        apply filter_In in Hin. destruct Hin as [[->|Hin] _]; [lia|].
        apply HyY, Hin. }
      assert (Hyx : key x <= key y).
      { assert (Hin : In y (List.filter (keyIs (key y)) (x :: X))).
        { rewrite Hf. simpl. rewrite Z.eqb_refl. left. reflexivity. }
        apply filter_In in Hin. destruct Hin as [[->|Hin] _]; [lia|].
        apply HxX, Hin. }
      assert (Hk : key x = key y) by lia.
      pose proof (Hf (key x)) as Hhead. simpl in Hhead.
      rewrite Z.eqb_refl in Hhead.
      replace (key y =? key x) with true in Hhead by (symmetry; apply Z.eqb_eq; lia).
      inversion Hhead as [[Hxeq Htail]]. subst y. f_equal.
      apply IH; [exact HX | exact HY|].
      intros v. specialize (Hf v). simpl in Hf.
      destruct (key x =? v); [inversion Hf; reflexivity | exact Hf].
Qed.

Lemma sortBy_unique (l X : list A) :
  StronglySorted keyLe X ->
  (forall v, List.filter (keyIs v) X = List.filter (keyIs v) l) ->
  X = sortBy keyLeb l.
Proof.
  intros HX Hf. apply sorted_unique; [exact HX | apply sortBy_sorted|].
  intros v. rewrite filter_sortBy. apply Hf.
Qed.

End SortByKey.

(** ** The order of the loops of the overlay *)

Lemma eventKind_range (e : OverlayEvent) : 0 <= eventKind e <= 1.
Proof. destruct e; simpl; lia. Qed.

Lemma blockThenKindLeb_rank (e1 e2 : OverlayEvent) :
  blockThenKindLeb e1 e2 = (eventRank e1 <=? eventRank e2).
Proof.
  unfold blockThenKindLeb, eventRank.
  pose proof (eventKind_range e1). pose proof (eventKind_range e2).
  destruct (Z.ltb_spec (eventBlock e1) (eventBlock e2));
    destruct (Z.eqb_spec (eventBlock e1) (eventBlock e2));
    destruct (Z.leb_spec (eventKind e1) (eventKind e2));
    destruct (Z.leb_spec (2 * eventBlock e1 + eventKind e1)
                (2 * eventBlock e2 + eventKind e2));
    simpl; try reflexivity; lia.
Qed.

Lemma eventRank_block (e : OverlayEvent) : eventBlock e = eventRank e / 2.
Proof.
  unfold eventRank. pose proof (eventKind_range e).
  Z.div_mod_to_equations. lia.
Qed.

Lemma appendIfNew_In (l : list Z) (x b : Z) :
  In b (appendIfNew l x) <-> In b l \/ b = x.
Proof.
  unfold appendIfNew. destruct (existsb (fun b0 => b0 =? x) l) eqn:Hex.
  - apply existsb_exists in Hex. destruct Hex as (y & Hy & Hyx).
    apply Z.eqb_eq in Hyx. subst y.
    split; [auto | intros [H| ->]; assumption].
  - rewrite in_app_iff. simpl. split; intros [H|H]; auto.
    + destruct H as [H|[]]; auto.
Qed.

Lemma appendIfNew_NoDup (l : list Z) (x : Z) :
  List.NoDup l -> List.NoDup (appendIfNew l x).
Proof.
  intros Hnd. unfold appendIfNew.
  destruct (existsb (fun b0 => b0 =? x) l) eqn:Hex; [exact Hnd|].
  assert (Hnotin : ~ In x l).
  { intros Hin. assert (existsb (fun b0 => b0 =? x) l = true) as Ht.
    { apply existsb_exists. exists x. split; [exact Hin | apply Z.eqb_refl]. }
    congruence. }
  clear Hex. induction Hnd as [|y l Hy Hnd IH]; simpl.
  - constructor; [intros [] | constructor].
  - constructor.
    + rewrite in_app_iff. simpl. intros [H|[H|[]]]; [auto|].
      subst. apply Hnotin. left. reflexivity.
    + apply IH. intros H. apply Hnotin. right. exact H.
Qed.

Lemma fold_appendIfNew_In (xs acc : list Z) (b : Z) :
  In b (fold_left appendIfNew xs acc) <-> In b acc \/ In b xs.
Proof.
  revert acc. induction xs as [|x xs IH]; intros acc; simpl; [tauto|].
  rewrite IH, appendIfNew_In. split; intros H; intuition auto.
Qed.

Lemma fold_appendIfNew_NoDup (xs acc : list Z) :
  List.NoDup acc -> List.NoDup (fold_left appendIfNew xs acc).
Proof.
  revert acc. induction xs as [|x xs IH]; intros acc Hnd; simpl; [exact Hnd|].
  apply IH, appendIfNew_NoDup, Hnd.
Qed.

Lemma collectBlocks_In (subs : list Subscription.t) (unsubs : list Unsubscription.t)
  (b : Z) :
  In b (collectBlocks subs unsubs) <->
  In b (map Subscription.block subs) \/ In b (map Unsubscription.block unsubs).
Proof.
  unfold collectBlocks. rewrite !fold_appendIfNew_In. simpl. tauto.
Qed.

Lemma collectBlocks_NoDup (subs : list Subscription.t) (unsubs : list Unsubscription.t) :
  List.NoDup (collectBlocks subs unsubs).
Proof.
  unfold collectBlocks. apply fold_appendIfNew_NoDup, fold_appendIfNew_NoDup.
  constructor.
Qed.

Lemma insertBlock_In (b : Z) (l : list Z) (z : Z) :
  In z (insertBlock b l) <-> z = b \/ In z l.
Proof.
  induction l as [|y l IH]; simpl.
  - split; intros [H|H]; auto.
  - destruct (b <=? y); simpl; [split; intros [H|H]; auto|].
    rewrite IH. tauto.
Qed.

Lemma sortBlocks_In (l : list Z) (z : Z) : In z (sortBlocks l) <-> In z l.
Proof.
  induction l as [|x l IH]; simpl; [tauto|].
  rewrite insertBlock_In, IH. split; intros [H|H]; auto.
Qed.

Lemma insertBlock_sorted (b : Z) (l : list Z) :
  StronglySorted Z.lt l -> ~ In b l -> StronglySorted Z.lt (insertBlock b l).
Proof.
  induction l as [|y l IH]; intros Hs Hnotin; simpl.
  - constructor; constructor.
  - apply StronglySorted_inv in Hs. destruct Hs as [Hs Hy].
    assert (Hby : b <> y) by (intros ->; apply Hnotin; left; reflexivity).
    destruct (Z.leb_spec b y) as [Hle|Hgt].
    + constructor; [constructor; assumption|].
      constructor; [lia|].
      rewrite List.Forall_forall in Hy |- *. intros z Hz.
      specialize (Hy z Hz). lia.
    + constructor.
      * apply IH; [exact Hs|]. intros H. apply Hnotin. right. exact H.
      * rewrite List.Forall_forall in Hy |- *. intros z Hz.
        apply insertBlock_In in Hz. destruct Hz as [->|Hz]; [lia | apply Hy, Hz].
Qed.

(** The block numbers the outer loop runs over are strictly ascending. *)
Lemma sortBlocks_sorted (l : list Z) :
  List.NoDup l -> StronglySorted Z.lt (sortBlocks l).
Proof.
  induction 1 as [|x l Hx Hnd IH]; simpl; [constructor|].
  apply insertBlock_sorted; [exact IH|]. rewrite sortBlocks_In. exact Hx.
Qed.

Lemma StronglySorted_app_intro {A : Type} (R : A -> A -> Prop) (l1 l2 : list A) :
  StronglySorted R l1 -> StronglySorted R l2 ->
  (forall x y, In x l1 -> In y l2 -> R x y) ->
  StronglySorted R (l1 ++ l2).
Proof.
  induction l1 as [|a l1 IH]; intros H1 H2 H12; simpl; [exact H2|].
  apply StronglySorted_inv in H1. destruct H1 as [H1 Ha].
  constructor.
  - apply IH; [exact H1 | exact H2|]. intros x y Hx Hy. apply H12; [right|]; assumption.
  - apply List.Forall_app. split; [exact Ha|].
    apply List.Forall_forall. intros y Hy. apply H12; [left; reflexivity | exact Hy].
Qed.

Lemma StronglySorted_const {A : Type} (key : A -> Z) (c : Z) (l : list A) :
  (forall x, In x l -> key x = c) ->
  StronglySorted (fun x y => key x <= key y) l.
Proof.
  induction l as [|a l IH]; intros H; constructor.
  - apply IH. intros x Hx. apply H. right. exact Hx.
  - apply List.Forall_forall. intros y Hy.
    rewrite (H a), (H y); [lia | right; exact Hy | left; reflexivity].
Qed.

Lemma eventsOfBlock_In (subs : list Subscription.t) (unsubs : list Unsubscription.t)
  (b : Z) (e : OverlayEvent) :
  In e (eventsOfBlock subs unsubs b) <->
  In e (allEvents subs unsubs) /\ eventBlock e = b.
Proof.
  unfold eventsOfBlock, allEvents, GetSubInBlock, GetUnsubInBlock.
  rewrite !in_app_iff, !in_map_iff. split.
  - intros [(x & <- & Hx)|(x & <- & Hx)]; apply filter_In in Hx;
      destruct Hx as [Hx Hb]; apply Z.eqb_eq in Hb; simpl; split; eauto.
  - intros [[(x & <- & Hx)|(x & <- & Hx)] Hb]; simpl in Hb; [left|right];
      exists x; (split; [reflexivity|]); apply filter_In;
      (split; [exact Hx | apply Z.eqb_eq; exact Hb]).
Qed.

Lemma eventsOfBlock_sorted (subs : list Subscription.t)
  (unsubs : list Unsubscription.t) (b : Z) :
  StronglySorted (fun x y => eventRank x <= eventRank y)
    (eventsOfBlock subs unsubs b).
Proof.
  unfold eventsOfBlock, GetSubInBlock, GetUnsubInBlock.
  apply StronglySorted_app_intro.
  - apply (StronglySorted_const eventRank (2 * b)). intros e He.
    apply in_map_iff in He. destruct He as (x & <- & Hx).
    apply filter_In in Hx. destruct Hx as [_ Hb]. apply Z.eqb_eq in Hb.
    unfold eventRank. simpl. lia.
  - apply (StronglySorted_const eventRank (2 * b + 1)). intros e He.
    apply in_map_iff in He. destruct He as (x & <- & Hx).
    apply filter_In in Hx. destruct Hx as [_ Hb]. apply Z.eqb_eq in Hb.
    unfold eventRank. simpl. lia.
  - intros x y Hx Hy.
    apply in_map_iff in Hx. destruct Hx as (x0 & <- & Hx).
    apply in_map_iff in Hy. destruct Hy as (y0 & <- & Hy).
    apply filter_In in Hx. destruct Hx as [_ Hbx]. apply Z.eqb_eq in Hbx.
    apply filter_In in Hy. destruct Hy as [_ Hby]. apply Z.eqb_eq in Hby.
    unfold eventRank. simpl. lia.
Qed.

Lemma flat_map_eventsOfBlock_sorted (subs : list Subscription.t)
  (unsubs : list Unsubscription.t) (blocks : list Z) :
  StronglySorted Z.lt blocks ->
  StronglySorted (fun x y => eventRank x <= eventRank y)
    (flat_map (eventsOfBlock subs unsubs) blocks).
Proof.
  induction blocks as [|b blocks IH]; intros Hs; simpl; [constructor|].
  apply StronglySorted_inv in Hs. destruct Hs as [Hs Hb].
  apply StronglySorted_app_intro; [apply eventsOfBlock_sorted | apply IH, Hs|].
  intros x y Hx Hy. apply eventsOfBlock_In in Hx. destruct Hx as [_ Hx].
  apply in_flat_map in Hy. destruct Hy as (b' & Hb' & Hy).
  apply eventsOfBlock_In in Hy. destruct Hy as [_ Hy].
  rewrite List.Forall_forall in Hb. specialize (Hb b' Hb').
  unfold eventRank. pose proof (eventKind_range x). pose proof (eventKind_range y).
  lia.
Qed.

Lemma filter_none {A : Type} (P : A -> bool) (l : list A) :
  (forall x, In x l -> P x = false) -> List.filter P l = [].
Proof.
  induction l as [|a l IH]; intros H; simpl; [reflexivity|].
  rewrite (H a) by (left; reflexivity). apply IH. intros x Hx. apply H. right. exact Hx.
Qed.

Lemma filter_map_filter {A B : Type} (P : B -> bool) (Q : A -> bool) (f : A -> B)
  (l : list A) :
  (forall x, P (f x) = true -> Q x = true) ->
  List.filter P (map f (List.filter Q l)) = List.filter P (map f l).
Proof.
  intros HPQ. induction l as [|a l IH]; simpl; [reflexivity|].
  destruct (Q a) eqn:HQ; simpl; rewrite IH; [reflexivity|].
  destruct (P (f a)) eqn:HP; [|reflexivity].
  apply HPQ in HP. congruence.
Qed.

(** For every place in the order, the loops meet the events of that place
    in the order of the lists they were given. *)
Lemma filter_rank_eventsInLoopOrder (subs : list Subscription.t)
  (unsubs : list Unsubscription.t) (v : Z) :
  List.filter (fun e => eventRank e =? v) (eventsInLoopOrder subs unsubs) =
  List.filter (fun e => eventRank e =? v) (allEvents subs unsubs).
Proof.
  set (P := fun e => eventRank e =? v).
  assert (HP : forall e, P e = true -> eventBlock e = v / 2).
  { intros e He. apply Z.eqb_eq in He. rewrite <- He. apply eventRank_block. }
  assert (Hgroup : List.filter P (eventsOfBlock subs unsubs (v / 2))
                   = List.filter P (allEvents subs unsubs)).
  { unfold eventsOfBlock, allEvents, GetSubInBlock, GetUnsubInBlock.
    rewrite !List.filter_app. f_equal; apply filter_map_filter; intros x Hx;
      apply HP in Hx; apply Z.eqb_eq; exact Hx. }
  assert (Hother : forall blocks, ~ In (v / 2) blocks ->
            List.filter P (flat_map (eventsOfBlock subs unsubs) blocks) = []).
  { intros blocks Hnotin. apply filter_none. intros e He.
    apply in_flat_map in He. destruct He as (b & Hb & He).
    apply eventsOfBlock_In in He. destruct He as [_ He].
    destruct (P e) eqn:HPe; [|reflexivity].
    apply HP in HPe. exfalso. apply Hnotin. congruence. }
  unfold eventsInLoopOrder.
  pose proof (sortBlocks_sorted _ (collectBlocks_NoDup subs unsubs)) as Hsorted.
  destruct (in_dec Z.eq_dec (v / 2) (sortBlocks (collectBlocks subs unsubs)))
    as [Hin|Hnotin].
  - rewrite <- Hgroup. clear Hgroup.
    induction Hsorted as [|b blocks Hs IH Hb]; [destruct Hin|].
    simpl. rewrite List.filter_app. destruct Hin as [->|Hin].
    + rewrite Hother; [apply app_nil_r|].
      intros Hin. rewrite List.Forall_forall in Hb. specialize (Hb _ Hin). lia.
    + rewrite (IH Hin).
      rewrite (filter_none P (eventsOfBlock subs unsubs b)); [reflexivity|].
      intros e He. apply eventsOfBlock_In in He. destruct He as [_ He].
      destruct (P e) eqn:HPe; [|reflexivity].
      apply HP in HPe. rewrite List.Forall_forall in Hb. specialize (Hb _ Hin). lia.
  - rewrite (Hother _ Hnotin). symmetry. apply filter_none. intros e He.
    destruct (P e) eqn:HPe; [|reflexivity].
    apply HP in HPe. exfalso. apply Hnotin. apply sortBlocks_In, collectBlocks_In.
    rewrite <- HPe. unfold allEvents in He. apply in_app_iff in He.
    destruct He as [He|He]; apply in_map_iff in He; destruct He as (x & <- & Hx);
      [left|right]; apply in_map_iff; exists x; split; try reflexivity; exact Hx.
Qed.

(** The loops meet the events in ascending order of block number and,
    inside a block, the subscriptions before the unsubscriptions, each kind
    in the order of its list. *)
Lemma eventsInLoopOrder_sorted (subs : list Subscription.t)
  (unsubs : list Unsubscription.t) :
  eventsInLoopOrder subs unsubs = sortBy blockThenKindLeb (allEvents subs unsubs).
Proof.
  rewrite (sortBy_ext blockThenKindLeb (fun x y => eventRank x <=? eventRank y))
    by apply blockThenKindLeb_rank.
  apply sortBy_unique.
  - apply flat_map_eventsOfBlock_sorted, sortBlocks_sorted, collectBlocks_NoDup.
  - apply filter_rank_eventsInLoopOrder.
Qed.

(** ** The tests of the overlay, replayed on the embedding *)

Example hexAddress_testSender :
  hexAddress testSender = "0x9427a30991170f917d7b83def6e44d26577871ed"%string.
Proof. vm_compute. reflexivity. Qed.

(** Rows of the table of [Test_ApplyNonFinalizedState_Subscription]. *)
Example test_subscription_valid :
  statusAndPending 1
    (testOverlay [testSubscription 1 1000 testSender ValidatorStateActiveOngoing 1 0] []
       {[ 1 := testValidator 1 Untracked 93565432 ]})
  = Returns (Some (Active, 93565432 + 1000)).
Proof. vm_compute. reflexivity. Qed.

Example test_subscription_not_enough_collateral :
  statusAndPending 1
    (testOverlay [testSubscription 1 1 testSender ValidatorStateActiveOngoing 1 0] []
       {[ 1 := testValidator 1 Untracked 0 ]})
  = Returns (Some (Untracked, 0)).
Proof. vm_compute. reflexivity. Qed.

Example test_subscription_yellow_card :
  statusAndPending 1
    (testOverlay [testSubscription 1 1000 testSender ValidatorStateActiveOngoing 1 0] []
       {[ 1 := testValidator 1 YellowCard 0 ]})
  = Returns (Some (YellowCard, 0)).
Proof. vm_compute. reflexivity. Qed.

Example test_subscription_slashed :
  statusAndPending 1
    (testOverlay [testSubscription 1 1000 testSender ValidatorStateExitedSlashed 1 0] []
       {[ 1 := testValidator 1 NotSubscribed 0 ]})
  = Returns (Some (NotSubscribed, 0)).
Proof. vm_compute. reflexivity. Qed.

Example test_subscription_other_sender :
  statusAndPending 1
    (testOverlay [testSubscription 1 1000 zeroSender ValidatorStateActiveOngoing 1 0] []
       {[ 1 := testValidator 1 NotSubscribed 0 ]})
  = Returns (Some (NotSubscribed, 0)).
Proof. vm_compute. reflexivity. Qed.

Example test_subscription_other_index :
  statusAndPending 1
    (testOverlay [testSubscription 99 1000 testSender ValidatorStateActiveOngoing 1 0] []
       {[ 1 := testValidator 99 Untracked 0 ]})
  = Returns (Some (Untracked, 0)).
Proof. vm_compute. reflexivity. Qed.

(** Rows of the table of [Test_ApplyNonFinalizedState_Unsubscribe]. *)
Example test_unsubscription_valid :
  statusAndPending 500
    (testOverlay [] [testUnsubscription 500 testSender 1 0]
       {[ 500 := testValidator 500 Active 900000 ]})
  = Returns (Some (NotSubscribed, 0)).
Proof. vm_compute. reflexivity. Qed.

Example test_unsubscription_other_sender :
  statusAndPending 500
    (testOverlay [] [testUnsubscription 500 zeroSender 1 0]
       {[ 500 := testValidator 500 Active 676543 ]})
  = Returns (Some (Active, 676543)).
Proof. vm_compute. reflexivity. Qed.

(** An entry whose withdrawal address is not as long as the sender's string
    (here it is empty) ends the process. *)
Example test_address_length_mismatch :
  testOverlay [testSubscription 1 1000 testSender ValidatorStateActiveOngoing 1 0] []
    {[ 1 := mkValidatorInfo Untracked 0 0 0 "" 1 "" [] [] [] ]} = Fatal.
Proof. vm_compute. reflexivity. Qed.

(** ** The claims on the overlay *)

Section OverlayClaims.
Variable unicodeLower : string -> string.
Variable AddressString : Address -> string.
Variable CanValidatorSubscribeToPool : BeaconValidator.t -> bool.
Variable CollateralInWei : Z.

Local Abbreviation applySub :=
  (applySubscription unicodeLower AddressString CanValidatorSubscribeToPool
     CollateralInWei).
Local Abbreviation overlay :=
  (ApplyNonFinalizedState unicodeLower AddressString CanValidatorSubscribeToPool
     CollateralInWei).
Local Abbreviation subApplies :=
  (subscriptionApplies unicodeLower AddressString CanValidatorSubscribeToPool
     CollateralInWei).
Local Abbreviation agree := (lengthsAgree AddressString).

Lemma ValStatus_eqb_eq (a b : ValStatus) : ValStatus_eqb a b = true <-> a = b.
Proof. destruct a, b; simpl; split; intros H; congruence. Qed.

Lemma subscriptionApplies_true (sub : Subscription.t) (val : ValidatorInfo) :
  subApplies sub val = true <->
  GoStrings.ToLower unicodeLower (WithdrawalAddress val)
    = GoStrings.ToLower unicodeLower
        (AddressString (Subscription.Sender (Subscription.Event sub))) /\
  CollateralInWei <= Subscription.SubscriptionCollateral (Subscription.Event sub) /\
  CanValidatorSubscribeToPool (Subscription.Validator sub) = true /\
  (ValidatorStatus val = Untracked \/ ValidatorStatus val = NotSubscribed).
Proof.
  unfold subscriptionApplies.
  rewrite !andb_true_iff, orb_true_iff, String.eqb_eq, !ValStatus_eqb_eq.
  rewrite Z.geb_le. tauto.
Qed.

(** The whole overlay returns exactly when no event has addresses of
    different lengths, and then its result is an overlay of the map. *)
Lemma ApplyNonFinalizedState_cases (subs : list Subscription.t)
  (unsubs : list Unsubscription.t) (validators : gmap Z ValidatorInfo) :
  match overlay subs unsubs validators with
  | Returns validators' =>
      List.Forall (agree validators) (allEvents subs unsubs) /\
      overlayOf validators validators'
  | Fatal => ~ List.Forall (agree validators) (allEvents subs unsubs)
  end.
Proof.
  rewrite ApplyNonFinalizedState_replay, eventsInLoopOrder_sorted.
  pose proof (replay_cases unicodeLower AddressString CanValidatorSubscribeToPool
    CollateralInWei (sortBy blockThenKindLeb (allEvents subs unsubs)) validators) as H.
  assert (Hall : List.Forall (agree validators)
                   (sortBy blockThenKindLeb (allEvents subs unsubs))
                 <-> List.Forall (agree validators) (allEvents subs unsubs)).
  { rewrite !List.Forall_forall. split; intros Hl e He; apply Hl.
    - apply sortBy_In. exact He.
    - apply sortBy_In in He. exact He. }
  destruct (replay _ _ _ _ _ validators) as [validators'|].
  - destruct H as [H1 H2]. split; [apply Hall, H1 | exact H2].
  - intros Hf. apply H, Hall, Hf.
Qed.

(** C4: the overlay either ends the process, which it does exactly when
    some event meets an entry whose withdrawal address is not as long as
    the sender's string, or returns a map with the keys of the map it was
    given in which the accumulated rewards, the collateral, the withdrawal
    address, the index, the key and the lists of proposed, missed and
    wrong-fee blocks of every entry are the ones it was given: only the
    status and the pending rewards may differ. *)
Theorem ApplyNonFinalizedState_frame (subs : list Subscription.t)
  (unsubs : list Unsubscription.t) (validators : gmap Z ValidatorInfo) :
  match (ApplyNonFinalizedState unicodeLower AddressString
          CanValidatorSubscribeToPool CollateralInWei) subs unsubs validators with
  | Returns validators' =>
      forall k,
        match validators !! k, validators' !! k with
        | Some v, Some v' =>
            AccumulatedRewardsWei v' = AccumulatedRewardsWei v /\
            CollateralWei v' = CollateralWei v /\
            WithdrawalAddress v' = WithdrawalAddress v /\
            ValidatorIndex v' = ValidatorIndex v /\
            ValidatorKey v' = ValidatorKey v /\
            ValidatorProposedBlocks v' = ValidatorProposedBlocks v /\
            ValidatorMissedBlocks v' = ValidatorMissedBlocks v /\
            ValidatorWrongFeeBlocks v' = ValidatorWrongFeeBlocks v
        | None, None => True
        | _, _ => False
        end
  | Fatal => ~ List.Forall ((lengthsAgree AddressString) validators) (allEvents subs unsubs)
  end.
Proof.
  pose proof (ApplyNonFinalizedState_cases subs unsubs validators) as H.
  destruct (overlay subs unsubs validators) as [validators'|]; [|exact H].
  destruct H as [_ H]. exact H.
Qed.

(** C10: an event whose validator is not a key of the map leaves the map
    as it is, and the overlay, when it returns (it does unless some event
    meets an entry whose withdrawal address is not as long as the sender's
    string), returns a map with exactly the keys of the map it was given. *)
Theorem ApplyNonFinalizedState_keys (subs : list Subscription.t)
  (unsubs : list Unsubscription.t) (validators : gmap Z ValidatorInfo) :
  (forall e m, m !! eventValidatorID e = None ->
     applyEvent unicodeLower AddressString CanValidatorSubscribeToPool
       CollateralInWei e m = Returns m) /\
  match (ApplyNonFinalizedState unicodeLower AddressString
          CanValidatorSubscribeToPool CollateralInWei) subs unsubs validators with
  | Returns validators' => dom validators' = dom validators
  | Fatal => ~ List.Forall ((lengthsAgree AddressString) validators) (allEvents subs unsubs)
  end.
Proof.
  split.
  - intros [sub|unsub] m Hm; simpl in *.
    + rewrite applySubscription_unfold, Hm. reflexivity.
    + rewrite applyUnsubscription_unfold, Hm. reflexivity.
  - pose proof (ApplyNonFinalizedState_cases subs unsubs validators) as H.
    destruct (overlay subs unsubs validators) as [validators'|]; [|exact H].
    destruct H as [_ H]. apply overlayOf_dom, H.
Qed.

Lemma ApplyNonFinalizedState_single (sub : Subscription.t)
  (validators : gmap Z ValidatorInfo) :
  overlay [sub] [] validators = applySub sub validators.
Proof.
  unfold ApplyNonFinalizedState, collectBlocks. simpl.
  unfold applyBlock, GetSubInBlock, GetUnsubInBlock. simpl.
  rewrite Z.eqb_refl. simpl.
  destruct (applySub sub validators); reflexivity.
Qed.

(** C5: a subscription whose validator has the entry [val] in the map ends
    the process when the withdrawal address of [val] is not as long as the
    sender's string.  Otherwise it returns, and it changes the map if and
    only if the sender's string equals the withdrawal address after
    lowercasing, the collateral of the event is at least the configured
    one, the beacon-chain validator can subscribe to the pool, and the
    status of [val] is Untracked or NotSubscribed; then the entry becomes
    Active with its pending rewards increased by the collateral, its other
    fields and all other entries being kept; in every other case the map
    is returned as it was.  The overlay of this one event does the same. *)
Theorem applySubscription_spec (sub : Subscription.t)
  (validators : gmap Z ValidatorInfo) (val : ValidatorInfo) :
  let valIndex := Subscription.ValidatorID (Subscription.Event sub) in
  let collateral := Subscription.SubscriptionCollateral (Subscription.Event sub) in
  let sender := AddressString (Subscription.Sender (Subscription.Event sub)) in
  let applies :=
    GoStrings.ToLower unicodeLower (WithdrawalAddress val)
      = GoStrings.ToLower unicodeLower sender /\
    CollateralInWei <= collateral /\
    CanValidatorSubscribeToPool (Subscription.Validator sub) = true /\
    (ValidatorStatus val = Untracked \/ ValidatorStatus val = NotSubscribed) in
  validators !! valIndex = Some val ->
  (ApplyNonFinalizedState unicodeLower AddressString
          CanValidatorSubscribeToPool CollateralInWei) [sub] [] validators = (applySubscription unicodeLower AddressString
       CanValidatorSubscribeToPool CollateralInWei) sub validators /\
  (String.length (WithdrawalAddress val) <> String.length sender ->
     (applySubscription unicodeLower AddressString
       CanValidatorSubscribeToPool CollateralInWei) sub validators = Fatal) /\
  (String.length (WithdrawalAddress val) = String.length sender ->
     exists validators',
       (applySubscription unicodeLower AddressString
       CanValidatorSubscribeToPool CollateralInWei) sub validators = Returns validators' /\
       (validators' <> validators <-> applies) /\
       (applies ->
          exists val',
            validators' !! valIndex = Some val' /\
            ValidatorStatus val' = Active /\
            PendingRewardsWei val' = PendingRewardsWei val + collateral /\
            sameButStatusAndPending val val' /\
            forall k, k <> valIndex -> validators' !! k = validators !! k) /\
       (~ applies -> validators' = validators)).
Proof.
  intros valIndex collateral sender applies Hval.
  split; [apply ApplyNonFinalizedState_single|].
  rewrite applySubscription_unfold. fold valIndex. rewrite Hval. fold sender.
  pose proof (subscriptionApplies_true sub val) as Happ.
  fold sender collateral in Happ. fold applies in Happ.
  destruct (Nat.eqb_spec (String.length (WithdrawalAddress val))
              (String.length sender)) as [Hlen|Hlen].
  - split; [intros Hne; contradiction|]. intros _.
    destruct (subApplies sub val) eqn:Hb.
    + assert (Ha : applies) by (apply Happ; reflexivity).
      eexists. split; [reflexivity|]. fold collateral. split; [|split].
      * split; [intros _; exact Ha|]. intros _ Heq.
        apply (f_equal (fun m => ValidatorStatus <$> m !! valIndex)) in Heq.
        rewrite lookup_insert_eq, Hval in Heq. simpl in Heq.
        destruct Ha as (_ & _ & _ & [Hs|Hs]); rewrite Hs in Heq; discriminate.
      * intros _. eexists. split; [apply lookup_insert_eq|].
        split; [reflexivity|]. split; [reflexivity|].
        split; [apply sameButStatusAndPending_set|].
        intros k Hk. apply lookup_insert_ne. congruence.
      * intros Hna. contradiction.
    + assert (Hna : ~ applies).
      { intros Ha. apply Happ in Ha. congruence. }
      eexists. split; [reflexivity|]. split; [|split].
      * split; [intros Hne; contradiction | intros Ha; contradiction].
      * intros Ha. contradiction.
      * intros _. reflexivity.
  - split; [intros _; reflexivity | intros Heq; contradiction].
Qed.

(** C6, as the code has it: the overlay replays all the events one at a
    time in ascending order of block number and, inside a block, all the
    subscriptions before all the unsubscriptions, each kind in the order of
    the list it came in. *)
Theorem ApplyNonFinalizedState_replay_order (subs : list Subscription.t)
  (unsubs : list Unsubscription.t) (validators : gmap Z ValidatorInfo) :
  (ApplyNonFinalizedState unicodeLower AddressString
          CanValidatorSubscribeToPool CollateralInWei) subs unsubs validators =
  replay unicodeLower AddressString CanValidatorSubscribeToPool CollateralInWei
    (sortBy blockThenKindLeb (allEvents subs unsubs)) validators.
Proof.
  rewrite ApplyNonFinalizedState_replay, eventsInLoopOrder_sorted. reflexivity.
Qed.

End OverlayClaims.

(** Witness of C5: the valid subscription of the test. *)
Lemma applySubscription_spec_witness :
  ({[ 1 := testValidator 1 Untracked 0 ]} : gmap Z ValidatorInfo) !! 1
    = Some (testValidator 1 Untracked 0) /\
  exists validators',
    applySubscription (fun s => s) hexAddress canSubscribeUnlessSlashedOrExited 1000
      (testSubscription 1 1000 testSender ValidatorStateActiveOngoing 1 0)
      {[ 1 := testValidator 1 Untracked 0 ]} = Returns validators' /\
    validators' <> {[ 1 := testValidator 1 Untracked 0 ]}.
Proof.
  assert (Hval : ({[ 1 := testValidator 1 Untracked 0 ]} : gmap Z ValidatorInfo) !! 1
                 = Some (testValidator 1 Untracked 0)) by reflexivity.
  split; [exact Hval|].
  destruct (applySubscription_spec (fun s => s) hexAddress
              canSubscribeUnlessSlashedOrExited 1000
              (testSubscription 1 1000 testSender ValidatorStateActiveOngoing 1 0)
              {[ 1 := testValidator 1 Untracked 0 ]}
              (testValidator 1 Untracked 0) Hval) as (_ & _ & H).
  assert (Hlen : String.length (WithdrawalAddress (testValidator 1 Untracked 0))
                 = String.length (hexAddress testSender)) by reflexivity.
  destruct (H Hlen) as (validators' & Hret & Hiff & _).
  exists validators'. split; [exact Hret|]. apply Hiff.
  split; [reflexivity|]. split; [simpl; lia|]. split; [reflexivity|].
  left. reflexivity.
Defined.

(** The counterexample to C6 as the specification words it: validator 1 is
    Active with 500 wei pending; block 10 carries its unsubscription in
    log 0 and its subscription in log 1.  In the order of the logs it ends
    Active with the collateral pending; the overlay applies the
    subscription first, which changes nothing, and ends NotSubscribed with
    nothing pending. *)
Lemma ApplyNonFinalizedState_not_in_log_order :
  statusAndPending 1
    (ApplyNonFinalizedState (fun s => s) hexAddress
       canSubscribeUnlessSlashedOrExited 1000
       resubscribeSubs resubscribeUnsubs resubscribeValidators)
    = Returns (Some (NotSubscribed, 0)) /\
  statusAndPending 1
    (replayInLogOrder (fun s => s) hexAddress
       canSubscribeUnlessSlashedOrExited 1000
       resubscribeSubs resubscribeUnsubs resubscribeValidators)
    = Returns (Some (Active, 1000)) /\
  ApplyNonFinalizedState (fun s => s) hexAddress
    canSubscribeUnlessSlashedOrExited 1000
    resubscribeSubs resubscribeUnsubs resubscribeValidators
  <> replayInLogOrder (fun s => s) hexAddress
       canSubscribeUnlessSlashedOrExited 1000
       resubscribeSubs resubscribeUnsubs resubscribeValidators.
Proof.
  assert (H1 : statusAndPending 1
    (ApplyNonFinalizedState (fun s => s) hexAddress
       canSubscribeUnlessSlashedOrExited 1000
       resubscribeSubs resubscribeUnsubs resubscribeValidators)
    = Returns (Some (NotSubscribed, 0))) by (vm_compute; reflexivity).
  assert (H2 : statusAndPending 1
    (replayInLogOrder (fun s => s) hexAddress
       canSubscribeUnlessSlashedOrExited 1000
       resubscribeSubs resubscribeUnsubs resubscribeValidators)
    = Returns (Some (Active, 1000))) by (vm_compute; reflexivity).
  split; [exact H1|]. split; [exact H2|].
  intros Heq. rewrite Heq, H2 in H1. discriminate.
Qed.

(** The counterexample does not depend on the case of the letters in the
    sender's string: it holds for every [AddressString] that gives the
    hexadecimal digits of the address in some case, as the checksummed form
    does. *)
Lemma ApplyNonFinalizedState_not_in_log_order_any_case
  (unicodeLower : string -> string) (AddressString : Address -> string) :
  (forall a, GoStrings.isASCII (AddressString a) = true /\
             GoStrings.asciiLower (AddressString a) = hexAddress a) ->
  statusAndPending 1
    (ApplyNonFinalizedState unicodeLower AddressString
       canSubscribeUnlessSlashedOrExited 1000
       resubscribeSubs resubscribeUnsubs resubscribeValidators)
    = Returns (Some (NotSubscribed, 0)) /\
  statusAndPending 1
    (replayInLogOrder unicodeLower AddressString
       canSubscribeUnlessSlashedOrExited 1000
       resubscribeSubs resubscribeUnsubs resubscribeValidators)
    = Returns (Some (Active, 1000)).
Proof.
  intros Hhex.
  assert (Hlen : forall w a, String.length w = String.length (hexAddress a) ->
            Nat.eqb (String.length w) (String.length (AddressString a)) = true).
  { intros w a Hw. apply Nat.eqb_eq. rewrite Hw.
    destruct (Hhex a) as [_ Hlow]. rewrite <- Hlow. rewrite asciiLower_length. reflexivity. }
  assert (Hlower : forall a, GoStrings.ToLower unicodeLower (AddressString a)
                             = hexAddress a).
  { intros a. destruct (Hhex a) as [Hascii Hlow].
    rewrite ToLower_ascii by exact Hascii. exact Hlow. }
  rewrite ApplyNonFinalizedState_replay, eventsInLoopOrder_sorted.
  unfold replayInLogOrder, replay.
  replace (sortBy blockThenKindLeb (allEvents resubscribeSubs resubscribeUnsubs))
    with [SubscribeEvent (testSubscription 1 1000 testSender ValidatorStateActiveOngoing 10 1);
          UnsubscribeEvent (testUnsubscription 1 testSender 10 0)]
    by (vm_compute; reflexivity).
  replace (sortBy blockThenLogIndexLeb (allEvents resubscribeSubs resubscribeUnsubs))
    with [UnsubscribeEvent (testUnsubscription 1 testSender 10 0);
          SubscribeEvent (testSubscription 1 1000 testSender ValidatorStateActiveOngoing 10 1)]
    by (vm_compute; reflexivity).
  unfold resubscribeValidators. simpl forEach. unfold applyEvent.
  split.
  - rewrite applySubscription_unfold. simpl Subscription.ValidatorID.
    rewrite lookup_singleton_eq.
    rewrite Hlen by reflexivity.
    unfold subscriptionApplies. rewrite Hlower.
    simpl bind.
    rewrite applyUnsubscription_unfold. simpl Unsubscription.ValidatorID.
    rewrite lookup_singleton_eq.
    rewrite Hlen by reflexivity.
    unfold unsubscriptionApplies. rewrite Hlower.
    vm_compute. reflexivity.
  - rewrite applyUnsubscription_unfold. simpl Unsubscription.ValidatorID.
    rewrite lookup_singleton_eq.
    rewrite Hlen by reflexivity.
    unfold unsubscriptionApplies. rewrite Hlower.
    simpl bind.
    rewrite applySubscription_unfold. simpl Subscription.ValidatorID.
    rewrite lookup_insert_eq.
    rewrite Hlen by reflexivity.
    unfold subscriptionApplies. rewrite Hlower.
    vm_compute. reflexivity.
Qed.

Lemma hexDigit_lower (n : N) :
  (n < 16)%N ->
  GoStrings.isASCIIByte (hexDigit n) = true /\
  GoStrings.lowerByte (hexDigit n) = hexDigit n.
Proof.
  intros Hn. destruct n as [|p]; [split; reflexivity|].
  do 4 (try destruct p as [p|p|]); try (split; reflexivity); exfalso; lia.
Qed.

(** The lowercase hexadecimal form is one such string. *)
Lemma hexAddress_lower (a : Address) :
  GoStrings.isASCII (hexAddress a) = true /\
  GoStrings.asciiLower (hexAddress a) = hexAddress a.
Proof.
  unfold hexAddress.
  assert (H : GoStrings.isASCII (fold_right hexOfByte EmptyString a) = true /\
              GoStrings.asciiLower (fold_right hexOfByte EmptyString a)
              = fold_right hexOfByte EmptyString a).
  { induction a as [|b a [IH1 IH2]]; [split; reflexivity|].
    pose proof (Byte.to_N_bounded b) as Hb.
    assert (H1 : (Byte.to_N b / 16 < 16)%N)
      by (apply N.Div0.div_lt_upper_bound; lia).
    assert (H2 : (Byte.to_N b mod 16 < 16)%N) by (apply N.mod_lt; lia).
    destruct (hexDigit_lower _ H1) as [A1 L1].
    destruct (hexDigit_lower _ H2) as [A2 L2].
    change (fold_right hexOfByte EmptyString (b :: a))
      with (String (hexDigit (Byte.to_N b / 16))
              (String (hexDigit (Byte.to_N b mod 16))
                 (fold_right hexOfByte EmptyString a))).
    cbn [GoStrings.isASCII GoStrings.asciiLower].
    rewrite A1, A2, IH1, L1, L2, IH2. split; reflexivity. }
  destruct H as [H1 H2]. cbn [GoStrings.isASCII GoStrings.asciiLower].
  rewrite H1, H2. split; reflexivity.
Qed.

(** Witnesses of the claims on the per-slot step. *)
Lemma AdvanceStateToNextSlot_order_witness :
  Block.Slot (exampleBlock 5 OkPoolProposalBlsKeys 40) = LatestSlot (exampleState 5 2) /\
  exists s1 s2 s3 s4,
    idleSubscriptions 1000 [] (exampleState 5 2) = Returns s1 /\
    Returns (SendRewardToPool 40 s1) = Returns s2 /\
    idleHandler ([] : list Unsubscription.t) s2 = Returns s3 /\
    donationsHandler [Donation.mk 3 1] s3 = Returns s4 /\
    LatestSlot s4 = 5 /\ PoolAccumulatedFees s4 = 45.
Proof.
  split; [reflexivity|].
  destruct (proj1 (AdvanceStateToNextSlot_order 1000 idleSubscriptions isSubscribedIn
              idleHandler idleHandler idleHandler idleHandler donationsHandler
              (exampleState 5 2) (exampleBlock 5 OkPoolProposalBlsKeys 40)
              [] [] [Donation.mk 3 1] eq_refl _ _ _) eq_refl)
    as (s1 & s2 & s3 & s4 & H1 & H2 & H3 & H4 & Hslot & _ & Hs' & _).
  exists s1, s2, s3, s4. simpl in H2.
  split; [exact H1|]. split; [exact H2|]. split; [exact H3|]. split; [exact H4|].
  split; [symmetry; exact Hslot|].
  inversion H1; subst s1. inversion H2; subst s2. inversion H3; subst s3.
  inversion H4; subst s4. reflexivity.
Defined.

Lemma AdvanceStateToNextSlot_slot_mismatch_witness :
  Block.Slot (exampleBlock 6 OkPoolProposal 40) <> LatestSlot (exampleState 5 2) /\
  exampleStep (exampleState 5 2) (exampleBlock 6 OkPoolProposal 40) [] []
    [Donation.mk 3 1]
  = Returns (0, Some (SlotMismatch 6 5), exampleState 5 2).
Proof.
  assert (Hne : Block.Slot (exampleBlock 6 OkPoolProposal 40)
                <> LatestSlot (exampleState 5 2)) by (simpl; lia).
  split; [exact Hne|].
  exact (AdvanceStateToNextSlot_slot_mismatch 1000 idleSubscriptions isSubscribedIn
           idleHandler idleHandler idleHandler idleHandler donationsHandler
           (exampleState 5 2) (exampleBlock 6 OkPoolProposal 40) [] []
           [Donation.mk 3 1] Hne).
Defined.


(** ** The driver *)

(** A pass in which the consensus client is in sync and the finalized slot
    is not ahead of the oracle sleeps and then runs the checkpoint test all
    the same. *)
Lemma mainLoopBody_waiting (St Root : Type) (Slot : St -> Z)
  (AdvanceStateToNextEpoch : St -> option St)
  (DumpOracleStateToDatabase : St -> bool * Root * St) (cfg : Config.t)
  (epoch : Z) (s : St) :
  wrap64 (epoch * SlotsInEpoch) <= Slot s ->
  mainLoopBody Slot AdvanceStateToNextEpoch DumpOracleStateToDatabase cfg
    (finalized epoch) s
  = checkpointStep Slot DumpOracleStateToDatabase cfg s [Sleep15].
Proof.
  intros Hle. unfold mainLoopBody. simpl.
  destruct (Z.gtb_spec (wrap64 (epoch * SlotsInEpoch)) (Slot s)) as [Hgt|_];
    [lia | reflexivity].
Qed.

(** The checkpoint test dumps the state whenever the slot is on a
    checkpoint boundary, whatever the pass did before. *)
Lemma checkpointStep_dumps (St Root : Type) (Slot : St -> Z)
  (DumpOracleStateToDatabase : St -> bool * Root * St) (cfg : Config.t)
  (s : St) (done : list (Action Root)) :
  checkpointReached Slot cfg s = Some true ->
  exists done', 
    (checkpointStep Slot DumpOracleStateToDatabase cfg s done
       = Continue (snd (DumpOracleStateToDatabase s)) done'
     \/ checkpointStep Slot DumpOracleStateToDatabase cfg s done
       = Stopped StopFatal done') /\
    checkpointed done' = true /\
    processedSlots done' = processedSlots done.
Proof.
  intros Hreached. unfold checkpointStep. rewrite Hreached.
  destruct (DumpOracleStateToDatabase s) as [[failed mRoot] s'] eqn:Hdump.
  assert (Hc : forall l : list (Action Root),
            checkpointed ((done ++ [DumpedOracleState (Slot s)]) ++ l) = true).
  { intros l. unfold checkpointed. rewrite !existsb_app. simpl.
    rewrite orb_true_r. reflexivity. }
  assert (Hp : forall l : list (Action Root), existsb isAdvance l = false ->
            processedSlots ((done ++ [DumpedOracleState (Slot s)]) ++ l)
            = processedSlots done).
  { intros l Hl. unfold processedSlots. rewrite !existsb_app, Hl. simpl.
    rewrite !orb_false_r. reflexivity. }
  destruct (Config.DryRun cfg); simpl.
  - exists (done ++ [DumpedOracleState (Slot s)]).
    split; [destruct failed; auto|].
    specialize (Hc []). specialize (Hp [] eq_refl). rewrite app_nil_r in Hc, Hp.
    split; assumption.
  - exists ((done ++ [DumpedOracleState (Slot s)]) ++ [UpdatedContractMerkleRoot mRoot]).
    split; [destruct failed; auto|].
    split; [apply Hc | apply Hp; reflexivity].
Qed.

(** C8, the code at the failing inputs: the oracle was deployed at slot 96
    with a checkpoint every 32 slots and is to process slot 96 next.
    When the consensus client reports epoch 3 (slot 96) as finalized in two
    passes in a row, each pass only sleeps, and each dumps the state and
    publishes the root although no slot has been processed at all.  When
    it reports epoch 4 (slot 128) in two passes in a row, the first pass
    advances to slot 128 and checkpoints; the second only sleeps, no slot
    has been processed since the checkpoint of the first, and it dumps the
    state and publishes the root again. *)
Theorem mainLoop_checkpoints_again_while_waiting :
  (slotOracleLoop exampleConfig [finalized 3; finalized 3] 96
   = [ [Sleep15; DumpedOracleState 96; UpdatedContractMerkleRoot tt];
       [Sleep15; DumpedOracleState 96; UpdatedContractMerkleRoot tt] ] /\
   checkpointed [Sleep15; DumpedOracleState 96; UpdatedContractMerkleRoot tt] = true /\
   slotProcessedSincePreviousCheckpoint []
     [Sleep15; DumpedOracleState 96; UpdatedContractMerkleRoot tt] = false) /\
  (slotOracleLoop exampleConfig [finalized 4; finalized 4] 96
   = [ [Advanced; DumpedOracleState 128; UpdatedContractMerkleRoot tt];
       [Sleep15; DumpedOracleState 128; UpdatedContractMerkleRoot tt] ] /\
   checkpointReached (fun slot => slot) exampleConfig 128 = Some true /\
   checkpointed [Sleep15; DumpedOracleState 128; UpdatedContractMerkleRoot tt] = true /\
   slotProcessedSincePreviousCheckpoint
     [ [Advanced; DumpedOracleState 128; UpdatedContractMerkleRoot tt] ]
     [Sleep15; DumpedOracleState 128; UpdatedContractMerkleRoot tt] = false).
Proof. vm_compute. repeat split; reflexivity. Qed.

(** ** The order of strings *)








(** ** Leaf aggregation *)

Section Aggregation.
Import Merklelizer.

Lemma balanceAt_cons (a : string) (l : RawLeaf) (ls : list RawLeaf) :
  balanceAt a (l :: ls) =
  (if String.eqb (DepositAddress l) a then AccumulatedBalance l else 0)
  + balanceAt a ls.
Proof.
  unfold balanceAt. simpl. destruct (String.eqb (DepositAddress l) a); reflexivity.
Qed.

Lemma balanceAt_app (a : string) (l1 l2 : list RawLeaf) :
  balanceAt a (l1 ++ l2) = balanceAt a l1 + balanceAt a l2.
Proof.
  induction l1 as [|l l1 IH]; simpl; [reflexivity|].
  rewrite !balanceAt_cons, IH. lia.
Qed.
















End Aggregation.


(** The tests of the merklelizer, replayed on the embedding. *)
Example test_Aggregation_And_Leftover :
  Merklelizer.AggregateValidatorsIndexes
    (leafState "0x0000000000000000000000000000000000000000" 1
       [ (0, leafValidator "0xaa00000000000000000000000000000000000000" 30000);
         (1, leafValidator "0xaa00000000000000000000000000000000000000" 60000);
         (2, leafValidator "0xaa00000000000000000000000000000000000000" 10000);
         (3, leafValidator "0xaa00000000000000000000000000000000000000" 40000);
         (4, leafValidator "0xaa00000000000000000000000000000000000000" 50000);
         (5, leafValidator "0xbb00000000000000000000000000000000000000" 500000) ])
  = [ Merklelizer.mkRawLeaf "0x0000000000000000000000000000000000000000" 1;
      Merklelizer.mkRawLeaf "0xaa00000000000000000000000000000000000000" 190000;
      Merklelizer.mkRawLeaf "0xbb00000000000000000000000000000000000000" 500000 ].
Proof. vm_compute. reflexivity. Qed.

Example test_OrderByDepositAddress :
  Merklelizer.OrderByDepositAddress
    [ Merklelizer.mkRawLeaf "0x3000000000000000000000000000000000000000" 1;
      Merklelizer.mkRawLeaf "0x5000000000000000000000000000000000000000" 3;
      Merklelizer.mkRawLeaf "0x1000000000000000000000000000000000000000" 5;
      Merklelizer.mkRawLeaf "0xa000000000000000000000000000000000000000" 5;
      Merklelizer.mkRawLeaf "0x9900000000000000000000000000000000000000" 5 ]
  = [ Merklelizer.mkRawLeaf "0x1000000000000000000000000000000000000000" 5;
      Merklelizer.mkRawLeaf "0x3000000000000000000000000000000000000000" 1;
      Merklelizer.mkRawLeaf "0x5000000000000000000000000000000000000000" 3;
      Merklelizer.mkRawLeaf "0x9900000000000000000000000000000000000000" 5;
      Merklelizer.mkRawLeaf "0xa000000000000000000000000000000000000000" 5 ].
Proof. vm_compute. reflexivity. Qed.



(** * Further properties of the code *)

(** ** More on the overlay *)

Section OverlayExtras.
Variable unicodeLower : string -> string.
Variable AddressString : Address -> string.
Variable CanValidatorSubscribeToPool : BeaconValidator.t -> bool.
Variable CollateralInWei : Z.

Local Abbreviation applySub :=
  (applySubscription unicodeLower AddressString CanValidatorSubscribeToPool
     CollateralInWei).
Local Abbreviation applyUnsub := (applyUnsubscription unicodeLower AddressString).
Local Abbreviation apply :=
  (applyEvent unicodeLower AddressString CanValidatorSubscribeToPool CollateralInWei).
Local Abbreviation overlay :=
  (ApplyNonFinalizedState unicodeLower AddressString CanValidatorSubscribeToPool
     CollateralInWei).
Local Abbreviation run :=
  (replay unicodeLower AddressString CanValidatorSubscribeToPool CollateralInWei).
Local Abbreviation subApplies :=
  (subscriptionApplies unicodeLower AddressString CanValidatorSubscribeToPool
     CollateralInWei).
Local Abbreviation unsubApplies := (unsubscriptionApplies unicodeLower AddressString).

Lemma unsubscriptionApplies_true (unsub : Unsubscription.t) (val : ValidatorInfo) :
  unsubApplies unsub val = true <->
  GoStrings.ToLower unicodeLower (WithdrawalAddress val)
    = GoStrings.ToLower unicodeLower
        (AddressString (Unsubscription.Sender (Unsubscription.Event unsub))) /\
  (ValidatorStatus val = Active \/ ValidatorStatus val = YellowCard
   \/ ValidatorStatus val = RedCard).
Proof.
  unfold unsubscriptionApplies.
  rewrite !andb_true_iff, !orb_true_iff, String.eqb_eq, !ValStatus_eqb_eq. tauto.
Qed.

Lemma ApplyNonFinalizedState_single_unsub (unsub : Unsubscription.t)
  (validators : gmap Z ValidatorInfo) :
  overlay [] [unsub] validators = applyUnsub unsub validators.
Proof.
  unfold ApplyNonFinalizedState, collectBlocks. simpl.
  unfold applyBlock, GetSubInBlock, GetUnsubInBlock. simpl.
  rewrite Z.eqb_refl. simpl.
  destruct (applyUnsub unsub validators); reflexivity.
Qed.

(** An unsubscription whose validator has the entry [val] in the map ends
    the process when the withdrawal address of [val] is not as long as the
    sender's string.  Otherwise it returns, and it changes the map if and
    only if the sender's string equals the withdrawal address after
    lowercasing and the status of [val] is Active, YellowCard or RedCard;
    then the entry becomes NotSubscribed with no pending rewards, its other
    fields and all other entries being kept.  The collateral and the
    beacon-chain validator are not looked at.  The overlay of this one
    event does the same. *)
Theorem applyUnsubscription_spec (unsub : Unsubscription.t)
  (validators : gmap Z ValidatorInfo) (val : ValidatorInfo) :
  let valIndex := Unsubscription.ValidatorID (Unsubscription.Event unsub) in
  let sender := AddressString (Unsubscription.Sender (Unsubscription.Event unsub)) in
  let applies :=
    GoStrings.ToLower unicodeLower (WithdrawalAddress val)
      = GoStrings.ToLower unicodeLower sender /\
    (ValidatorStatus val = Active \/ ValidatorStatus val = YellowCard
     \/ ValidatorStatus val = RedCard) in
  validators !! valIndex = Some val ->
  ApplyNonFinalizedState unicodeLower AddressString CanValidatorSubscribeToPool
    CollateralInWei [] [unsub] validators
  = applyUnsubscription unicodeLower AddressString unsub validators /\
  (String.length (WithdrawalAddress val) <> String.length sender ->
     applyUnsubscription unicodeLower AddressString unsub validators = Fatal) /\
  (String.length (WithdrawalAddress val) = String.length sender ->
     exists validators',
       applyUnsubscription unicodeLower AddressString unsub validators
       = Returns validators' /\
       (validators' <> validators <-> applies) /\
       (applies ->
          exists val',
            validators' !! valIndex = Some val' /\
            ValidatorStatus val' = NotSubscribed /\
            PendingRewardsWei val' = 0 /\
            sameButStatusAndPending val val' /\
            forall k, k <> valIndex -> validators' !! k = validators !! k) /\
       (~ applies -> validators' = validators)).
Proof.
  intros valIndex sender applies Hval.
  split; [apply ApplyNonFinalizedState_single_unsub|].
  rewrite applyUnsubscription_unfold. fold valIndex. rewrite Hval. fold sender.
  pose proof (unsubscriptionApplies_true unsub val) as Happ.
  fold sender in Happ. fold applies in Happ.
  destruct (Nat.eqb_spec (String.length (WithdrawalAddress val))
              (String.length sender)) as [Hlen|Hlen].
  - split; [intros Hne; contradiction|]. intros _.
    destruct (unsubApplies unsub val) eqn:Hb.
    + assert (Ha : applies) by (apply Happ; reflexivity).
      eexists. split; [reflexivity|]. split; [|split].
      * split; [intros _; exact Ha|]. intros _ Heq.
        apply (f_equal (fun m => ValidatorStatus <$> m !! valIndex)) in Heq.
        rewrite lookup_insert_eq, Hval in Heq. simpl in Heq.
        destruct Ha as (_ & [Hs|[Hs|Hs]]); rewrite Hs in Heq; discriminate.
      * intros _. eexists. split; [apply lookup_insert_eq|].
        split; [reflexivity|]. split; [reflexivity|].
        split; [apply sameButStatusAndPending_set|].
        intros k Hk. apply lookup_insert_ne. congruence.
      * intros Hna. contradiction.
    + assert (Hna : ~ applies).
      { intros Ha. apply Happ in Ha. congruence. }
      eexists. split; [reflexivity|]. split; [|split].
      * split; [intros Hne; contradiction | intros Ha; contradiction].
      * intros Ha. contradiction.
      * intros _. reflexivity.
  - split; [intros _; reflexivity | intros Heq; contradiction].
Qed.

(** An event returns the map it was given or changes the entry of its
    validator by one of the two assignments. *)
Lemma applyEvent_entryStep (e : OverlayEvent) (m m' : gmap Z ValidatorInfo) :
  apply e m = Returns m' ->
  m' = m \/
  exists v v', m !! eventValidatorID e = Some v /\
               entryStep CollateralInWei v v' /\
               m' = <[eventValidatorID e := v']> m.
Proof.
  destruct e as [sub|unsub]; simpl.
  - rewrite applySubscription_unfold.
    destruct (m !! _) as [v|] eqn:Hv; [|intros H; inversion H; auto].
    destruct (Nat.eqb _ _); [|discriminate].
    destruct (subApplies sub v) eqn:Happ; intros H; inversion H; subst; [|auto].
    right. apply subscriptionApplies_true in Happ.
    destruct Happ as (_ & Hc & _ & Hs).
    exists v. eexists. split; [reflexivity|]. split; [|reflexivity].
    left. eexists. split; [exact Hc|]. split; [exact Hs | reflexivity].
  - rewrite applyUnsubscription_unfold.
    destruct (m !! _) as [v|] eqn:Hv; [|intros H; inversion H; auto].
    destruct (Nat.eqb _ _); [|discriminate].
    destruct (unsubApplies unsub v) eqn:Happ; intros H; inversion H; subst; [|auto].
    right. apply unsubscriptionApplies_true in Happ. destruct Happ as (_ & Hs).
    exists v. eexists. split; [reflexivity|]. split; [|reflexivity].
    right. split; [exact Hs | reflexivity].
Qed.

(** Along a replay every entry of the map stays in the map and goes
    through a chain of such assignments. *)
Lemma replay_entryPath (events : list OverlayEvent) (m m' : gmap Z ValidatorInfo) :
  run events m = Returns m' ->
  forall k v, m !! k = Some v ->
    exists v', m' !! k = Some v' /\ rtc (entryStep CollateralInWei) v v'.
Proof.
  unfold replay. revert m. induction events as [|e events IH]; intros m H k v Hk.
  - simpl in H. inversion H; subst. exists v. split; [exact Hk | apply rtc_refl].
  - simpl in H. apply bind_Returns_inv in H. destruct H as (m1 & He & Hrest).
    apply applyEvent_entryStep in He.
    destruct He as [->|(v0 & v1 & Hv0 & Hstep & ->)]; [eapply IH; eassumption|].
    destruct (decide (eventValidatorID e = k)) as [Heq|Hne].
    + subst k. rewrite Hv0 in Hk. inversion Hk; subst v0.
      destruct (IH _ Hrest (eventValidatorID e) v1) as (v' & Hv' & Hpath);
        [apply lookup_insert_eq|].
      exists v'. split; [exact Hv' | eapply rtc_l; eassumption].
    + eapply IH; [exact Hrest|]. rewrite lookup_insert_ne by exact Hne. exact Hk.
Qed.

Lemma entryPath_status (v v' : ValidatorInfo) :
  rtc (entryStep CollateralInWei) v v' ->
  v' = v \/
  (ValidatorStatus v <> Banned /\
   (ValidatorStatus v' = Active \/ ValidatorStatus v' = NotSubscribed)).
Proof.
  induction 1 as [v|v v1 v' Hstep _ IH]; [left; reflexivity|].
  right.
  assert (H1 : ValidatorStatus v <> Banned /\
               (ValidatorStatus v1 = Active \/ ValidatorStatus v1 = NotSubscribed)).
  { destruct Hstep as [(c & _ & Hs & ->)|(Hs & ->)]; simpl.
    - split; [destruct Hs as [Hs|Hs]; rewrite Hs; discriminate | auto].
    - split; [destruct Hs as [Hs|[Hs|Hs]]; rewrite Hs; discriminate | auto]. }
  destruct H1 as [Hnb H1]. split; [exact Hnb|].
  destruct IH as [->|[_ IH]]; assumption.
Qed.

Lemma entryPath_pending (v v' : ValidatorInfo) :
  0 <= CollateralInWei ->
  rtc (entryStep CollateralInWei) v v' ->
  0 <= PendingRewardsWei v -> 0 <= PendingRewardsWei v'.
Proof.
  intros Hcfg. induction 1 as [v|v v1 v' Hstep _ IH]; [auto|].
  intros Hv. apply IH.
  destruct Hstep as [(c & Hc & _ & ->)|(_ & ->)]; simpl; lia.
Qed.

(** The statuses the overlay can leave: an entry is returned as it was
    given, or it was not Banned and is now Active or NotSubscribed.  So a
    Banned entry is never changed, and an entry that ends Untracked,
    YellowCard, RedCard or Banned was not touched. *)
Theorem ApplyNonFinalizedState_statuses (subs : list Subscription.t)
  (unsubs : list Unsubscription.t) (validators : gmap Z ValidatorInfo) :
  match ApplyNonFinalizedState unicodeLower AddressString
          CanValidatorSubscribeToPool CollateralInWei subs unsubs validators with
  | Returns validators' =>
      forall k v, validators !! k = Some v ->
        exists v', validators' !! k = Some v' /\
          (v' = v \/
           (ValidatorStatus v <> Banned /\
            (ValidatorStatus v' = Active \/ ValidatorStatus v' = NotSubscribed)))
  | Fatal => True
  end.
Proof.
  rewrite ApplyNonFinalizedState_replay.
  destruct (run (eventsInLoopOrder subs unsubs) validators) as [validators'|] eqn:H;
    [|exact I].
  intros k v Hk. destruct (replay_entryPath _ _ _ H k v Hk) as (v' & Hv' & Hpath).
  exists v'. split; [exact Hv' | apply entryPath_status, Hpath].
Qed.

(** With a configured collateral that is not negative, the overlay keeps
    the pending rewards of every entry from becoming negative. *)
Theorem ApplyNonFinalizedState_pending_nonneg (subs : list Subscription.t)
  (unsubs : list Unsubscription.t) (validators validators' : gmap Z ValidatorInfo) :
  0 <= CollateralInWei ->
  (forall k v, validators !! k = Some v -> 0 <= PendingRewardsWei v) ->
  ApplyNonFinalizedState unicodeLower AddressString CanValidatorSubscribeToPool
    CollateralInWei subs unsubs validators = Returns validators' ->
  forall k v', validators' !! k = Some v' -> 0 <= PendingRewardsWei v'.
Proof.
  intros Hcfg Hpos H k v' Hv'. rewrite ApplyNonFinalizedState_replay in H.
  pose proof (replay_cases unicodeLower AddressString CanValidatorSubscribeToPool
    CollateralInWei (eventsInLoopOrder subs unsubs) validators) as Hcases.
  rewrite H in Hcases. destruct Hcases as [_ Hov]. specialize (Hov k).
  rewrite Hv' in Hov. destruct (validators !! k) as [v|] eqn:Hk; [|contradiction].
  destruct (replay_entryPath _ _ _ H k v Hk) as (v'' & Hv'' & Hpath).
  rewrite Hv' in Hv''. inversion Hv''; subst v''.
  eapply entryPath_pending; [exact Hcfg | exact Hpath | eapply Hpos; exact Hk].
Qed.

End OverlayExtras.

(** ** How the order of the events enters the overlay *)

Lemma filter_rank_allEvents (subs : list Subscription.t)
  (unsubs : list Unsubscription.t) (v : Z) :
  List.filter (fun e => eventRank e =? v) (allEvents subs unsubs) =
  List.filter (fun e => eventRank e =? v) (eventsOfBlock subs unsubs (v / 2)).
Proof.
  unfold eventsOfBlock, allEvents, GetSubInBlock, GetUnsubInBlock.
  rewrite !List.filter_app. symmetry.
  f_equal; apply filter_map_filter; intros x Hx; apply Z.eqb_eq in Hx;
    apply Z.eqb_eq; rewrite <- Hx; apply (eventRank_block (SubscribeEvent x))
    || apply (eventRank_block (UnsubscribeEvent x)).
Qed.

Lemma filter_rank_subscriptions (subs : list Subscription.t) (v : Z) :
  v mod 2 <> 0 ->
  List.filter (fun e => eventRank e =? v) (map SubscribeEvent subs) = [].
Proof.
  intros Hv. apply filter_none. intros e He.
  apply in_map_iff in He. destruct He as (x & <- & _).
  apply Z.eqb_neq. unfold eventRank. simpl. intros Heq. apply Hv.
  rewrite <- Heq. Z.div_mod_to_equations. lia.
Qed.

Lemma filter_rank_unsubscriptions (unsubs : list Unsubscription.t) (v : Z) :
  v mod 2 = 0 ->
  List.filter (fun e => eventRank e =? v) (map UnsubscribeEvent unsubs) = [].
Proof.
  intros Hv. apply filter_none. intros e He.
  apply in_map_iff in He. destruct He as (x & <- & _).
  apply Z.eqb_neq. unfold eventRank. simpl. intros Heq.
  rewrite <- Heq in Hv. Z.div_mod_to_equations. lia.
Qed.

(** The sorted events depend on the two lists only through the events of
    each block, in their order. *)
Lemma sortedEvents_by_block (subs subs' : list Subscription.t)
  (unsubs unsubs' : list Unsubscription.t) :
  (forall b, GetSubInBlock subs b = GetSubInBlock subs' b) ->
  (forall b, GetUnsubInBlock unsubs b = GetUnsubInBlock unsubs' b) ->
  sortBy blockThenKindLeb (allEvents subs unsubs)
  = sortBy blockThenKindLeb (allEvents subs' unsubs').
Proof.
  intros Hs Hu.
  rewrite !(sortBy_ext blockThenKindLeb (fun x y => eventRank x <=? eventRank y))
    by apply blockThenKindLeb_rank.
  apply sortBy_unique; [apply sortBy_sorted|].
  intros v. rewrite filter_sortBy, !filter_rank_allEvents.
  unfold eventsOfBlock. rewrite Hs, Hu. reflexivity.
Qed.

(** Events of earlier blocks followed by events of later blocks sort to
    the two sorted batches one after the other. *)
Lemma sortedEvents_app (subs1 subs2 : list Subscription.t)
  (unsubs1 unsubs2 : list Unsubscription.t) :
  (forall e1 e2, In e1 (allEvents subs1 unsubs1) -> In e2 (allEvents subs2 unsubs2) ->
     eventBlock e1 < eventBlock e2) ->
  sortBy blockThenKindLeb (allEvents (subs1 ++ subs2) (unsubs1 ++ unsubs2))
  = sortBy blockThenKindLeb (allEvents subs1 unsubs1)
    ++ sortBy blockThenKindLeb (allEvents subs2 unsubs2).
Proof.
  intros Hlt. symmetry.
  rewrite !(sortBy_ext blockThenKindLeb (fun x y => eventRank x <=? eventRank y))
    by apply blockThenKindLeb_rank.
  apply sortBy_unique.
  - apply StronglySorted_app_intro; try apply sortBy_sorted.
    intros x y Hx Hy. apply sortBy_In in Hx, Hy. specialize (Hlt x y Hx Hy).
    unfold eventRank. pose proof (eventKind_range x). pose proof (eventKind_range y).
    lia.
  - intros v. rewrite List.filter_app, !filter_sortBy. unfold allEvents.
    rewrite !map_app, !List.filter_app.
    destruct (Z.eq_dec (v mod 2) 0) as [Hv|Hv].
    + rewrite !(filter_rank_unsubscriptions _ v Hv), !app_nil_r. reflexivity.
    + rewrite !(filter_rank_subscriptions _ v Hv). reflexivity.
Qed.

Lemma filter_filter_comm {A : Type} (P Q : A -> bool) (l : list A) :
  List.filter P (List.filter Q l) = List.filter Q (List.filter P l).
Proof.
  induction l as [|a l IH]; simpl; [reflexivity|].
  destruct (P a) eqn:HP, (Q a) eqn:HQ; simpl; rewrite ?HP, ?HQ, IH; reflexivity.
Qed.

Lemma StronglySorted_filter_keeps {A : Type} (R : A -> A -> Prop) (P : A -> bool)
  (l : list A) :
  StronglySorted R l -> StronglySorted R (List.filter P l).
Proof.
  induction l as [|a l IH]; intros Hs; simpl; [constructor|].
  apply StronglySorted_inv in Hs. destruct Hs as [Hs Ha].
  destruct (P a); [|apply IH, Hs].
  constructor; [apply IH, Hs|].
  rewrite List.Forall_forall in Ha |- *. intros x Hx.
  apply filter_In in Hx. apply Ha, Hx.
Qed.

(** Selecting events commutes with the stable sort. *)
Lemma filter_sortedEvents (P : OverlayEvent -> bool) (events : list OverlayEvent) :
  List.filter P (sortBy blockThenKindLeb events)
  = sortBy blockThenKindLeb (List.filter P events).
Proof.
  rewrite !(sortBy_ext blockThenKindLeb (fun x y => eventRank x <=? eventRank y))
    by apply blockThenKindLeb_rank.
  apply sortBy_unique.
  - apply StronglySorted_filter_keeps, sortBy_sorted.
  - intros v. rewrite filter_filter_comm, filter_sortBy. apply filter_filter_comm.
Qed.

Lemma filter_allEvents (k : Z) (subs : list Subscription.t)
  (unsubs : list Unsubscription.t) :
  List.filter (fun e => eventValidatorID e =? k) (allEvents subs unsubs)
  = allEvents
      (List.filter
         (fun sub => Subscription.ValidatorID (Subscription.Event sub) =? k) subs)
      (List.filter
         (fun unsub => Unsubscription.ValidatorID (Unsubscription.Event unsub) =? k)
         unsubs).
Proof.
  unfold allEvents. rewrite List.filter_app. f_equal.
  - induction subs as [|s subs IH]; simpl; [reflexivity|].
    destruct (_ =? k); simpl; rewrite IH; reflexivity.
  - induction unsubs as [|u unsubs IH]; simpl; [reflexivity|].
    destruct (_ =? k); simpl; rewrite IH; reflexivity.
Qed.

Section OverlayOrder.
Variable unicodeLower : string -> string.
Variable AddressString : Address -> string.
Variable CanValidatorSubscribeToPool : BeaconValidator.t -> bool.
Variable CollateralInWei : Z.

Local Abbreviation apply :=
  (applyEvent unicodeLower AddressString CanValidatorSubscribeToPool CollateralInWei).
Local Abbreviation overlay :=
  (ApplyNonFinalizedState unicodeLower AddressString CanValidatorSubscribeToPool
     CollateralInWei).
Local Abbreviation run :=
  (replay unicodeLower AddressString CanValidatorSubscribeToPool CollateralInWei).

Lemma ApplyNonFinalizedState_sorted (subs : list Subscription.t)
  (unsubs : list Unsubscription.t) (validators : gmap Z ValidatorInfo) :
  overlay subs unsubs validators
  = run (sortBy blockThenKindLeb (allEvents subs unsubs)) validators.
Proof.
  rewrite ApplyNonFinalizedState_replay, eventsInLoopOrder_sorted. reflexivity.
Qed.

(** The order of the two lists matters only inside a block: two pairs of
    lists that give the same subscriptions and the same unsubscriptions
    for every block, in the same order, give the same overlay.  The tests
    pass the subscriptions of blocks 5000, 1000 and 3000 in that order. *)
Theorem ApplyNonFinalizedState_order_across_blocks
  (subs subs' : list Subscription.t) (unsubs unsubs' : list Unsubscription.t)
  (validators : gmap Z ValidatorInfo) :
  (forall b, GetSubInBlock subs b = GetSubInBlock subs' b) ->
  (forall b, GetUnsubInBlock unsubs b = GetUnsubInBlock unsubs' b) ->
  ApplyNonFinalizedState unicodeLower AddressString CanValidatorSubscribeToPool
    CollateralInWei subs unsubs validators
  = ApplyNonFinalizedState unicodeLower AddressString CanValidatorSubscribeToPool
      CollateralInWei subs' unsubs' validators.
Proof.
  intros Hs Hu. rewrite !ApplyNonFinalizedState_sorted.
  rewrite (sortedEvents_by_block subs subs' unsubs unsubs' Hs Hu). reflexivity.
Qed.

(** The overlay of a range of blocks followed by a later range is the
    overlay of the first range and then the overlay of the second on its
    result: when every event of [subs1], [unsubs1] is in an earlier block
    than every event of [subs2], [unsubs2]. *)
Theorem ApplyNonFinalizedState_later_blocks
  (subs1 subs2 : list Subscription.t) (unsubs1 unsubs2 : list Unsubscription.t)
  (validators : gmap Z ValidatorInfo) :
  (forall e1 e2, In e1 (allEvents subs1 unsubs1) -> In e2 (allEvents subs2 unsubs2) ->
     eventBlock e1 < eventBlock e2) ->
  ApplyNonFinalizedState unicodeLower AddressString CanValidatorSubscribeToPool
    CollateralInWei (subs1 ++ subs2) (unsubs1 ++ unsubs2) validators
  = (let! validators1 :=
       ApplyNonFinalizedState unicodeLower AddressString
         CanValidatorSubscribeToPool CollateralInWei subs1 unsubs1 validators in
     ApplyNonFinalizedState unicodeLower AddressString CanValidatorSubscribeToPool
       CollateralInWei subs2 unsubs2 validators1).
Proof.
  intros Hlt. rewrite ApplyNonFinalizedState_sorted, (sortedEvents_app _ _ _ _ Hlt).
  unfold replay. rewrite forEach_app.
  rewrite ApplyNonFinalizedState_sorted. unfold replay.
  destruct (forEach apply (sortBy blockThenKindLeb (allEvents subs1 unsubs1))
              validators) as [m1|]; simpl; [|reflexivity].
  rewrite ApplyNonFinalizedState_sorted. reflexivity.
Qed.

(** What an event does to the entry of its validator depends on that
    entry only. *)
Lemma applyEvent_local (e : OverlayEvent) (m1 m2 m1' : gmap Z ValidatorInfo) :
  m1 !! eventValidatorID e = m2 !! eventValidatorID e ->
  apply e m1 = Returns m1' ->
  exists m2', apply e m2 = Returns m2' /\
              m2' !! eventValidatorID e = m1' !! eventValidatorID e.
Proof.
  intros Hsame. destruct e as [sub|unsub]; simpl in *.
  - rewrite !applySubscription_unfold, <- Hsame.
    destruct (m1 !! _) as [v|] eqn:Hv.
    + destruct (Nat.eqb _ _); [|discriminate].
      intros H. inversion H; subst. eexists. split; [reflexivity|].
      destruct (subscriptionApplies _ _ _ _ sub v);
        rewrite ?lookup_insert_eq; congruence.
    + intros H. inversion H; subst. eexists. split; [reflexivity|]. congruence.
  - rewrite !applyUnsubscription_unfold, <- Hsame.
    destruct (m1 !! _) as [v|] eqn:Hv.
    + destruct (Nat.eqb _ _); [|discriminate].
      intros H. inversion H; subst. eexists. split; [reflexivity|].
      destruct (unsubscriptionApplies _ _ unsub v);
        rewrite ?lookup_insert_eq; congruence.
    + intros H. inversion H; subst. eexists. split; [reflexivity|]. congruence.
Qed.

Lemma replay_of_validator (k : Z) (events : list OverlayEvent)
  (m1 m2 m1' : gmap Z ValidatorInfo) :
  m1 !! k = m2 !! k ->
  run events m1 = Returns m1' ->
  exists m2',
    run (List.filter (fun e => eventValidatorID e =? k) events) m2 = Returns m2' /\
    m2' !! k = m1' !! k.
Proof.
  unfold replay. revert m1 m2.
  induction events as [|e events IH]; intros m1 m2 Hsame H; simpl in *.
  - inversion H; subst. exists m2. split; [reflexivity | congruence].
  - apply bind_Returns_inv in H. destruct H as (m1a & He & Hrest).
    destruct (Z.eqb_spec (eventValidatorID e) k) as [Hk|Hk].
    + subst k. destruct (applyEvent_local e m1 m2 m1a Hsame He) as (m2a & He2 & Hsame2).
      destruct (IH m1a m2a (eq_sym Hsame2) Hrest) as (m2' & Hrun & Hres).
      exists m2'. split; [|exact Hres]. simpl. rewrite He2. exact Hrun.
    + apply (IH m1a m2); [|exact Hrest].
      apply applyEvent_entryStep in He.
      destruct He as [->|(v & v' & _ & _ & ->)]; [exact Hsame|].
      rewrite lookup_insert_ne by exact Hk. exact Hsame.
Qed.

(** The entry of a validator after the overlay depends only on the events
    of that validator: when the overlay of all events returns, the overlay
    of the events of validator [k] alone returns too and gives the same
    entry for [k]. *)
Theorem ApplyNonFinalizedState_per_validator (k : Z)
  (subs : list Subscription.t) (unsubs : list Unsubscription.t)
  (validators validators' : gmap Z ValidatorInfo) :
  ApplyNonFinalizedState unicodeLower AddressString CanValidatorSubscribeToPool
    CollateralInWei subs unsubs validators = Returns validators' ->
  exists validators'',
    ApplyNonFinalizedState unicodeLower AddressString CanValidatorSubscribeToPool
      CollateralInWei
      (List.filter
         (fun sub => Subscription.ValidatorID (Subscription.Event sub) =? k) subs)
      (List.filter
         (fun unsub => Unsubscription.ValidatorID (Unsubscription.Event unsub) =? k)
         unsubs)
      validators = Returns validators'' /\
    validators'' !! k = validators' !! k.
Proof.
  rewrite !ApplyNonFinalizedState_sorted, <- filter_allEvents, <- filter_sortedEvents.
  apply replay_of_validator. reflexivity.
Qed.

End OverlayOrder.

(** Witnesses, on the validators and events of the tests. *)
Lemma applyUnsubscription_spec_witness :
  exists validators',
    applyUnsubscription (fun s => s) hexAddress
      (testUnsubscription 500 testSender 1 0)
      {[ 500 := testValidator 500 Active 900000 ]} = Returns validators' /\
    validators' <> {[ 500 := testValidator 500 Active 900000 ]}.
Proof.
  assert (Hval : ({[ 500 := testValidator 500 Active 900000 ]} : gmap Z ValidatorInfo)
                   !! 500 = Some (testValidator 500 Active 900000)) by reflexivity.
  destruct (applyUnsubscription_spec (fun s => s) hexAddress
              canSubscribeUnlessSlashedOrExited 1000
              (testUnsubscription 500 testSender 1 0)
              {[ 500 := testValidator 500 Active 900000 ]}
              (testValidator 500 Active 900000) Hval) as (_ & _ & H).
  assert (Hlen : String.length (WithdrawalAddress (testValidator 500 Active 900000))
                 = String.length (hexAddress testSender)) by reflexivity.
  destruct (H Hlen) as (validators' & Hret & Hiff & _).
  exists validators'. split; [exact Hret|]. apply Hiff.
  split; [reflexivity | left; reflexivity].
Defined.

Lemma ApplyNonFinalizedState_pending_nonneg_witness :
  exists validators',
    testOverlay [testSubscription 1 1000 testSender ValidatorStateActiveOngoing 1 0] []
      {[ 1 := testValidator 1 Untracked 5 ]} = Returns validators' /\
    forall k v', validators' !! k = Some v' -> 0 <= PendingRewardsWei v'.
Proof.
  destruct (testOverlay
              [testSubscription 1 1000 testSender ValidatorStateActiveOngoing 1 0] []
              {[ 1 := testValidator 1 Untracked 5 ]}) as [validators'|] eqn:H.
  - exists validators'. split; [reflexivity|].
    apply (ApplyNonFinalizedState_pending_nonneg (fun s => s) hexAddress
             canSubscribeUnlessSlashedOrExited 1000
             [testSubscription 1 1000 testSender ValidatorStateActiveOngoing 1 0] []
             {[ 1 := testValidator 1 Untracked 5 ]} validators').
    + lia.
    + intros k v Hk. apply lookup_singleton_Some in Hk. destruct Hk as [_ <-].
      simpl. lia.
    + exact H.
  - exfalso. vm_compute in H. discriminate.
Defined.

Lemma ApplyNonFinalizedState_order_across_blocks_witness :
  testOverlay
    [ testSubscription 3 1000 testSender ValidatorStateActiveOngoing 5000 0;
      testSubscription 1 1000 testSender ValidatorStateActiveOngoing 1000 0 ] []
    {[ 1 := testValidator 1 NotSubscribed 0 ]}
  = testOverlay
      [ testSubscription 1 1000 testSender ValidatorStateActiveOngoing 1000 0;
        testSubscription 3 1000 testSender ValidatorStateActiveOngoing 5000 0 ] []
      {[ 1 := testValidator 1 NotSubscribed 0 ]}.
Proof.
  unfold testOverlay. apply ApplyNonFinalizedState_order_across_blocks.
  - intros b. unfold GetSubInBlock, Subscription.block.
    cbn [List.filter testSubscription Subscription.Event Subscription.Raw
         Log.BlockNumber].
    destruct (Z.eqb_spec 5000 b), (Z.eqb_spec 1000 b); try reflexivity. lia.
  - intros b. reflexivity.
Defined.

Lemma ApplyNonFinalizedState_later_blocks_witness :
  testOverlay
    ([testSubscription 1 1000 testSender ValidatorStateActiveOngoing 10 0] ++ [])
    ([] ++ [testUnsubscription 1 testSender 11 0])
    {[ 1 := testValidator 1 NotSubscribed 0 ]}
  = (let! validators1 :=
       testOverlay [testSubscription 1 1000 testSender ValidatorStateActiveOngoing 10 0]
         [] {[ 1 := testValidator 1 NotSubscribed 0 ]} in
     testOverlay [] [testUnsubscription 1 testSender 11 0] validators1).
Proof.
  unfold testOverlay. apply ApplyNonFinalizedState_later_blocks.
  intros e1 e2 H1 H2. simpl in H1, H2.
  destruct H1 as [<-|[]]. destruct H2 as [<-|[]].
  unfold eventBlock, Subscription.block, Unsubscription.block. simpl. lia.
Defined.

Lemma ApplyNonFinalizedState_per_validator_witness :
  exists validators'',
    testOverlay
      (List.filter
         (fun sub => Subscription.ValidatorID (Subscription.Event sub) =? 1)
         [ testSubscription 3 1000 testSender ValidatorStateActiveOngoing 5000 0;
           testSubscription 1 1000 testSender ValidatorStateActiveOngoing 1000 0 ])
      (List.filter
         (fun unsub => Unsubscription.ValidatorID (Unsubscription.Event unsub) =? 1)
         [testUnsubscription 3 testSender 6000 0])
      {[ 1 := testValidator 1 NotSubscribed 0 ]} = Returns validators''.
Proof.
  destruct (testOverlay
      [ testSubscription 3 1000 testSender ValidatorStateActiveOngoing 5000 0;
        testSubscription 1 1000 testSender ValidatorStateActiveOngoing 1000 0 ]
      [testUnsubscription 3 testSender 6000 0]
      {[ 1 := testValidator 1 NotSubscribed 0 ]}) as [validators'|] eqn:H.
  - destruct (ApplyNonFinalizedState_per_validator (fun s => s) hexAddress
                canSubscribeUnlessSlashedOrExited 1000 1 _ _ _ _ H)
      as (validators'' & Hret & _).
    exists validators''. exact Hret.
  - exfalso. vm_compute in H. discriminate.
Defined.

(** ** The checks of the request parameters *)

Lemma inRange_spec (lo hi c : ascii) :
  inRange lo hi c = true <->
  (N_of_ascii lo <= N_of_ascii c /\ N_of_ascii c <= N_of_ascii hi)%N.
Proof.
  unfold inRange. rewrite andb_true_iff, !N.leb_le. reflexivity.
Qed.

Lemma addressClass_spec (c : ascii) :
  addressClass c = true <->
  (48 <= N_of_ascii c <= 57 \/ 97 <= N_of_ascii c <= 102
   \/ 65 <= N_of_ascii c <= 70)%N.
Proof.
  unfold addressClass. rewrite !orb_true_iff, !inRange_spec.
  change (N_of_ascii "0") with 48%N. change (N_of_ascii "9") with 57%N.
  change (N_of_ascii "a") with 97%N. change (N_of_ascii "f") with 102%N.
  change (N_of_ascii "A") with 65%N. change (N_of_ascii "F") with 70%N.
  lia.
Qed.

Lemma pubkeyClass_spec (c : ascii) :
  pubkeyClass c = true <->
  (48 <= N_of_ascii c <= 57 \/ 65 <= N_of_ascii c <= 102)%N.
Proof.
  unfold pubkeyClass. rewrite !orb_true_iff, !inRange_spec.
  change (N_of_ascii "0") with 48%N. change (N_of_ascii "9") with 57%N.
  change (N_of_ascii "a") with 97%N. change (N_of_ascii "f") with 102%N.
  change (N_of_ascii "A") with 65%N.
  lia.
Qed.

Lemma matchRepeatToEnd_spec (class : ascii -> bool) (n : nat) (s : string) :
  matchRepeatToEnd class n s = true <->
  String.length s = n /\
  List.Forall (fun c => class c = true) (list_ascii_of_string s).
Proof.
  revert s. induction n as [|n IH]; intros [|c s]; simpl.
  - split; [intros _; split; [reflexivity | constructor] | reflexivity].
  - split; [discriminate | intros [H _]; discriminate].
  - split; [discriminate | intros [H _]; discriminate].
  - rewrite andb_true_iff, IH. split.
    + intros [Hc [Hl Hf]]. split; [now rewrite Hl | now constructor].
    + intros [Hl Hf]. inversion Hf; subst. repeat split; auto.
Qed.

Lemma match0x_spec (rest : string -> bool) (v : string) :
  match0x rest v = true <->
  exists body, v = String "0" (String "x" body) /\ rest body = true.
Proof.
  unfold match0x. destruct v as [|c [|d s]].
  - split; [discriminate | intros (b & H & _); discriminate].
  - split; [discriminate | intros (b & H & _); discriminate].
  - rewrite !andb_true_iff, !Ascii.eqb_eq. split.
    + intros [[-> ->] H]. now exists s.
    + intros (b & H & Hb). injection H as -> -> ->. auto.
Qed.

Lemma lowerByte_addressClass (c : ascii) :
  addressClass (GoStrings.lowerByte c) = addressClass c.
Proof. destruct c as [[] [] [] [] [] [] [] []]; reflexivity. Qed.

Lemma lowerByte_eqb_0 (c : ascii) :
  Ascii.eqb (GoStrings.lowerByte c) "0" = Ascii.eqb c "0".
Proof. destruct c as [[] [] [] [] [] [] [] []]; reflexivity. Qed.

Lemma lowerByte_eqb_x (c : ascii) :
  Ascii.eqb (GoStrings.lowerByte c) "x" = Ascii.eqb c "x" || Ascii.eqb c "X".
Proof. destruct c as [[] [] [] [] [] [] [] []]; reflexivity. Qed.

Lemma lowerByte_idem (c : ascii) :
  GoStrings.lowerByte (GoStrings.lowerByte c) = GoStrings.lowerByte c.
Proof. destruct c as [[] [] [] [] [] [] [] []]; reflexivity. Qed.

Lemma lowerByte_isASCIIByte (c : ascii) :
  GoStrings.isASCIIByte (GoStrings.lowerByte c) = GoStrings.isASCIIByte c.
Proof. destruct c as [[] [] [] [] [] [] [] []]; reflexivity. Qed.

Lemma asciiLower_idem (s : string) :
  GoStrings.asciiLower (GoStrings.asciiLower s) = GoStrings.asciiLower s.
Proof.
  induction s as [|c s IH]; simpl; [reflexivity|].
  now rewrite lowerByte_idem, IH.
Qed.

Lemma asciiLower_isASCII (s : string) :
  GoStrings.isASCII (GoStrings.asciiLower s) = GoStrings.isASCII s.
Proof.
  induction s as [|c s IH]; simpl; [reflexivity|].
  now rewrite lowerByte_isASCIIByte, IH.
Qed.

Lemma matchRepeatToEnd_asciiLower (n : nat) (s : string) :
  matchRepeatToEnd addressClass n (GoStrings.asciiLower s) =
  matchRepeatToEnd addressClass n s.
Proof.
  revert s. induction n as [|n IH]; intros [|c s]; simpl; try reflexivity.
  now rewrite lowerByte_addressClass, IH.
Qed.

Lemma addressClass_isASCIIByte (c : ascii) :
  addressClass c = true -> GoStrings.isASCIIByte c = true.
Proof.
  rewrite addressClass_spec. unfold GoStrings.isASCIIByte.
  rewrite N.ltb_lt. lia.
Qed.

Lemma Forall_isASCII (s : string) :
  List.Forall (fun c => GoStrings.isASCIIByte c = true) (list_ascii_of_string s) ->
  GoStrings.isASCII s = true.
Proof.
  induction s as [|c s IH]; simpl; [reflexivity|].
  intros H. inversion H; subst. rewrite andb_true_iff. auto.
Qed.

Lemma IsValidAddress_length (v : string) :
  IsValidAddress v = true ->
  String.length v = 42%nat /\ GoStrings.isASCII v = true.
Proof.
  unfold IsValidAddress. rewrite match0x_spec.
  intros (body & -> & H). apply matchRepeatToEnd_spec in H as [Hl Hf].
  split; [simpl; now rewrite Hl|].
  change (GoStrings.isASCII (String "0" (String "x" body)))
    with (GoStrings.isASCII body).
  apply Forall_isASCII. revert Hf. apply List.Forall_impl.
  intros c. apply addressClass_isASCIIByte.
Qed.

Lemma IsValidAddress_asciiLower (v : string) :
  IsValidAddress (GoStrings.asciiLower v) = true <->
  IsValidAddress v = true \/
  exists body, v = String "0" (String "X" body) /\
               IsValidAddress (String "0" (String "x" body)) = true.
Proof.
  unfold IsValidAddress, match0x.
  destruct v as [|c [|d s]]; cbn [GoStrings.asciiLower].
  - split; [discriminate | intros [H | (b & H & _)]; discriminate].
  - split; [discriminate | intros [H | (b & H & _)]; discriminate].
  - rewrite lowerByte_eqb_0, lowerByte_eqb_x, matchRepeatToEnd_asciiLower.
    rewrite !andb_true_iff, orb_true_iff, !Ascii.eqb_eq. split.
    + intros [[-> [-> | ->]] H]; [left; auto|].
      right. exists s. split; [reflexivity|]. exact H.
    + intros [[[-> ->] H] | (b & Hb & H)]; [auto|].
      injection Hb as Hc Hd Hs. subst c d b.
      change (matchRepeatToEnd addressClass 40 s = true) in H. auto.
Qed.

(** [IsValidAddress] accepts exactly the text ["0x"] followed by forty
    hexadecimal digits of either case.  An accepted text has 42 bytes, all
    ASCII, is still accepted after [strings.ToLower], and on two accepted
    texts [AreAddressEqual] returns (it never ends the process) the
    equality of their ASCII lowercasings. *)
Theorem IsValidAddress_spec (unicodeLower : string -> string) (v : string) :
  (IsValidAddress v = true <->
   exists body, v = String "0" (String "x" body) /\
     String.length body = 40%nat /\
     List.Forall (fun c => (48 <= N_of_ascii c <= 57 \/ 97 <= N_of_ascii c <= 102
                            \/ 65 <= N_of_ascii c <= 70)%N)
       (list_ascii_of_string body)) /\
  (IsValidAddress v = true ->
     String.length v = 42%nat /\
     GoStrings.ToLower unicodeLower v = GoStrings.asciiLower v /\
     IsValidAddress (GoStrings.ToLower unicodeLower v) = true) /\
  (forall w, IsValidAddress v = true -> IsValidAddress w = true ->
     AreAddressEqual unicodeLower v w =
     Returns (String.eqb (GoStrings.asciiLower v) (GoStrings.asciiLower w))).
Proof.
  split; [|split].
  - unfold IsValidAddress. rewrite match0x_spec. split.
    + intros (body & -> & H). exists body. split; [reflexivity|].
      apply matchRepeatToEnd_spec in H as [Hl Hf]. split; [exact Hl|].
      revert Hf. apply List.Forall_impl. intros c. apply addressClass_spec.
    + intros (body & -> & Hl & Hf). exists body. split; [reflexivity|].
      apply matchRepeatToEnd_spec. split; [exact Hl|].
      revert Hf. apply List.Forall_impl. intros c. apply addressClass_spec.
  - intros H. destruct (IsValidAddress_length v H) as [Hl Ha].
    rewrite (ToLower_ascii unicodeLower v Ha). repeat split; [exact Hl|].
    apply IsValidAddress_asciiLower. now left.
  - intros w Hv Hw.
    destruct (IsValidAddress_length v Hv) as [Hlv Hav].
    destruct (IsValidAddress_length w Hw) as [Hlw Haw].
    rewrite AreAddressEqual_unfold, Hlv, Hlw. simpl.
    now rewrite (ToLower_ascii _ v Hav), (ToLower_ascii _ w Haw).
Qed.

(** Lowercasing before the check, as [handleMemoryValidatorsByWithdrawal]
    does, accepts one more form than the check alone, which
    [handleOnchainMerkleProof] runs first: the prefix ["0X"]. *)
Theorem IsValidAddress_after_ToLower (unicodeLower : string -> string)
  (v : string) :
  GoStrings.isASCII v = true ->
  (IsValidAddress (GoStrings.ToLower unicodeLower v) = true <->
   IsValidAddress v = true \/
   exists body, v = String "0" (String "X" body) /\
                IsValidAddress (String "0" (String "x" body)) = true).
Proof.
  intros Ha. rewrite (ToLower_ascii unicodeLower v Ha).
  apply IsValidAddress_asciiLower.
Qed.

(** [IsValidPubkey] accepts exactly ["0x"] followed by 96 bytes each of
    which is a digit or lies between ['A'] and ['f'] in ASCII order: every
    hexadecimal digit is accepted, and so is every byte from ['G'] to the
    backquote, which is no hexadecimal digit. *)
Theorem IsValidPubkey_spec (v : string) :
  (IsValidPubkey v = true <->
   exists body, v = String "0" (String "x" body) /\
     String.length body = 96%nat /\
     List.Forall (fun c => (48 <= N_of_ascii c <= 57
                            \/ 65 <= N_of_ascii c <= 102)%N)
       (list_ascii_of_string body)) /\
  (forall c, addressClass c = true -> pubkeyClass c = true) /\
  (forall c, (71 <= N_of_ascii c <= 96)%N ->
     pubkeyClass c = true /\ addressClass c = false).
Proof.
  split; [|split].
  - unfold IsValidPubkey. rewrite match0x_spec. split.
    + intros (body & -> & H). exists body. split; [reflexivity|].
      apply matchRepeatToEnd_spec in H as [Hl Hf]. split; [exact Hl|].
      revert Hf. apply List.Forall_impl. intros c. apply pubkeyClass_spec.
    + intros (body & -> & Hl & Hf). exists body. split; [reflexivity|].
      apply matchRepeatToEnd_spec. split; [exact Hl|].
      revert Hf. apply List.Forall_impl. intros c. apply pubkeyClass_spec.
  - intros c. rewrite addressClass_spec, pubkeyClass_spec. lia.
  - intros c Hc. split; [apply pubkeyClass_spec; lia|].
    destruct (addressClass c) eqn:E; [|reflexivity].
    apply addressClass_spec in E. lia.
Qed.

(** Where it returns, [AreAddressEqual] is an equivalence: it returns true
    on equal arguments, gives the same outcome with its arguments swapped,
    is transitive, and an ASCII argument may be replaced by its
    lowercasing. *)
Theorem AreAddressEqual_equivalence (unicodeLower : string -> string) :
  (forall a, AreAddressEqual unicodeLower a a = Returns true) /\
  (forall a b, AreAddressEqual unicodeLower a b = AreAddressEqual unicodeLower b a) /\
  (forall a b c,
     AreAddressEqual unicodeLower a b = Returns true ->
     AreAddressEqual unicodeLower b c = Returns true ->
     AreAddressEqual unicodeLower a c = Returns true) /\
  (forall a b, GoStrings.isASCII a = true ->
     AreAddressEqual unicodeLower (GoStrings.asciiLower a) b =
     AreAddressEqual unicodeLower a b).
Proof.
  repeat split.
  - intros a. rewrite AreAddressEqual_unfold, Nat.eqb_refl.
    now rewrite String.eqb_refl.
  - intros a b. rewrite !AreAddressEqual_unfold.
    rewrite (Nat.eqb_sym (String.length a)).
    destruct (Nat.eqb _ _); [|reflexivity].
    now rewrite String.eqb_sym.
  - intros a b c. rewrite !AreAddressEqual_unfold.
    destruct (Nat.eqb_spec (String.length a) (String.length b)) as [E1|];
      [|discriminate].
    destruct (Nat.eqb_spec (String.length b) (String.length c)) as [E2|];
      [|discriminate].
    rewrite E1, E2, Nat.eqb_refl.
    intros H1 H2. injection H1 as H1. injection H2 as H2.
    apply String.eqb_eq in H1, H2. rewrite H1, H2.
    now rewrite String.eqb_refl.
  - intros a b Ha. rewrite !AreAddressEqual_unfold, asciiLower_length.
    rewrite (ToLower_ascii _ a Ha).
    rewrite (ToLower_ascii _ (GoStrings.asciiLower a)).
    + now rewrite asciiLower_idem.
    + now rewrite asciiLower_isASCII.
Qed.

Lemma IsValidAddress_after_ToLower_witness :
  IsValidAddress
    (GoStrings.ToLower (fun s => s) "0Xaaaaaaaaaaaaaaaaaaaaaaaaaaaaaaaaaaaaaaaa")
  = true <->
  IsValidAddress "0Xaaaaaaaaaaaaaaaaaaaaaaaaaaaaaaaaaaaaaaaa" = true \/
  exists body,
    "0Xaaaaaaaaaaaaaaaaaaaaaaaaaaaaaaaaaaaaaaaa"%string
    = String "0" (String "X" body) /\
    IsValidAddress (String "0" (String "x" body)) = true.
Proof.
  apply (IsValidAddress_after_ToLower (fun s => s)
           "0Xaaaaaaaaaaaaaaaaaaaaaaaaaaaaaaaaaaaaaaaa").
  reflexivity.
Defined.

(** ** [OracleReady] and the numbers of [handleStatus] *)

(** [OracleReady] subtracts as [uint64].  An oracle at or behind the
    finalized slot is ready exactly when it is at most [maxSlotsBehind]
    slots behind.  An oracle ahead of the finalized slot the node reports
    is refused as [2^64 - distance] slots behind, unless [maxSlotsBehind]
    is at least that large. *)
Theorem OracleReady_spec (finalizedEpoch latestProcessedSlot maxSlotsBehind : Z) :
  0 <= finalizedEpoch * 32 < 2 ^ 64 ->
  0 <= latestProcessedSlot < 2 ^ 64 ->
  (latestProcessedSlot <= finalizedEpoch * 32 ->
     (OracleReady (FinalityOk finalizedEpoch) latestProcessedSlot maxSlotsBehind
        = Ready
      <-> finalizedEpoch * 32 - latestProcessedSlot <= maxSlotsBehind)) /\
  (finalizedEpoch * 32 < latestProcessedSlot ->
     maxSlotsBehind < 2 ^ 64 - (latestProcessedSlot - finalizedEpoch * 32) ->
     OracleReady (FinalityOk finalizedEpoch) latestProcessedSlot maxSlotsBehind
     = NotInSync (2 ^ 64 - (latestProcessedSlot - finalizedEpoch * 32))
         maxSlotsBehind).
Proof.
  intros He Hl. unfold OracleReady.
  rewrite (wrap64_small (finalizedEpoch * 32) He). split.
  - intros Hle. rewrite wrap64_small by lia.
    destruct (Z.gtb_spec (finalizedEpoch * 32 - latestProcessedSlot)
                maxSlotsBehind) as [Hgt|Hgt]; split; intros Hr;
      try discriminate; try reflexivity; lia.
  - intros Hlt Hmax.
    assert (Hw : wrap64 (finalizedEpoch * 32 - latestProcessedSlot)
                 = 2 ^ 64 - (latestProcessedSlot - finalizedEpoch * 32)).
    { unfold wrap64. symmetry.
      apply (Z.mod_unique _ _ (-1)); lia. }
    rewrite Hw.
    destruct (Z.gtb_spec (2 ^ 64 - (latestProcessedSlot - finalizedEpoch * 32))
                maxSlotsBehind); [reflexivity | lia].
Qed.

Lemma OracleReady_spec_witness :
  (100 <= 3 * 32 ->
     (OracleReady (FinalityOk 3) 100 96 = Ready <-> 3 * 32 - 100 <= 96)) /\
  (3 * 32 < 100 -> 96 < 2 ^ 64 - (100 - 3 * 32) ->
     OracleReady (FinalityOk 3) 100 96
     = NotInSync (2 ^ 64 - (100 - 3 * 32)) 96).
Proof. apply (OracleReady_spec 3 100 96); lia. Defined.

(** With a checkpoint size that is not zero, [handleStatus] reports as next
    checkpoint the first multiple of the size strictly above the latest
    processed slot: a full size ahead when the latest processed slot is
    itself a multiple.  The two ages in seconds add up to twelve seconds
    per slot of a checkpoint, and the oracle is reported in sync exactly
    when the latest processed slot is the finalized one. *)
Theorem statusNumbers_spec (finalizedEpoch latestProcessedSlot size : Z) :
  0 <= finalizedEpoch * 32 < 2 ^ 64 ->
  0 <= latestProcessedSlot ->
  0 < size ->
  latestProcessedSlot + size < 2 ^ 64 ->
  size * 12 < 2 ^ 64 ->
  exists st,
    statusNumbers finalizedEpoch latestProcessedSlot size = Some st /\
    latestProcessedSlot < Status.NextCheckpointSlot st
      <= latestProcessedSlot + size /\
    Status.NextCheckpointSlot st mod size = 0 /\
    (forall n, latestProcessedSlot < n < Status.NextCheckpointSlot st ->
               n mod size <> 0) /\
    Status.NextCheckpointRemainingUnix st
      = 12 * (Status.NextCheckpointSlot st - latestProcessedSlot) /\
    Status.NextCheckpointRemainingUnix st + Status.PreviousCheckpointAgeUnix st
      = 12 * size /\
    (Status.IsOracleInSync st = true
     <-> latestProcessedSlot = finalizedEpoch * 32).
Proof.
  intros He Hl Hs Hsum Hsec. unfold statusNumbers.
  destruct (Z.eqb_spec size 0) as [->|_]; [lia|].
  pose proof (Z.mod_pos_bound latestProcessedSlot size Hs) as Hm.
  pose proof (Z.div_mod latestProcessedSlot size ltac:(lia)) as Hdm.
  set (r := latestProcessedSlot mod size) in *.
  set (q := latestProcessedSlot / size) in *.
  eexists. split; [reflexivity|]. cbn [Status.NextCheckpointSlot
    Status.NextCheckpointRemainingUnix Status.PreviousCheckpointAgeUnix
    Status.IsOracleInSync].
  rewrite (wrap64_small (size - r)) by lia.
  rewrite (wrap64_small (latestProcessedSlot + (size - r))) by lia.
  rewrite (wrap64_small ((size - r) * 12)) by lia.
  rewrite (wrap64_small (r * 12)) by lia.
  rewrite (wrap64_small (finalizedEpoch * 32) He).
  assert (Hnext : latestProcessedSlot + (size - r) = size * (q + 1)) by lia.
  repeat split; try lia.
  - rewrite Hnext, Z.mul_comm. apply Z.mod_mul. lia.
  - intros n Hn Hz. apply Z.mod_divide in Hz; [|lia].
    destruct Hz as [k Hk]. subst n.
    assert (q < k) by nia. assert (k < q + 1) by nia. lia.
  - intros H. apply Z.eqb_eq in H. unfold wrap64 in H.
    apply Z.mod_divide in H; [|lia]. destruct H as [k Hk]. lia.
  - intros ->. rewrite Z.sub_diag. reflexivity.
Qed.

Lemma statusNumbers_spec_witness :
  exists st,
    statusNumbers 4 128 32 = Some st /\
    128 < Status.NextCheckpointSlot st <= 128 + 32 /\
    Status.NextCheckpointSlot st mod 32 = 0 /\
    (forall n, 128 < n < Status.NextCheckpointSlot st -> n mod 32 <> 0) /\
    Status.NextCheckpointRemainingUnix st
      = 12 * (Status.NextCheckpointSlot st - 128) /\
    Status.NextCheckpointRemainingUnix st + Status.PreviousCheckpointAgeUnix st
      = 12 * 32 /\
    (Status.IsOracleInSync st = true <-> 128 = 4 * 32).
Proof. apply (statusNumbers_spec 4 128 32); lia. Defined.

(** A checkpoint size of zero makes [handleStatus] divide by zero. *)
Lemma statusNumbers_zero_size (finalizedEpoch latestProcessedSlot : Z) :
  statusNumbers finalizedEpoch latestProcessedSlot 0 = None.
Proof. reflexivity. Qed.

(** ** The driver: which passes advance, checkpoint and publish *)

Section DriverProperties.
Variables St Root : Type.
Variable Slot : St -> Z.
Variable AdvanceStateToNextEpoch : St -> option St.
Variable DumpOracleStateToDatabase : St -> bool * Root * St.
Variable cfg : Config.t.

Lemma existsb_app_single {A : Type} (f : A -> bool) (l : list A) (a : A) :
  existsb f (l ++ [a]) = existsb f l || f a.
Proof. rewrite existsb_app. simpl. now rewrite orb_false_r. Qed.

Lemma checkpointStep_actions (s : St) (done : list (Action Root)) :
  checkpointed done = false -> published done = false ->
  let after := passActions
    (checkpointStep Slot DumpOracleStateToDatabase cfg s done) in
  processedSlots after = processedSlots done /\
  published after = checkpointed after && negb (Config.DryRun cfg) /\
  (checkpointed after = true <->
   Config.CheckPointSizeInSlots cfg <> 0 /\
   wrap64 (Slot s - Config.DeployedSlot cfg)
     mod Config.CheckPointSizeInSlots cfg = 0).
Proof.
  intros Hc Hp. unfold checkpointStep, checkpointReached.
  destruct (Z.eqb_spec (Config.CheckPointSizeInSlots cfg) 0) as [Hz|Hz].
  { simpl. rewrite Hc, Hp. split; [reflexivity|]. split; [reflexivity|].
    split; [discriminate | intros [H _]; contradiction]. }
  destruct (Z.eqb_spec (wrap64 (Slot s - Config.DeployedSlot cfg)
                          mod Config.CheckPointSizeInSlots cfg) 0) as [Hm|Hm].
  - destruct (DumpOracleStateToDatabase s) as [[failed mRoot] s'].
    assert (Hafter :
      forall p : Pass St Root,
        passActions p =
          (if negb (Config.DryRun cfg)
           then (done ++ [DumpedOracleState (Slot s)])
                  ++ [UpdatedContractMerkleRoot mRoot]
           else done ++ [DumpedOracleState (Slot s)]) ->
        processedSlots (passActions p) = processedSlots done /\
        published (passActions p)
          = checkpointed (passActions p) && negb (Config.DryRun cfg) /\
        (checkpointed (passActions p) = true <->
         Config.CheckPointSizeInSlots cfg <> 0 /\
         wrap64 (Slot s - Config.DeployedSlot cfg)
           mod Config.CheckPointSizeInSlots cfg = 0)).
    { intros p ->. unfold processedSlots, published, checkpointed in *.
      destruct (Config.DryRun cfg); simpl negb; cbv iota;
        rewrite ?existsb_app_single, ?Hc, ?Hp; simpl;
        rewrite ?orb_false_r; repeat split; auto. }
    destruct failed; apply Hafter; reflexivity.
  - simpl. rewrite Hc, Hp. split; [reflexivity|]. split; [reflexivity|].
    split; [discriminate | intros [_ H]; contradiction].
Qed.

(** A pass advances the oracle exactly when the consensus client is in
    sync, reports a finalized epoch whose first slot is above the oracle's
    slot, and [AdvanceStateToNextEpoch] returns no error: the oracle never
    advances at or beyond the finalized slot.  While the client is
    syncing or does not answer, a pass only sleeps and the state stays. *)
Theorem mainLoopBody_advances (r : Replies.t) (s : St) :
  (processedSlots
     (passActions (mainLoopBody Slot AdvanceStateToNextEpoch
                     DumpOracleStateToDatabase cfg r s)) = true
   <-> Replies.NodeSyncing r = NodeSyncingOk false /\
       exists finalizedEpoch,
         Replies.Finality r = FinalityOk finalizedEpoch /\
         Slot s < wrap64 (finalizedEpoch * SlotsInEpoch) /\
         AdvanceStateToNextEpoch s <> None) /\
  (Replies.NodeSyncing r <> NodeSyncingOk false
   \/ Replies.Finality r = FinalityError ->
   mainLoopBody Slot AdvanceStateToNextEpoch DumpOracleStateToDatabase cfg r s
   = Continue s [Sleep15]).
Proof.
  unfold mainLoopBody. split.
  - destruct (Replies.NodeSyncing r) as [|[|]].
    + simpl. split; [discriminate | intros [H _]; discriminate].
    + simpl. split; [discriminate | intros [H _]; discriminate].
    + destruct (Replies.Finality r) as [|epoch].
      * simpl. split; [discriminate | intros [_ (e & H & _)]; discriminate].
      * destruct (Z.gtb_spec (wrap64 (epoch * SlotsInEpoch)) (Slot s)) as [Hgt|Hle].
        -- destruct (AdvanceStateToNextEpoch s) as [s'|] eqn:Hadv.
           ++ destruct (checkpointStep_actions s' [Advanced] eq_refl eq_refl)
                as [Hp _].
              rewrite Hp. split; [|reflexivity].
              intros _. split; [reflexivity|]. exists epoch.
              repeat split; [lia | discriminate].
           ++ simpl. split; [discriminate|].
              intros [_ (e & _ & _ & H)]. contradiction.
        -- destruct (checkpointStep_actions s [Sleep15] eq_refl eq_refl)
             as [Hp _].
           rewrite Hp. simpl. split; [discriminate|].
           intros [_ (e & He & Hlt & _)]. injection He as <-. lia.
  - intros [Hn | Hf].
    + destruct (Replies.NodeSyncing r) as [|[|]]; try reflexivity.
      contradiction.
    + rewrite Hf. destruct (Replies.NodeSyncing r) as [|[|]]; reflexivity.
Qed.

(** A pass dumps the oracle state exactly when the consensus client is in
    sync and reports a finalized epoch, advancing (where the pass has to)
    returns no error, the checkpoint size is not zero, and the slot of the
    state the pass then holds is a whole number of checkpoint sizes above
    the deployed slot; whether the pass advanced plays no part. *)
Theorem mainLoopBody_checkpoints (r : Replies.t) (s : St) :
  checkpointed
    (passActions (mainLoopBody Slot AdvanceStateToNextEpoch
                    DumpOracleStateToDatabase cfg r s)) = true
  <-> Replies.NodeSyncing r = NodeSyncingOk false /\
      exists finalizedEpoch s1,
        Replies.Finality r = FinalityOk finalizedEpoch /\
        stateAtCheckpointTest Slot AdvanceStateToNextEpoch finalizedEpoch s s1 /\
        Config.CheckPointSizeInSlots cfg <> 0 /\
        wrap64 (Slot s1 - Config.DeployedSlot cfg)
          mod Config.CheckPointSizeInSlots cfg = 0.
Proof.
  unfold mainLoopBody, stateAtCheckpointTest.
  destruct (Replies.NodeSyncing r) as [|[|]].
  - simpl. split; [discriminate | intros [H _]; discriminate].
  - simpl. split; [discriminate | intros [H _]; discriminate].
  - destruct (Replies.Finality r) as [|epoch].
    + simpl. split; [discriminate | intros [_ (e & s1 & H & _)]; discriminate].
    + destruct (wrap64 (epoch * SlotsInEpoch) >? Slot s) eqn:Hb.
      * destruct (AdvanceStateToNextEpoch s) as [s'|] eqn:Hadv.
        -- destruct (checkpointStep_actions s' [Advanced] eq_refl eq_refl)
             as (_ & _ & Hck).
           rewrite Hck. split.
           ++ intros [Hz Hm]. split; [reflexivity|]. exists epoch, s'.
              split; [reflexivity|]. rewrite Hb. auto.
           ++ intros [_ (e & s1 & He & Hs1 & Hz & Hm)]. injection He as <-.
              rewrite Hb in Hs1. injection Hs1 as <-. auto.
        -- simpl. split; [discriminate|].
           intros [_ (e & s1 & He & Hs1 & _)]. injection He as <-.
           rewrite Hb in Hs1. discriminate.
      * destruct (checkpointStep_actions s [Sleep15] eq_refl eq_refl)
          as (_ & _ & Hck).
        rewrite Hck. split.
        -- intros [Hz Hm]. split; [reflexivity|]. exists epoch, s.
           split; [reflexivity|]. rewrite Hb. auto.
        -- intros [_ (e & s1 & He & Hs1 & Hz & Hm)]. injection He as <-.
           rewrite Hb in Hs1. subst s1. auto.
Qed.

Lemma mainLoopBody_published (r : Replies.t) (s : St) :
  let pass := passActions (mainLoopBody Slot AdvanceStateToNextEpoch
                             DumpOracleStateToDatabase cfg r s) in
  published pass = checkpointed pass && negb (Config.DryRun cfg).
Proof.
  unfold mainLoopBody.
  destruct (Replies.NodeSyncing r) as [|[|]]; try reflexivity.
  destruct (Replies.Finality r) as [|epoch]; try reflexivity.
  destruct (wrap64 (epoch * SlotsInEpoch) >? Slot s).
  - destruct (AdvanceStateToNextEpoch s) as [s'|]; [|reflexivity].
    apply (checkpointStep_actions s' [Advanced] eq_refl eq_refl).
  - apply (checkpointStep_actions s [Sleep15] eq_refl eq_refl).
Qed.

(** In every pass of a run, also the one that ends the process, the
    Merkle root is sent to the contract exactly when the pass dumped the
    oracle state and [DryRun] is off: a dry run never publishes, and a
    run that is not dry publishes at every dump, whether or not the dump
    succeeded. *)
Theorem mainLoop_publishes (replies : list Replies.t) (s : St) :
  List.Forall
    (fun pass => published pass = checkpointed pass && negb (Config.DryRun cfg))
    (mainLoop Slot AdvanceStateToNextEpoch DumpOracleStateToDatabase cfg
       replies s).
Proof.
  revert s. induction replies as [|r replies IH]; intros s; simpl.
  - constructor.
  - pose proof (mainLoopBody_published r s) as Hp. simpl in Hp.
    destruct (mainLoopBody Slot AdvanceStateToNextEpoch
                DumpOracleStateToDatabase cfg r s) as [s' done|why done].
    + constructor; [exact Hp | apply IH].
    + constructor; [exact Hp | constructor].
Qed.

(** With a checkpoint size of zero the loop ends at the first pass that
    finds the consensus client in sync with a finalized epoch: by the
    error of [AdvanceStateToNextEpoch] if it returns one, by the division
    by zero of the checkpoint test otherwise; nothing is dumped. *)
Theorem mainLoopBody_zero_checkpoint_size (r : Replies.t) (s : St)
  (finalizedEpoch : Z) :
  Config.CheckPointSizeInSlots cfg = 0 ->
  Replies.NodeSyncing r = NodeSyncingOk false ->
  Replies.Finality r = FinalityOk finalizedEpoch ->
  exists why done,
    mainLoopBody Slot AdvanceStateToNextEpoch DumpOracleStateToDatabase cfg r s
    = Stopped why done /\
    checkpointed done = false /\
    (why = StopFatal <->
     Slot s < wrap64 (finalizedEpoch * SlotsInEpoch) /\
     AdvanceStateToNextEpoch s = None).
Proof.
  intros Hz Hn Hf. unfold mainLoopBody, checkpointStep, checkpointReached.
  rewrite Hn, Hf, Hz. simpl Z.eqb. cbv iota.
  destruct (Z.gtb_spec (wrap64 (finalizedEpoch * SlotsInEpoch)) (Slot s))
    as [Hgt|Hle].
  - destruct (AdvanceStateToNextEpoch s) as [s'|].
    + exists StopDivideByZero, [Advanced]. split; [reflexivity|].
      split; [reflexivity|]. split; [discriminate | intros [_ H]; discriminate].
    + exists StopFatal, []. split; [reflexivity|]. split; [reflexivity|].
      split; [intros _; split; [lia | reflexivity] | reflexivity].
  - exists StopDivideByZero, [Sleep15]. split; [reflexivity|].
    split; [reflexivity|]. split; [discriminate | intros [H _]; lia].
Qed.

End DriverProperties.

Lemma mainLoopBody_zero_checkpoint_size_witness :
  exists why done,
    mainLoopBody (fun slot => slot) slotOracleAdvance slotOracleDump
      (Config.mk 96 0 false) (finalized 4) 96
    = Stopped why done /\
    checkpointed done = false /\
    (why = StopFatal <->
     96 < wrap64 (4 * SlotsInEpoch) /\ slotOracleAdvance 96 = None).
Proof.
  apply (mainLoopBody_zero_checkpoint_size Z unit (fun slot => slot)
           slotOracleAdvance slotOracleDump (Config.mk 96 0 false)
           (finalized 4) 96 4); reflexivity.
Defined.

(** ** The step: a block is processed once *)

Section StepOnce.
Variable CollateralInWei : Z.
Variable HandleManualSubscriptions :
  Z -> list Subscription.t -> OracleState -> outcome OracleState.
Variable IsValidatorSubscribed : Z -> OracleState -> bool.
Variable HandleMissedBlock : Block.t -> OracleState -> outcome OracleState.
Variable HandleCorrectBlockProposal : Block.t -> OracleState -> outcome OracleState.
Variable HandleBanValidator : Block.t -> OracleState -> outcome OracleState.
Variable HandleManualUnsubscriptions :
  list Unsubscription.t -> OracleState -> outcome OracleState.
Variable HandleDonations : list Donation.t -> OracleState -> outcome OracleState.

Lemma stepMissed_keepsLatestSlot (blockPool : Block.t) :
  keepsLatestSlot (HandleMissedBlock blockPool) ->
  keepsLatestSlot (stepMissed IsValidatorSubscribed HandleMissedBlock blockPool).
Proof.
  intros Hm s s'. unfold stepMissed.
  destruct (_ && _); [apply Hm|]. intros H. now injection H as <-.
Qed.

Lemma stepProposed_keepsLatestSlot (blockPool : Block.t) :
  keepsLatestSlot (HandleCorrectBlockProposal blockPool) ->
  keepsLatestSlot (HandleBanValidator blockPool) ->
  keepsLatestSlot (stepProposed IsValidatorSubscribed HandleCorrectBlockProposal
                     HandleBanValidator blockPool).
Proof.
  intros Hc Hb s s'. unfold stepProposed.
  destruct (negb _); [|intros H; now injection H as <-].
  assert (H1 : forall s1,
    (if BlockType_eqb (Block.BlockType blockPool) OkPoolProposalBlsKeys
     then Returns (SendRewardToPool (Block.Reward blockPool) s)
     else Returns s) = Returns s1 -> LatestSlot s1 = LatestSlot s).
  { intros s1. destruct (BlockType_eqb _ _); intros H; now injection H as <-. }
  destruct (if BlockType_eqb (Block.BlockType blockPool) OkPoolProposalBlsKeys
            then _ else _) as [s1|]; [|discriminate].
  specialize (H1 s1 eq_refl). cbn [bind].
  assert (H2 : forall s2,
    (if BlockType_eqb (Block.BlockType blockPool) OkPoolProposal
     then HandleCorrectBlockProposal blockPool s1
     else Returns s1) = Returns s2 -> LatestSlot s2 = LatestSlot s1).
  { intros s2. destruct (BlockType_eqb _ _); [apply Hc|].
    intros H; now injection H as <-. }
  destruct (if BlockType_eqb (Block.BlockType blockPool) OkPoolProposal
            then _ else _) as [s2|]; [|discriminate].
  specialize (H2 s2 eq_refl). cbn [bind].
  destruct (_ && _).
  - intros H. apply Hb in H. congruence.
  - intros H. injection H as <-. congruence.
Qed.

(** When the methods the step calls leave [LatestSlot] alone, a step that
    returns without error has processed the slot of its block and leaves
    [LatestSlot] one above it, and the same block offered again, with any
    events, is refused with the slot mismatch and changes nothing. *)
Theorem AdvanceStateToNextSlot_once (s : OracleState) (blockPool : Block.t)
  (blockSubs : list Subscription.t) (blockUnsubs : list Unsubscription.t)
  (blockDonations : list Donation.t) (processedSlot : Z) (s' : OracleState) :
  (forall c subs, keepsLatestSlot (HandleManualSubscriptions c subs)) ->
  (forall b, keepsLatestSlot (HandleMissedBlock b)) ->
  (forall b, keepsLatestSlot (HandleCorrectBlockProposal b)) ->
  (forall b, keepsLatestSlot (HandleBanValidator b)) ->
  (forall unsubs, keepsLatestSlot (HandleManualUnsubscriptions unsubs)) ->
  (forall dons, keepsLatestSlot (HandleDonations dons)) ->
  0 <= LatestSlot s < 2 ^ 64 - 1 ->
  AdvanceStateToNextSlot CollateralInWei HandleManualSubscriptions
    IsValidatorSubscribed HandleMissedBlock HandleCorrectBlockProposal
    HandleBanValidator HandleManualUnsubscriptions HandleDonations
    s blockPool blockSubs blockUnsubs blockDonations
  = Returns (processedSlot, None, s') ->
  processedSlot = Block.Slot blockPool /\
  LatestSlot s' = Block.Slot blockPool + 1 /\
  forall subs unsubs dons,
    AdvanceStateToNextSlot CollateralInWei HandleManualSubscriptions
      IsValidatorSubscribed HandleMissedBlock HandleCorrectBlockProposal
      HandleBanValidator HandleManualUnsubscriptions HandleDonations
      s' blockPool subs unsubs dons
    = Returns (0, Some (SlotMismatch (Block.Slot blockPool)
                          (Block.Slot blockPool + 1)), s').
Proof.
  intros Hsub Hmiss Hok Hban Hunsub Hdon Hrange.
  unfold AdvanceStateToNextSlot at 1. unfold validateParameters.
  destruct (Z.eqb_spec (Block.Slot blockPool) (LatestSlot s)) as [Hslot|Hslot];
    simpl negb; cbv iota; [|discriminate].
  destruct (HandleManualSubscriptions CollateralInWei blockSubs s)
    as [s1|] eqn:E1; [|discriminate]. cbn [bind].
  destruct (stepMissed IsValidatorSubscribed HandleMissedBlock blockPool s1)
    as [s2|] eqn:E2; [|discriminate]. cbn [bind].
  destruct (stepProposed IsValidatorSubscribed HandleCorrectBlockProposal
              HandleBanValidator blockPool s2) as [s3|] eqn:E3; [|discriminate].
  cbn [bind].
  destruct (HandleManualUnsubscriptions blockUnsubs s3) as [s4|] eqn:E4;
    [|discriminate]. cbn [bind].
  destruct (HandleDonations blockDonations s4) as [s5|] eqn:E5; [|discriminate].
  cbn [bind]. intros H. injection H as <- <-.
  apply Hsub in E1. apply (stepMissed_keepsLatestSlot _ (Hmiss _)) in E2.
  apply (stepProposed_keepsLatestSlot _ (Hok _) (Hban _)) in E3.
  apply Hunsub in E4. apply Hdon in E5.
  assert (H5 : LatestSlot s5 = Block.Slot blockPool) by congruence.
  rewrite H5. rewrite wrap64_succ by lia.
  split; [reflexivity|]. split; [reflexivity|].
  intros subs unsubs dons. unfold AdvanceStateToNextSlot, validateParameters.
  cbn [LatestSlot setLatestSlot].
  destruct (Z.eqb_spec (Block.Slot blockPool) (Block.Slot blockPool + 1));
    [lia | reflexivity].
Qed.

End StepOnce.

Lemma idleHandler_keepsLatestSlot {A : Type} (a : A) :
  keepsLatestSlot (idleHandler a).
Proof. intros s s' H. now injection H as <-. Qed.

Lemma idleSubscriptions_keepsLatestSlot (c : Z) (subs : list Subscription.t) :
  keepsLatestSlot (idleSubscriptions c subs).
Proof. intros s s' H. now injection H as <-. Qed.

Lemma donationsHandler_keepsLatestSlot (ds : list Donation.t) :
  keepsLatestSlot (donationsHandler ds).
Proof.
  intros s s' H. injection H as <-. revert s.
  induction ds as [|d ds IH]; intros s; simpl; [reflexivity|].
  now rewrite IH.
Qed.

Lemma AdvanceStateToNextSlot_once_witness :
  5 = Block.Slot (exampleBlock 5 OkPoolProposal 40) /\
  LatestSlot (setLatestSlot (donate (exampleState 5 2) (Donation.mk 3 1)) 6)
  = Block.Slot (exampleBlock 5 OkPoolProposal 40) + 1 /\
  forall subs unsubs dons,
    AdvanceStateToNextSlot 1000 idleSubscriptions isSubscribedIn idleHandler
      idleHandler idleHandler idleHandler donationsHandler
      (setLatestSlot (donate (exampleState 5 2) (Donation.mk 3 1)) 6)
      (exampleBlock 5 OkPoolProposal 40) subs unsubs dons
    = Returns (0, Some (SlotMismatch (Block.Slot (exampleBlock 5 OkPoolProposal 40))
                          (Block.Slot (exampleBlock 5 OkPoolProposal 40) + 1)),
               setLatestSlot (donate (exampleState 5 2) (Donation.mk 3 1)) 6).
Proof.
  apply (AdvanceStateToNextSlot_once 1000 idleSubscriptions isSubscribedIn
           idleHandler idleHandler idleHandler idleHandler donationsHandler
           (exampleState 5 2) (exampleBlock 5 OkPoolProposal 40) [] []
           [Donation.mk 3 1] 5).
  - apply idleSubscriptions_keepsLatestSlot.
  - apply idleHandler_keepsLatestSlot.
  - apply idleHandler_keepsLatestSlot.
  - apply idleHandler_keepsLatestSlot.
  - apply idleHandler_keepsLatestSlot.
  - apply donationsHandler_keepsLatestSlot.
  - simpl. lia.
  - reflexivity.
Defined.

(** ** [handleMemoryValidatorsByWithdrawal] *)

(** A loop over the entries of a map that writes at most the key of each
    entry: what it leaves under a key. *)
Lemma forEach_insert_lookup {A B : Type}
  (f : Z * A -> gmap Z B -> outcome (gmap Z B)) (g : Z * A -> option B)
  (l : list (Z * A)) :
  (forall e m0 m1, f e m0 = Returns m1 ->
     m1 = match g e with Some b => <[e.1 := b]> m0 | None => m0 end) ->
  NoDup (l.*1) ->
  forall m m', forEach f l m = Returns m' ->
  forall k,
    (forall a, (k, a) ∈ l ->
       m' !! k = match g (k, a) with Some b => Some b | None => m !! k end) /\
    ((forall a, (k, a) ∉ l) -> m' !! k = m !! k).
Proof.
  intros Hf. induction l as [|[k0 a0] l IH]; intros Hnd m m' H k.
  - simpl in H. injection H as <-.
    split; [intros a Ha; inversion Ha | reflexivity].
  - simpl in H. apply bind_Returns_inv in H as (m1 & H1 & H2).
    apply Hf in H1. simpl in H1. rewrite fmap_cons in Hnd.
    apply NoDup_cons in Hnd as [Hk0 Hnd]. simpl in Hk0.
    destruct (IH Hnd m1 m' H2 k) as [IH1 IH2]. split.
    + intros a Ha. apply elem_of_cons in Ha as [Heq | Ha].
      * injection Heq as -> ->. rewrite IH2.
        -- subst m1. destruct (g (k0, a0)); [apply lookup_insert_eq | reflexivity].
        -- intros a Ha. apply Hk0. apply list_elem_of_fmap.
           exists (k0, a). split; [reflexivity | exact Ha].
      * rewrite (IH1 a Ha). destruct (g (k, a)); [reflexivity|].
        subst m1. destruct (g (k0, a0)); [|reflexivity].
        apply lookup_insert_ne. intros ->. apply Hk0.
        apply list_elem_of_fmap. exists (k, a). split; [reflexivity | exact Ha].
    + intros Hno. rewrite IH2.
      * subst m1. destruct (g (k0, a0)); [|reflexivity].
        apply lookup_insert_ne. intros ->. apply (Hno a0). left.
      * intros a Ha. apply (Hno a). right. exact Ha.
Qed.

(** The same loop over the entries of a map. *)
Lemma forEach_insert_map_to_list {A B : Type}
  (f : Z * A -> gmap Z B -> outcome (gmap Z B)) (g : Z * A -> option B)
  (src : gmap Z A) (m m' : gmap Z B) :
  (forall e m0 m1, f e m0 = Returns m1 ->
     m1 = match g e with Some b => <[e.1 := b]> m0 | None => m0 end) ->
  forEach f (map_to_list src) m = Returns m' ->
  forall k,
    m' !! k = match src !! k with
              | Some a => match g (k, a) with Some b => Some b | None => m !! k end
              | None => m !! k
              end.
Proof.
  intros Hf H k.
  destruct (forEach_insert_lookup f g (map_to_list src) Hf
              (NoDup_fst_map_to_list src) m m' H k) as [H1 H2].
  destruct (src !! k) as [a|] eqn:Hk.
  - apply H1. apply elem_of_map_to_list. exact Hk.
  - apply H2. intros a Ha. apply elem_of_map_to_list in Ha. congruence.
Qed.

(** A loop whose body ends the process on some entries, whatever the
    state, ends the process exactly when it meets one. *)
Lemma forEach_Fatal {A St : Type} (f : A -> St -> outcome St) (bad : A -> Prop)
  (l : list A) (s : St) :
  (forall a s0, f a s0 = Fatal <-> bad a) ->
  (forEach f l s = Fatal <-> List.Exists bad l).
Proof.
  intros Hf. revert s. induction l as [|a l IH]; intros s; simpl.
  - split; [discriminate | intros H; inversion H].
  - destruct (f a s) as [s1|] eqn:E; simpl.
    + rewrite IH. split; [intros H; now right|].
      intros H. inversion H as [? ? Hb|]; subst; [|assumption].
      apply Hf with (s0 := s) in Hb. congruence.
    + split; [|reflexivity]. intros _. left. apply (Hf a s). exact E.
Qed.

Lemma insertBy_Permutation {A : Type} (leb : A -> A -> bool) (x : A) (l : list A) :
  Permutation (insertBy leb x l) (x :: l).
Proof.
  induction l as [|y l IH]; simpl; [reflexivity|].
  destruct (leb x y); [reflexivity|].
  rewrite IH. apply perm_swap.
Qed.

Lemma sortBy_Permutation {A : Type} (leb : A -> A -> bool) (l : list A) :
  Permutation (sortBy leb l) l.
Proof.
  induction l as [|x l IH]; simpl; [reflexivity|].
  rewrite insertBy_Permutation. now constructor.
Qed.

Section ByWithdrawalProperties.
Variable unicodeLower : string -> string.
Variable AddressString : Address -> string.
Variable CanValidatorSubscribeToPool : BeaconValidator.t -> bool.
Variable CollateralInWei : Z.
Variable GetEth1Address : string -> option string.
Variable PublicKeyHex : BeaconValidator.t -> string.

Local Abbreviation handler :=
  (handleMemoryValidatorsByWithdrawal unicodeLower AddressString
     CanValidatorSubscribeToPool CollateralInWei GetEth1Address PublicKeyHex).
Local Abbreviation requestedOf :=
  (requestedValidators unicodeLower CanValidatorSubscribeToPool GetEth1Address
     PublicKeyHex).
Local Abbreviation expected :=
  (trackedOrUntrackedFor unicodeLower CanValidatorSubscribeToPool GetEth1Address
     PublicKeyHex).

Lemma addTracked_spec (withdrawalAddress : string) (e : Z * ValidatorInfo)
  (m0 m1 : gmap Z ValidatorInfo) :
  addTracked unicodeLower withdrawalAddress e m0 = Returns m1 ->
  m1 = match
         (match AreAddressEqual unicodeLower (WithdrawalAddress e.2)
                  withdrawalAddress with
          | Returns true => Some e.2
          | _ => None
          end)
       with
       | Some b => <[e.1 := b]> m0
       | None => m0
       end.
Proof.
  unfold addTracked.
  destruct (AreAddressEqual unicodeLower _ _) as [[|]|]; simpl; intros H;
    try discriminate; now injection H as <-.
Qed.

Lemma addUntracked_spec (withdrawalAddress : string) (e : Z * BeaconValidator.t)
  (m0 m1 : gmap Z ValidatorInfo) :
  addUntracked unicodeLower CanValidatorSubscribeToPool GetEth1Address
    PublicKeyHex withdrawalAddress e m0 = Returns m1 ->
  m1 = match
         (match GetEth1Address
                  (hexEncodeToString (BeaconValidator.WithdrawalCredentials e.2))
          with
          | Some eth1Add =>
              match AreAddressEqual unicodeLower eth1Add withdrawalAddress with
              | Returns true =>
                  if CanValidatorSubscribeToPool e.2
                  then Some (untrackedEntry PublicKeyHex e.2 eth1Add)
                  else None
              | _ => None
              end
          | None => None
          end)
       with
       | Some b => <[e.1 := b]> m0
       | None => m0
       end.
Proof.
  unfold addUntracked.
  destruct (GetEth1Address _) as [eth1Add|]; [|intros H; now injection H as <-].
  destruct (AreAddressEqual unicodeLower _ _) as [[|]|]; simpl;
    try discriminate.
  - destruct (CanValidatorSubscribeToPool e.2); simpl; intros H;
      now injection H as <-.
  - intros H; now injection H as <-.
Qed.

Lemma requestedValidators_lookup (env : ByWithdrawal.Env)
  (onchain : gmap Z BeaconValidator.t) (withdrawalAddress : string)
  (requested : gmap Z ValidatorInfo) :
  requestedOf env onchain withdrawalAddress = Returns requested ->
  forall k,
    requested !! k
    = expected (ByWithdrawal.StateValidators env) onchain withdrawalAddress k.
Proof.
  unfold requestedValidators. intros H k.
  apply bind_Returns_inv in H as (untracked & Hu & Ht).
  rewrite (forEach_insert_map_to_list _ _ _ _ _
             (addTracked_spec withdrawalAddress) Ht k).
  rewrite (forEach_insert_map_to_list _ _ _ _ _
             (addUntracked_spec withdrawalAddress) Hu k).
  unfold trackedOrUntrackedFor, untrackedFor. cbn [fst snd].
  rewrite lookup_empty.
  destruct (ByWithdrawal.StateValidators env !! k) as [v|].
  - destruct (AreAddressEqual unicodeLower (WithdrawalAddress v) _) as [[|]|];
      try reflexivity;
      destruct (onchain !! k) as [bv|]; try reflexivity;
      destruct (GetEth1Address _); try reflexivity;
      destruct (AreAddressEqual unicodeLower _ _) as [[|]|]; try reflexivity;
      destruct (CanValidatorSubscribeToPool bv); reflexivity.
  - destruct (onchain !! k) as [bv|]; try reflexivity;
      destruct (GetEth1Address _); try reflexivity;
      destruct (AreAddressEqual unicodeLower _ _) as [[|]|]; try reflexivity;
      destruct (CanValidatorSubscribeToPool bv); reflexivity.
Qed.

Lemma expected_address (stateValidators : gmap Z ValidatorInfo)
  (onchain : gmap Z BeaconValidator.t) (withdrawalAddress : string) (k : Z)
  (v : ValidatorInfo) :
  expected stateValidators onchain withdrawalAddress k = Some v ->
  AreAddressEqual unicodeLower (WithdrawalAddress v) withdrawalAddress
  = Returns true.
Proof.
  unfold trackedOrUntrackedFor, untrackedFor.
  assert (Hu :
    match onchain !! k with
    | Some validator =>
        match GetEth1Address
                (hexEncodeToString (BeaconValidator.WithdrawalCredentials validator))
        with
        | Some eth1Add =>
            match AreAddressEqual unicodeLower eth1Add withdrawalAddress with
            | Returns true =>
                if CanValidatorSubscribeToPool validator
                then Some (untrackedEntry PublicKeyHex validator eth1Add)
                else None
            | _ => None
            end
        | None => None
        end
    | None => None
    end = Some v ->
    AreAddressEqual unicodeLower (WithdrawalAddress v) withdrawalAddress
    = Returns true).
  { destruct (onchain !! k) as [bv|]; [|discriminate].
    destruct (GetEth1Address _) as [eth1Add|]; [|discriminate].
    destruct (AreAddressEqual unicodeLower eth1Add withdrawalAddress)
      as [[|]|] eqn:E; try discriminate.
    destruct (CanValidatorSubscribeToPool bv); [|discriminate].
    intros H. injection H as <-. exact E. }
  destruct (stateValidators !! k) as [v0|]; [|exact Hu].
  destruct (AreAddressEqual unicodeLower (WithdrawalAddress v0) withdrawalAddress)
    as [[|]|] eqn:E; try exact Hu.
  intros H. injection H as <-. exact E.
Qed.

Lemma addTracked_Fatal (withdrawalAddress : string) (e : Z * ValidatorInfo)
  (m0 : gmap Z ValidatorInfo) :
  addTracked unicodeLower withdrawalAddress e m0 = Fatal <->
  String.length (WithdrawalAddress e.2) <> String.length withdrawalAddress.
Proof.
  unfold addTracked. rewrite AreAddressEqual_unfold.
  destruct (Nat.eqb_spec (String.length (WithdrawalAddress e.2))
              (String.length withdrawalAddress)) as [Heq|Hne]; simpl.
  - destruct (String.eqb _ _); split; try discriminate; intros H; contradiction.
  - split; [intros _; exact Hne | reflexivity].
Qed.

Lemma requestedValidators_Fatal (env : ByWithdrawal.Env)
  (onchain : gmap Z BeaconValidator.t) (withdrawalAddress : string) (k : Z)
  (v : ValidatorInfo) :
  ByWithdrawal.StateValidators env !! k = Some v ->
  String.length (WithdrawalAddress v) <> String.length withdrawalAddress ->
  requestedOf env onchain withdrawalAddress = Fatal.
Proof.
  intros Hk Hlen. unfold requestedValidators.
  destruct (forEach _ (map_to_list onchain) ∅) as [untracked|]; [|reflexivity].
  cbn [bind].
  apply (forEach_Fatal _
           (fun e : Z * ValidatorInfo =>
              String.length (WithdrawalAddress e.2)
              <> String.length withdrawalAddress)).
  - intros e m0. apply addTracked_Fatal.
  - apply List.Exists_exists. exists (k, v). split; [|exact Hlen].
    apply list_elem_of_In. apply elem_of_map_to_list. exact Hk.
Qed.

Lemma handleMemoryValidatorsByWithdrawal_OK_inv (env : ByWithdrawal.Env)
  (withdrawalAddress : string) (body : list ValidatorInfo) :
  handler env withdrawalAddress = Returns (RespondOK body) ->
  IsValidAddress (GoStrings.ToLower unicodeLower withdrawalAddress) = true /\
  OracleReady (ByWithdrawal.Finality env) (ByWithdrawal.LatestProcessedSlot env)
    (32 * 3) = Ready /\
  exists onchain requested,
    ByWithdrawal.OnchainValidators env = Some onchain /\
    requestedOf env onchain (GoStrings.ToLower unicodeLower withdrawalAddress)
    = Returns requested /\
    ((requested = ∅ /\ body = []) \/
     (requested <> ∅ /\
      ByWithdrawal.LatestProcessedBlock env <> 0 /\
      exists subs unsubs final,
        ByWithdrawal.GetSubscriptionsTillHead env
          (wrap64 (ByWithdrawal.LatestProcessedBlock env + 1)) = Some subs /\
        ByWithdrawal.GetUnsubscriptionsTillHead env
          (wrap64 (ByWithdrawal.LatestProcessedBlock env + 1)) = Some unsubs /\
        ApplyNonFinalizedState unicodeLower AddressString
          CanValidatorSubscribeToPool CollateralInWei subs unsubs requested
        = Returns final /\
        body = sortByValidatorIndex (map snd (map_to_list final)))).
Proof.
  unfold handleMemoryValidatorsByWithdrawal.
  destruct (IsValidAddress _); simpl negb; cbv iota; [|discriminate].
  destruct (OracleReady _ _ _); try discriminate.
  destruct (ByWithdrawal.OnchainValidators env) as [onchain|]; [|discriminate].
  destruct (requestedValidators _ _ _ _ env onchain _) as [requested|] eqn:Hreq;
    [|discriminate].
  cbn [bind]. intros H. split; [reflexivity|]. split; [reflexivity|].
  exists onchain, requested. split; [reflexivity|]. split; [exact Hreq|].
  destruct (Nat.eqb_spec (size requested) 0) as [Hsz|Hsz].
  - left. injection H as <-. split; [|reflexivity].
    apply map_size_empty_iff. exact Hsz.
  - right. split; [intros ->; apply Hsz; apply map_size_empty|].
    destruct (Z.eqb_spec (ByWithdrawal.LatestProcessedBlock env) 0) as [Hb|Hb];
      [discriminate|].
    split; [exact Hb|].
    destruct (ByWithdrawal.GetSubscriptionsTillHead env _) as [subs|];
      [|discriminate].
    destruct (ByWithdrawal.GetUnsubscriptionsTillHead env _) as [unsubs|];
      [|discriminate].
    destruct (ApplyNonFinalizedState _ _ _ _ subs unsubs requested)
      as [final|] eqn:Hfin; [|discriminate].
    cbn [bind] in H. injection H as <-.
    exists subs, unsubs, final.
    split; [reflexivity|]. split; [reflexivity|]. split; [exact Hfin|].
    reflexivity.
Qed.

(** Every record [handleMemoryValidatorsByWithdrawal] answers withdraws to
    the requested address: the lowercased request is a valid address, and
    for each record [AreAddressEqual] of its withdrawal address and the
    lowercased request returns true, so the address has 42 bytes. *)
Theorem handleMemoryValidatorsByWithdrawal_addresses (env : ByWithdrawal.Env)
  (withdrawalAddress : string) (body : list ValidatorInfo) :
  handleMemoryValidatorsByWithdrawal unicodeLower AddressString
    CanValidatorSubscribeToPool CollateralInWei GetEth1Address PublicKeyHex
    env withdrawalAddress = Returns (RespondOK body) ->
  IsValidAddress (GoStrings.ToLower unicodeLower withdrawalAddress) = true /\
  forall v, In v body ->
    AreAddressEqual unicodeLower (WithdrawalAddress v)
      (GoStrings.ToLower unicodeLower withdrawalAddress) = Returns true /\
    String.length (WithdrawalAddress v) = 42%nat.
Proof.
  intros H.
  apply handleMemoryValidatorsByWithdrawal_OK_inv in H
    as (Hvalid & _ & onchain & requested & _ & Hreq & Hbody).
  split; [exact Hvalid|]. intros v Hv.
  assert (Heq : AreAddressEqual unicodeLower (WithdrawalAddress v)
                  (GoStrings.ToLower unicodeLower withdrawalAddress)
                = Returns true).
  { destruct Hbody as [[_ ->] | (_ & _ & subs & unsubs & final & _ & _ & Hfin & ->)];
      [inversion Hv|].
    unfold sortByValidatorIndex in Hv. apply sortBy_In in Hv.
    apply in_map_iff in Hv as ([k v'] & Hsnd & Hin). simpl in Hsnd. subst v'.
    apply list_elem_of_In, elem_of_map_to_list in Hin.
    pose proof (ApplyNonFinalizedState_cases unicodeLower AddressString
                  CanValidatorSubscribeToPool CollateralInWei subs unsubs
                  requested) as Hcases.
    rewrite Hfin in Hcases. destruct Hcases as [_ Hov].
    specialize (Hov k). rewrite Hin in Hov.
    destruct (requested !! k) as [v0|] eqn:Hk; [|contradiction].
    destruct Hov as (_ & _ & HW & _). rewrite HW.
    rewrite (requestedValidators_lookup env onchain _ requested Hreq k) in Hk.
    apply expected_address in Hk. exact Hk. }
  split; [exact Heq|].
  rewrite AreAddressEqual_unfold in Heq.
  destruct (Nat.eqb_spec (String.length (WithdrawalAddress v))
              (String.length (GoStrings.ToLower unicodeLower withdrawalAddress)))
    as [Hl|Hl]; [|discriminate].
  rewrite Hl. apply IsValidAddress_length. exact Hvalid.
Qed.

(** What [handleMemoryValidatorsByWithdrawal] answers: under every key, the
    oracle's record when it withdraws to the requested address, else an
    untracked record for a validator of the beacon chain that withdraws to
    it and may subscribe (a tracked record replaces the untracked one);
    then the events the oracle has not processed are applied to these
    records, unless there are none, and the records are answered in
    ascending order of their validator index. *)
Theorem handleMemoryValidatorsByWithdrawal_body (env : ByWithdrawal.Env)
  (withdrawalAddress : string) (body : list ValidatorInfo) :
  handleMemoryValidatorsByWithdrawal unicodeLower AddressString
    CanValidatorSubscribeToPool CollateralInWei GetEth1Address PublicKeyHex
    env withdrawalAddress = Returns (RespondOK body) ->
  exists onchain requested final,
    ByWithdrawal.OnchainValidators env = Some onchain /\
    (forall k,
       requested !! k
       = trackedOrUntrackedFor unicodeLower CanValidatorSubscribeToPool
           GetEth1Address PublicKeyHex (ByWithdrawal.StateValidators env)
           onchain (GoStrings.ToLower unicodeLower withdrawalAddress) k) /\
    ((requested = ∅ /\ final = ∅) \/
     (requested <> ∅ /\
      exists subs unsubs,
        ByWithdrawal.GetSubscriptionsTillHead env
          (wrap64 (ByWithdrawal.LatestProcessedBlock env + 1)) = Some subs /\
        ByWithdrawal.GetUnsubscriptionsTillHead env
          (wrap64 (ByWithdrawal.LatestProcessedBlock env + 1)) = Some unsubs /\
        ApplyNonFinalizedState unicodeLower AddressString
          CanValidatorSubscribeToPool CollateralInWei subs unsubs requested
        = Returns final)) /\
    Permutation body (map snd (map_to_list final)) /\
    StronglySorted (fun v1 v2 => ValidatorIndex v1 <= ValidatorIndex v2) body.
Proof.
  intros H.
  apply handleMemoryValidatorsByWithdrawal_OK_inv in H
    as (_ & _ & onchain & requested & Hon & Hreq & Hbody).
  pose proof (requestedValidators_lookup env onchain _ requested Hreq) as Hlook.
  destruct Hbody as [[-> ->] | (Hne & _ & subs & unsubs & final & Hs & Hu & Hfin & ->)].
  - exists onchain, ∅, ∅. split; [exact Hon|]. split; [exact Hlook|].
    split; [left; split; reflexivity|].
    rewrite map_to_list_empty. split; constructor.
  - exists onchain, requested, final. split; [exact Hon|]. split; [exact Hlook|].
    split; [right; split; [exact Hne|]; exists subs, unsubs; auto|].
    split; [apply sortBy_Permutation|].
    apply (sortBy_sorted ValidatorIndex).
Qed.

(** One record of the oracle whose withdrawal address has not 42 bytes
    ends the process at any request for a valid address, once the oracle
    is ready and the validators of the beacon chain are loaded:
    [AreAddressEqual] is called on every record of the oracle. *)
Theorem handleMemoryValidatorsByWithdrawal_fatal (env : ByWithdrawal.Env)
  (withdrawalAddress : string) (onchain : gmap Z BeaconValidator.t) (k : Z)
  (v : ValidatorInfo) :
  IsValidAddress (GoStrings.ToLower unicodeLower withdrawalAddress) = true ->
  OracleReady (ByWithdrawal.Finality env) (ByWithdrawal.LatestProcessedSlot env)
    (32 * 3) = Ready ->
  ByWithdrawal.OnchainValidators env = Some onchain ->
  ByWithdrawal.StateValidators env !! k = Some v ->
  String.length (WithdrawalAddress v) <> 42%nat ->
  handleMemoryValidatorsByWithdrawal unicodeLower AddressString
    CanValidatorSubscribeToPool CollateralInWei GetEth1Address PublicKeyHex
    env withdrawalAddress = Fatal.
Proof.
  intros Hvalid Hready Hon Hk Hlen.
  unfold handleMemoryValidatorsByWithdrawal.
  rewrite Hvalid, Hready, Hon. simpl negb. cbv iota.
  rewrite (requestedValidators_Fatal env onchain _ k v Hk); [reflexivity|].
  destruct (IsValidAddress_length _ Hvalid) as [-> _]. exact Hlen.
Qed.

(** The errors of [handleMemoryValidatorsByWithdrawal]: the code is 400
    exactly when the lowercased request is no valid address, and 500 for
    every other error. *)
Theorem handleMemoryValidatorsByWithdrawal_errors (env : ByWithdrawal.Env)
  (withdrawalAddress : string) :
  (IsValidAddress (GoStrings.ToLower unicodeLower withdrawalAddress) = false <->
   handleMemoryValidatorsByWithdrawal unicodeLower AddressString
     CanValidatorSubscribeToPool CollateralInWei GetEth1Address PublicKeyHex
     env withdrawalAddress
   = Returns (RespondError 400
                (InvalidWithdrawalAddress
                   (GoStrings.ToLower unicodeLower withdrawalAddress)))) /\
  (forall code message,
     handleMemoryValidatorsByWithdrawal unicodeLower AddressString
       CanValidatorSubscribeToPool CollateralInWei GetEth1Address PublicKeyHex
       env withdrawalAddress = Returns (RespondError code message) ->
     (code = 400 /\
      IsValidAddress (GoStrings.ToLower unicodeLower withdrawalAddress) = false)
     \/ (code = 500 /\
         IsValidAddress (GoStrings.ToLower unicodeLower withdrawalAddress) = true)).
Proof.
  unfold handleMemoryValidatorsByWithdrawal.
  destruct (IsValidAddress _); simpl negb; cbv iota.
  - split.
    + split; [discriminate|].
      destruct (OracleReady _ _ _); try discriminate.
      destruct (ByWithdrawal.OnchainValidators env) as [onchain|];
        [|discriminate].
      destruct (requestedValidators _ _ _ _ env onchain _) as [requested|];
        [|discriminate].
      cbn [bind]. destruct (size requested =? 0)%nat; [discriminate|].
      destruct (ByWithdrawal.LatestProcessedBlock env =? 0); [discriminate|].
      destruct (ByWithdrawal.GetSubscriptionsTillHead env _); [|discriminate].
      destruct (ByWithdrawal.GetUnsubscriptionsTillHead env _); [|discriminate].
      destruct (ApplyNonFinalizedState _ _ _ _ _ _ requested); discriminate.
    + intros code message H. right. split; [|reflexivity].
      destruct (OracleReady _ _ _);
        try (injection H as <- _; reflexivity).
      destruct (ByWithdrawal.OnchainValidators env) as [onchain|];
        [|injection H as <- _; reflexivity].
      destruct (requestedValidators _ _ _ _ env onchain _) as [requested|];
        [|discriminate].
      cbn [bind] in H. destruct (size requested =? 0)%nat; [discriminate|].
      destruct (ByWithdrawal.LatestProcessedBlock env =? 0);
        [injection H as <- _; reflexivity|].
      destruct (ByWithdrawal.GetSubscriptionsTillHead env _);
        [|injection H as <- _; reflexivity].
      destruct (ByWithdrawal.GetUnsubscriptionsTillHead env _);
        [|injection H as <- _; reflexivity].
      destruct (ApplyNonFinalizedState _ _ _ _ _ _ requested); discriminate.
  - split; [split; reflexivity|].
    intros code message H. left. injection H as <- _. split; reflexivity.
Qed.

End ByWithdrawalProperties.

Lemma exampleHandler_answers :
  exampleHandler {[ 1 := testValidator 1 Active 500 ]}
    "0x9427A30991170F917D7B83DEF6E44D26577871ED"
  = Returns (RespondOK exampleBody).
Proof. vm_compute. reflexivity. Qed.

Lemma handleMemoryValidatorsByWithdrawal_addresses_witness :
  IsValidAddress
    (GoStrings.ToLower (fun s => s) "0x9427A30991170F917D7B83DEF6E44D26577871ED")
  = true /\
  forall v, In v exampleBody ->
    AreAddressEqual (fun s => s) (WithdrawalAddress v)
      (GoStrings.ToLower (fun s => s)
         "0x9427A30991170F917D7B83DEF6E44D26577871ED") = Returns true /\
    String.length (WithdrawalAddress v) = 42%nat.
Proof.
  exact (handleMemoryValidatorsByWithdrawal_addresses (fun s => s) hexAddress
           canSubscribeUnlessSlashedOrExited 1000 exampleGetEth1Address
           (fun _ => EmptyString)
           (exampleEnv {[ 1 := testValidator 1 Active 500 ]})
           "0x9427A30991170F917D7B83DEF6E44D26577871ED" exampleBody
           exampleHandler_answers).
Defined.

Lemma handleMemoryValidatorsByWithdrawal_body_witness :
  exists onchain requested final,
    ByWithdrawal.OnchainValidators
      (exampleEnv {[ 1 := testValidator 1 Active 500 ]}) = Some onchain /\
    (forall k,
       requested !! k
       = trackedOrUntrackedFor (fun s => s) canSubscribeUnlessSlashedOrExited
           exampleGetEth1Address (fun _ => EmptyString)
           (ByWithdrawal.StateValidators
              (exampleEnv {[ 1 := testValidator 1 Active 500 ]}))
           onchain
           (GoStrings.ToLower (fun s => s)
              "0x9427A30991170F917D7B83DEF6E44D26577871ED") k) /\
    ((requested = ∅ /\ final = ∅) \/
     (requested <> ∅ /\
      exists subs unsubs,
        ByWithdrawal.GetSubscriptionsTillHead
          (exampleEnv {[ 1 := testValidator 1 Active 500 ]})
          (wrap64 (ByWithdrawal.LatestProcessedBlock
                     (exampleEnv {[ 1 := testValidator 1 Active 500 ]}) + 1))
        = Some subs /\
        ByWithdrawal.GetUnsubscriptionsTillHead
          (exampleEnv {[ 1 := testValidator 1 Active 500 ]})
          (wrap64 (ByWithdrawal.LatestProcessedBlock
                     (exampleEnv {[ 1 := testValidator 1 Active 500 ]}) + 1))
        = Some unsubs /\
        ApplyNonFinalizedState (fun s => s) hexAddress
          canSubscribeUnlessSlashedOrExited 1000 subs unsubs requested
        = Returns final)) /\
    Permutation exampleBody (map snd (map_to_list final)) /\
    StronglySorted (fun v1 v2 => ValidatorIndex v1 <= ValidatorIndex v2)
      exampleBody.
Proof.
  exact (handleMemoryValidatorsByWithdrawal_body (fun s => s) hexAddress
           canSubscribeUnlessSlashedOrExited 1000 exampleGetEth1Address
           (fun _ => EmptyString)
           (exampleEnv {[ 1 := testValidator 1 Active 500 ]})
           "0x9427A30991170F917D7B83DEF6E44D26577871ED" exampleBody
           exampleHandler_answers).
Defined.

Lemma handleMemoryValidatorsByWithdrawal_fatal_witness :
  exampleHandler
    {[ 1 := {| ValidatorStatus := Active;
               AccumulatedRewardsWei := 0;
               PendingRewardsWei := 0;
               CollateralWei := 0;
               WithdrawalAddress := "0x00";
               ValidatorIndex := 1;
               ValidatorKey := "";
               ValidatorProposedBlocks := [];
               ValidatorMissedBlocks := [];
               ValidatorWrongFeeBlocks := [] |} ]}
    "0x9427a30991170f917d7b83def6e44d26577871ed"
  = Fatal.
Proof.
  set (v := {| ValidatorStatus := Active;
               AccumulatedRewardsWei := 0;
               PendingRewardsWei := 0;
               CollateralWei := 0;
               WithdrawalAddress := "0x00";
               ValidatorIndex := 1;
               ValidatorKey := "";
               ValidatorProposedBlocks := [];
               ValidatorMissedBlocks := [];
               ValidatorWrongFeeBlocks := [] |}).
  assert (Hk : ByWithdrawal.StateValidators (exampleEnv {[ 1 := v ]}) !! 1
               = Some v) by reflexivity.
  assert (Hon : ByWithdrawal.OnchainValidators (exampleEnv {[ 1 := v ]})
                = Some {[ 2 := {| BeaconValidator.Index := 2;
                                  BeaconValidator.Status := ValidatorStateActiveOngoing;
                                  BeaconValidator.WithdrawalCredentials :=
                                    exampleCredentials testSender |} ]})
    by reflexivity.
  assert (Hvalid : IsValidAddress
            (GoStrings.ToLower (fun s => s)
               "0x9427a30991170f917d7b83def6e44d26577871ed") = true)
    by reflexivity.
  assert (Hready : OracleReady (ByWithdrawal.Finality (exampleEnv {[ 1 := v ]}))
            (ByWithdrawal.LatestProcessedSlot (exampleEnv {[ 1 := v ]}))
            (32 * 3) = Ready) by (vm_compute; reflexivity).
  assert (Hlen : String.length (WithdrawalAddress v) <> 42%nat)
    by (simpl; lia).
  exact (handleMemoryValidatorsByWithdrawal_fatal (fun s => s) hexAddress
           canSubscribeUnlessSlashedOrExited 1000 exampleGetEth1Address
           (fun _ => EmptyString) (exampleEnv {[ 1 := v ]})
           "0x9427a30991170f917d7b83def6e44d26577871ed" _ 1 v
           Hvalid Hready Hon Hk Hlen).
Defined.

(** ** [handleOnchainMerkleProof] *)

Lemma fold_left_append_keys {A : Type} (p : A -> bool) (l : list (Z * A))
  (acc : list Z) :
  fold_left (fun registered entry =>
               if p (snd entry) then registered ++ [fst entry] else registered)
    l acc
  = acc ++ map fst (List.filter (fun e => p (snd e)) l).
Proof.
  revert acc. induction l as [|e l IH]; intros acc; simpl.
  - now rewrite app_nil_r.
  - rewrite IH. destruct (p (snd e)); simpl; [|reflexivity].
    now rewrite <- app_assoc.
Qed.

Lemma fold_left_add_values {A : Type} (p : A -> bool) (w : A -> Z)
  (l : list (Z * A)) (acc : Z) :
  fold_left (fun total entry =>
               if p (snd entry) then total + w (snd entry) else total)
    l acc
  = acc + fold_right Z.add 0
            (map (fun e => w (snd e)) (List.filter (fun e => p (snd e)) l)).
Proof.
  revert acc. induction l as [|e l IH]; intros acc; simpl; [lia|].
  rewrite IH. destruct (p (snd e)); simpl; lia.
Qed.

Lemma NoDup_map_fst_filter {A : Type} (p : Z * A -> bool) (l : list (Z * A)) :
  List.NoDup (map fst l) -> List.NoDup (map fst (List.filter p l)).
Proof.
  induction l as [|e l IH]; simpl; intros H; [constructor|].
  inversion H as [|? ? Hnotin Hnd]; subst.
  destruct (p e); simpl; [|apply IH, Hnd].
  constructor; [|apply IH, Hnd].
  intros Hin. apply Hnotin. apply in_map_iff in Hin as (e' & He' & Hin).
  apply filter_In in Hin as [Hin _]. apply in_map_iff. exists e'. auto.
Qed.

Section MerkleProofProperties.
Variable unicodeLower : string -> string.

Lemma registeredValidators_filter (validators : gmap Z ValidatorInfo)
  (withdrawalAddress : string) :
  registeredValidators unicodeLower validators withdrawalAddress
  = map fst
      (List.filter
         (fun e => withdrawsToLower unicodeLower withdrawalAddress (snd e))
         (map_to_list validators)).
Proof. unfold registeredValidators. now rewrite fold_left_append_keys. Qed.

Lemma registeredValidators_In (validators : gmap Z ValidatorInfo)
  (withdrawalAddress : string) (k : Z) :
  In k (registeredValidators unicodeLower validators withdrawalAddress) <->
  exists v, validators !! k = Some v /\
            GoStrings.ToLower unicodeLower (WithdrawalAddress v)
            = GoStrings.ToLower unicodeLower withdrawalAddress.
Proof.
  rewrite registeredValidators_filter, in_map_iff. split.
  - intros ([k' v] & Hk & Hin). simpl in Hk. subst k'.
    apply filter_In in Hin as [Hin Hp].
    apply list_elem_of_In, elem_of_map_to_list in Hin.
    exists v. split; [exact Hin|]. apply String.eqb_eq. exact Hp.
  - intros (v & Hk & Hp). exists (k, v). split; [reflexivity|].
    apply filter_In. split.
    + apply list_elem_of_In, elem_of_map_to_list. exact Hk.
    + apply String.eqb_eq. exact Hp.
Qed.

Lemma registeredValidators_NoDup (validators : gmap Z ValidatorInfo)
  (withdrawalAddress : string) :
  List.NoDup (registeredValidators unicodeLower validators withdrawalAddress).
Proof.
  rewrite registeredValidators_filter. apply NoDup_map_fst_filter.
  pose proof (NoDup_fst_map_to_list validators) as H.
  apply NoDup_ListNoDup in H.
  replace (map fst (map_to_list validators))
    with ((map_to_list validators).*1); [exact H|].
  generalize (map_to_list validators). intros l.
  induction l as [|e l IH]; simpl; [reflexivity | f_equal; exact IH].
Qed.

Lemma totalPending_pendingOf (validators : gmap Z ValidatorInfo)
  (withdrawalAddress : string) :
  totalPending unicodeLower validators withdrawalAddress
  = pendingOf validators
      (registeredValidators unicodeLower validators withdrawalAddress).
Proof.
  unfold totalPending, pendingOf.
  rewrite (fold_left_add_values
             (withdrawsToLower unicodeLower withdrawalAddress) PendingRewardsWei).
  rewrite registeredValidators_filter, map_map, Z.add_0_l. f_equal.
  apply map_ext_in. intros [k v] Hin. simpl.
  apply filter_In in Hin as [Hin _].
  apply list_elem_of_In, elem_of_map_to_list in Hin. now rewrite Hin.
Qed.

(** [handleOnchainMerkleProof] answers a proof exactly when the request is
    a valid address, the oracle is at most 32 slots behind the finalized
    slot, the contract's Merkle root could be read and is the root of the
    oracle's latest committed state, that state has a proof and a leaf
    under the lowercased address, and the claimed balance could be
    read. *)
Theorem handleOnchainMerkleProof_answers (env : MerkleProof.Env)
  (withdrawalAddress : string) :
  (exists ok, handleOnchainMerkleProof unicodeLower env withdrawalAddress
              = RespondOK ok) <->
  IsValidAddress withdrawalAddress = true /\
  OracleReady (MerkleProof.Finality env) (MerkleProof.LatestProcessedSlot env)
    32 = Ready /\
  MerkleProof.GetContractMerkleRoot env
  = Some (MerkleProof.CommittedMerkleRoot env) /\
  is_Some (MerkleProof.CommittedProofs env
             !! GoStrings.asciiLower withdrawalAddress) /\
  is_Some (MerkleProof.CommittedLeafs env
             !! GoStrings.asciiLower withdrawalAddress) /\
  is_Some (MerkleProof.GetContractClaimedBalance env
             (GoStrings.asciiLower withdrawalAddress)).
Proof.
  unfold handleOnchainMerkleProof.
  destruct (IsValidAddress withdrawalAddress) eqn:Hvalid; simpl negb; cbv iota.
  2:{ split; [intros [ok H]; discriminate | intros [H _]; discriminate]. }
  destruct (IsValidAddress_length _ Hvalid) as [_ Hascii].
  rewrite (ToLower_ascii unicodeLower _ Hascii).
  change (32 * 1) with 32.
  destruct (OracleReady _ _ 32).
  2,3: split; [intros [ok H]; discriminate | intros (_ & H & _); discriminate].
  destruct (MerkleProof.GetContractMerkleRoot env) as [contractRoot|].
  2:{ split; [intros [ok H]; discriminate | intros (_ & _ & H & _); discriminate]. }
  destruct (String.eqb_spec contractRoot (MerkleProof.CommittedMerkleRoot env))
    as [->|Hne]; simpl negb; cbv iota.
  2:{ split; [intros [ok H]; discriminate|].
      intros (_ & _ & H & _). injection H as H. contradiction. }
  destruct (MerkleProof.CommittedProofs env !! _) as [proofs|].
  2:{ split; [intros [ok H]; discriminate|].
      intros (_ & _ & _ & [x H] & _). discriminate. }
  destruct (MerkleProof.CommittedLeafs env !! _) as [leafs|].
  2:{ split; [intros [ok H]; discriminate|].
      intros (_ & _ & _ & _ & [x H] & _). discriminate. }
  destruct (MerkleProof.GetContractClaimedBalance env _) as [claimed|].
  2:{ split; [intros [ok H]; discriminate|].
      intros (_ & _ & _ & _ & _ & [x H]). discriminate. }
  split; [|intros _; eexists; reflexivity].
  intros _. repeat split; eauto.
Qed.

(** What a proof answered by [handleOnchainMerkleProof] holds: the root of
    the latest committed state, which is the contract's; the proof and the
    balance of the leaf under the lowercased address; as claimable rewards
    that balance minus the balance already claimed; as registered
    validators, each once, the keys of the committed validators whose
    lowercased withdrawal address is the lowercased request; and as
    pending rewards the sum of the pending rewards of those validators. *)
Theorem handleOnchainMerkleProof_body (env : MerkleProof.Env)
  (withdrawalAddress : string) (ok : MerkleProof.httpOkProofs) :
  handleOnchainMerkleProof unicodeLower env withdrawalAddress = RespondOK ok ->
  MerkleProof.GetContractMerkleRoot env = Some (MerkleProof.MerkleRoot ok) /\
  MerkleProof.CommittedMerkleRoot env = MerkleProof.MerkleRoot ok /\
  MerkleProof.CommittedProofs env !! GoStrings.asciiLower withdrawalAddress
  = Some (MerkleProof.Proofs ok) /\
  (exists leafs,
     MerkleProof.CommittedLeafs env !! GoStrings.asciiLower withdrawalAddress
     = Some leafs /\
     MerkleProof.TotalAccumulatedRewardsWei ok
     = CommittedLeaf.AccumulatedBalance leafs) /\
  MerkleProof.GetContractClaimedBalance env
    (GoStrings.asciiLower withdrawalAddress)
  = Some (MerkleProof.AlreadyClaimedRewardsWei ok) /\
  MerkleProof.ClaimableRewardsWei ok
  = MerkleProof.TotalAccumulatedRewardsWei ok
    - MerkleProof.AlreadyClaimedRewardsWei ok /\
  List.NoDup (MerkleProof.RegisteredValidators ok) /\
  (forall k, In k (MerkleProof.RegisteredValidators ok) <->
     exists v, MerkleProof.CommittedValidators env !! k = Some v /\
               GoStrings.ToLower unicodeLower (WithdrawalAddress v)
               = GoStrings.asciiLower withdrawalAddress) /\
  MerkleProof.PendingRewardsWei ok
  = pendingOf (MerkleProof.CommittedValidators env)
      (MerkleProof.RegisteredValidators ok).
Proof.
  unfold handleOnchainMerkleProof.
  destruct (IsValidAddress withdrawalAddress) eqn:Hvalid; simpl negb; cbv iota;
    [|discriminate].
  destruct (IsValidAddress_length _ Hvalid) as [_ Hascii].
  rewrite (ToLower_ascii unicodeLower _ Hascii).
  destruct (OracleReady _ _ _); try discriminate.
  destruct (MerkleProof.GetContractMerkleRoot env) as [contractRoot|];
    [|discriminate].
  destruct (String.eqb_spec contractRoot (MerkleProof.CommittedMerkleRoot env))
    as [->|Hne]; simpl negb; cbv iota; [|discriminate].
  destruct (MerkleProof.CommittedProofs env !! _) as [proofs|]; [|discriminate].
  destruct (MerkleProof.CommittedLeafs env !! _) as [leafs|]; [|discriminate].
  destruct (MerkleProof.GetContractClaimedBalance env _) as [claimed|];
    [|discriminate].
  intros H. injection H as <-. cbn.
  assert (Hlow : GoStrings.ToLower unicodeLower
                   (GoStrings.asciiLower withdrawalAddress)
                 = GoStrings.asciiLower withdrawalAddress).
  { rewrite ToLower_ascii by (now rewrite asciiLower_isASCII).
    apply asciiLower_idem. }
  split; [reflexivity|]. split; [reflexivity|]. split; [reflexivity|].
  split; [exists leafs; split; reflexivity|].
  split; [reflexivity|]. split; [reflexivity|].
  split; [apply registeredValidators_NoDup|].
  split; [|apply totalPending_pendingOf].
  intros k. rewrite registeredValidators_In, Hlow. reflexivity.
Qed.


End MerkleProofProperties.

Lemma exampleProofEnv_answers :
  handleOnchainMerkleProof (fun s => s) exampleProofEnv
    "0x9427A30991170F917D7B83DEF6E44D26577871ED"
  = RespondOK exampleProofs.
Proof. vm_compute. reflexivity. Qed.

Lemma handleOnchainMerkleProof_body_witness :
  MerkleProof.ClaimableRewardsWei exampleProofs
  = MerkleProof.TotalAccumulatedRewardsWei exampleProofs
    - MerkleProof.AlreadyClaimedRewardsWei exampleProofs /\
  MerkleProof.PendingRewardsWei exampleProofs
  = pendingOf (MerkleProof.CommittedValidators exampleProofEnv)
      (MerkleProof.RegisteredValidators exampleProofs).
Proof.
  destruct (handleOnchainMerkleProof_body (fun s => s) exampleProofEnv
              "0x9427A30991170F917D7B83DEF6E44D26577871ED" exampleProofs
              exampleProofEnv_answers)
    as (_ & _ & _ & _ & _ & Hclaim & _ & _ & Hpending).
  split; [exact Hclaim | exact Hpending].
Defined.


(** ** [handleMemoryStatistics] *)

Lemma fold_left_bump (st : ValStatus) (l : list ValidatorInfo) (n : Z) :
  0 <= n -> n + Z.of_nat (length l) < 2 ^ 64 ->
  fold_left (fun n v => if ValStatus_eqb (ValidatorStatus v) st
                        then wrap64 (n + 1) else n) l n
  = n + Z.of_nat
          (length (List.filter (fun v => ValStatus_eqb (ValidatorStatus v) st) l)).
Proof.
  revert n. induction l as [|v l IH]; intros n Hn Hlt.
  - simpl. lia.
  - cbn [fold_left List.filter]. cbn [length] in Hlt.
    destruct (ValStatus_eqb (ValidatorStatus v) st).
    + rewrite wrap64_small by lia. rewrite IH by lia. cbn [length]. lia.
    + rewrite IH by lia. lia.
Qed.

Lemma fold_left_sum {A : Type} (w : A -> Z) (l : list A) (n : Z) :
  fold_left (fun total a => total + w a) l n = n + sumOf w l.
Proof.
  unfold sumOf. revert n. induction l as [|a l IH]; intros n; simpl; [lia|].
  rewrite IH. lia.
Qed.

Lemma fold_left_countValidator (l : list ValidatorInfo) (t : Statistics.totals) :
  let bump st n :=
    fold_left (fun n v => if ValStatus_eqb (ValidatorStatus v) st
                          then wrap64 (n + 1) else n) l n in
  fold_left countValidator l t
  = {| Statistics.totalActive := bump Active (Statistics.totalActive t);
       Statistics.totalYellowCard := bump YellowCard (Statistics.totalYellowCard t);
       Statistics.totalRedCard := bump RedCard (Statistics.totalRedCard t);
       Statistics.totalBanned := bump Banned (Statistics.totalBanned t);
       Statistics.totalNotSubscribed :=
         bump NotSubscribed (Statistics.totalNotSubscribed t);
       Statistics.totalAccumulatedRewards :=
         fold_left (fun total v => total + AccumulatedRewardsWei v) l
           (Statistics.totalAccumulatedRewards t);
       Statistics.totalPendingRewards :=
         fold_left (fun total v => total + PendingRewardsWei v) l
           (Statistics.totalPendingRewards t) |}.
Proof.
  revert t. induction l as [|v l IH]; intros t; simpl.
  - destruct t; reflexivity.
  - rewrite IH. reflexivity.
Qed.

Lemma length_filter_status (l : list ValidatorInfo) :
  let n st := Z.of_nat
    (length (List.filter (fun v => ValStatus_eqb (ValidatorStatus v) st) l)) in
  n Active + n YellowCard + n RedCard + n Banned + n NotSubscribed + n Untracked
  = Z.of_nat (length l).
Proof.
  induction l as [|v l IH]; [reflexivity|].
  cbn [List.filter length] in *. 
  destruct (ValidatorStatus v); cbn [ValStatus_eqb length] in *; lia.
Qed.

Lemma length_filter_le {A : Type} (p : A -> bool) (l : list A) :
  (length (List.filter p l) <= length l)%nat.
Proof.
  induction l as [|a l IH]; simpl; [lia|]. destruct (p a); simpl; lia.
Qed.

(** [handleMemoryStatistics] counts, for each of the statuses Active,
    YellowCard, RedCard, Banned and NotSubscribed, the validators of the
    state in that status; the subscribed are the first three together;
    untracked validators are in no count, so the counts and the untracked
    add up to the number of validators.  The rewards are summed over all
    validators, and the average block reward is the sum of the rewards of
    the proposed blocks divided by their number and rounded down, or zero
    when no block was proposed. *)
Theorem handleMemoryStatistics_spec (CheckPointSizeInSlots : Z) (s : OracleState) :
  Z.of_nat (size (Validators s)) < 2 ^ 64 ->
  let st := handleMemoryStatistics CheckPointSizeInSlots s in
  Statistics.TotalActive st = countStatus Active s /\
  Statistics.TotalYellowCard st = countStatus YellowCard s /\
  Statistics.TotalRedCard st = countStatus RedCard s /\
  Statistics.TotalBanned st = countStatus Banned s /\
  Statistics.TotalNotSubscribed st = countStatus NotSubscribed s /\
  Statistics.TotalSubscribed st
  = Statistics.TotalActive st + Statistics.TotalYellowCard st
    + Statistics.TotalRedCard st /\
  Statistics.TotalSubscribed st + Statistics.TotalBanned st
  + Statistics.TotalNotSubscribed st + countStatus Untracked s
  = Z.of_nat (size (Validators s)) /\
  Statistics.TotalAccumulatedRewardsWei st
  = sumOf AccumulatedRewardsWei (map snd (map_to_list (Validators s))) /\
  Statistics.TotalPendingRewaradsWei st
  = sumOf PendingRewardsWei (map snd (map_to_list (Validators s))) /\
  Statistics.TotalRewardsSentWei st = sumOf Block.Reward (ProposedBlocks s) /\
  (ProposedBlocks s = [] -> Statistics.AvgBlockRewardWei st = 0) /\
  (ProposedBlocks s <> [] ->
     Statistics.AvgBlockRewardWei st * Statistics.TotalProposedBlocks st
       <= Statistics.TotalRewardsSentWei st
       < (Statistics.AvgBlockRewardWei st + 1) * Statistics.TotalProposedBlocks st).
Proof.
  intros Hsize st. subst st. unfold handleMemoryStatistics, countStatus.
  rewrite fold_left_countValidator. cbn.
  set (l := map snd (map_to_list (Validators s))).
  assert (Hlen : Z.of_nat (length l) = Z.of_nat (size (Validators s))).
  { unfold l. now rewrite length_map, length_map_to_list. }
  pose proof (length_filter_status l) as Hsum. cbn in Hsum.
  rewrite !fold_left_bump by lia. rewrite !fold_left_sum, !Z.add_0_l.
  pose proof (length_filter_le
                (fun v => ValStatus_eqb (ValidatorStatus v) Active) l).
  pose proof (length_filter_le
                (fun v => ValStatus_eqb (ValidatorStatus v) YellowCard) l).
  pose proof (length_filter_le
                (fun v => ValStatus_eqb (ValidatorStatus v) RedCard) l).
  set (nA := Z.of_nat (length (List.filter
                (fun v => ValStatus_eqb (ValidatorStatus v) Active) l))) in *.
  set (nY := Z.of_nat (length (List.filter
                (fun v => ValStatus_eqb (ValidatorStatus v) YellowCard) l))) in *.
  set (nR := Z.of_nat (length (List.filter
                (fun v => ValStatus_eqb (ValidatorStatus v) RedCard) l))) in *.
  rewrite (wrap64_small (nA + nY)) by lia.
  rewrite (wrap64_small (nA + nY + nR)) by lia.
  repeat split; try lia.
  - intros ->. reflexivity.
  - destruct (ProposedBlocks s) as [|b bs] eqn:Hb; [contradiction|].
    destruct (Z.eqb_spec (Z.of_nat (length (b :: bs))) 0) as [Hz|Hz];
      [cbn [length] in Hz; lia|]. simpl negb. cbv iota.
    rewrite Z.mul_comm. apply Z.mul_div_le. cbn [length]. lia.
  - destruct (ProposedBlocks s) as [|b bs] eqn:Hb; [contradiction|].
    destruct (Z.eqb_spec (Z.of_nat (length (b :: bs))) 0) as [Hz|Hz];
      [cbn [length] in Hz; lia|]. simpl negb. cbv iota.
    rewrite Z.mul_comm. rewrite Z.mul_add_distr_l, Z.mul_1_r.
    pose proof (Z.mod_pos_bound (sumOf Block.Reward (b :: bs))
                  (Z.of_nat (length (b :: bs)))) as Hm.
    pose proof (Z.div_mod (sumOf Block.Reward (b :: bs))
                  (Z.of_nat (length (b :: bs))) Hz) as Hd.
    cbn [length] in *. lia.
Qed.

Lemma handleMemoryStatistics_spec_witness :
  Statistics.TotalSubscribed (handleMemoryStatistics 32 exampleStatisticsState)
  + Statistics.TotalBanned (handleMemoryStatistics 32 exampleStatisticsState)
  + Statistics.TotalNotSubscribed (handleMemoryStatistics 32 exampleStatisticsState)
  + countStatus Untracked exampleStatisticsState
  = Z.of_nat (size (Validators exampleStatisticsState)).
Proof.
  assert (Hsize : Z.of_nat (size (Validators exampleStatisticsState)) < 2 ^ 64)
    by (vm_compute; reflexivity).
  destruct (handleMemoryStatistics_spec 32 exampleStatisticsState Hsize)
    as (_ & _ & _ & _ & _ & _ & H & _).
  exact H.
Defined.

(** ** [handleValidatorRelayers] *)

Section RelayersProperties.
Variable unicodeLower : string -> string.
Variables MainnetRelays GoerliRelays : list string.
Variable PoolAddress : string.
Variable Get : string -> string -> RelayReply.

Local Abbreviation class := (relayClass unicodeLower PoolAddress Get).
Local Abbreviation ofClass := (relaysOfClass unicodeLower PoolAddress Get).

Lemma askRelays_spec (valPubKey : string) (relays : list string)
  (l : Relayers.lists) :
  match askRelays unicodeLower PoolAddress Get valPubKey relays l with
  | inr l' =>
      List.Forall (fun relay => class valPubKey relay <> RelayFailed) relays /\
      map Relayers.RelayAddress (Relayers.correctFeeRelays l')
      = map Relayers.RelayAddress (Relayers.correctFeeRelays l)
        ++ ofClass valPubKey RegisteredToPool relays /\
      map Relayers.RelayAddress (Relayers.wrongFeeRelays l')
      = map Relayers.RelayAddress (Relayers.wrongFeeRelays l)
        ++ ofClass valPubKey RegisteredElsewhere relays /\
      map Relayers.RelayAddress (Relayers.unregisteredRelays l')
      = map Relayers.RelayAddress (Relayers.unregisteredRelays l)
        ++ ofClass valPubKey NotRegistered relays
  | inl message =>
      message = CouldNotCallRelayer /\
      List.Exists (fun relay => class valPubKey relay = RelayFailed) relays
  end.
Proof.
  revert l. induction relays as [|relay relays IH]; intros l.
  - simpl. rewrite !app_nil_r. repeat split; constructor.
  - cbn [askRelays]. unfold relaysOfClass. cbn [List.filter].
    fold (ofClass valPubKey RegisteredToPool relays).
    fold (ofClass valPubKey RegisteredElsewhere relays).
    fold (ofClass valPubKey NotRegistered relays).
    unfold askRelay.
    destruct (Get relay valPubKey) as [| | | |fee ts] eqn:Hget.
    + split; [reflexivity|]. left. unfold relayClass. now rewrite Hget.
    + assert (Hcls : class valPubKey relay = NotRegistered)
        by (unfold relayClass; now rewrite Hget).
      rewrite Hcls. cbn [RelayClass_eqb].
      specialize (IH {| Relayers.correctFeeRelays := Relayers.correctFeeRelays l;
                        Relayers.wrongFeeRelays := Relayers.wrongFeeRelays l;
                        Relayers.unregisteredRelays :=
                          Relayers.unregisteredRelays l
                          ++ [Relayers.mkRelay relay EmptyString None] |}).
      destruct (askRelays _ _ _ valPubKey relays _) as [msg|l'].
      * destruct IH as [-> IH]. split; [reflexivity | now right].
      * destruct IH as (Hall & Hc & Hw & Hu). cbn in Hc, Hw, Hu |- *.
        split; [constructor; [rewrite Hcls; discriminate | exact Hall]|].
        split; [exact Hc|]. split; [exact Hw|].
        rewrite Hu, map_app, <- app_assoc. reflexivity.
    + split; [reflexivity|]. left. unfold relayClass. now rewrite Hget.
    + split; [reflexivity|]. left. unfold relayClass. now rewrite Hget.
    + destruct (String.eqb (GoStrings.ToLower unicodeLower fee)
                  (GoStrings.ToLower unicodeLower PoolAddress)) eqn:Hfee.
      * assert (Hcls : class valPubKey relay = RegisteredToPool)
          by (unfold relayClass; now rewrite Hget, Hfee).
        rewrite Hcls. cbn [RelayClass_eqb].
        specialize (IH {| Relayers.correctFeeRelays :=
                            Relayers.correctFeeRelays l
                            ++ [Relayers.mkRelay relay fee (Some ts)];
                          Relayers.wrongFeeRelays := Relayers.wrongFeeRelays l;
                          Relayers.unregisteredRelays :=
                            Relayers.unregisteredRelays l |}).
        destruct (askRelays _ _ _ valPubKey relays _) as [msg|l'].
        -- destruct IH as [-> IH]. split; [reflexivity | now right].
        -- destruct IH as (Hall & Hc & Hw & Hu). cbn in Hc, Hw, Hu |- *.
           split; [constructor; [rewrite Hcls; discriminate | exact Hall]|].
           split; [rewrite Hc, map_app, <- app_assoc; reflexivity|].
           split; [exact Hw | exact Hu].
      * assert (Hcls : class valPubKey relay = RegisteredElsewhere)
          by (unfold relayClass; now rewrite Hget, Hfee).
        rewrite Hcls. cbn [RelayClass_eqb].
        specialize (IH {| Relayers.correctFeeRelays := Relayers.correctFeeRelays l;
                          Relayers.wrongFeeRelays :=
                            Relayers.wrongFeeRelays l
                            ++ [Relayers.mkRelay relay fee (Some ts)];
                          Relayers.unregisteredRelays :=
                            Relayers.unregisteredRelays l |}).
        destruct (askRelays _ _ _ valPubKey relays _) as [msg|l'].
        -- destruct IH as [-> IH]. split; [reflexivity | now right].
        -- destruct IH as (Hall & Hc & Hw & Hu). cbn in Hc, Hw, Hu |- *.
           split; [constructor; [rewrite Hcls; discriminate | exact Hall]|].
           split; [exact Hc|].
           split; [rewrite Hw, map_app, <- app_assoc; reflexivity | exact Hu].
Qed.

(** [handleValidatorRelayers] answers the registrations exactly when the
    key passes [IsValidPubkey], the network is mainnet or goerli, and every
    relay of the network answered the call with a registration or with a
    status other than 200; one relay that cannot be reached, or whose
    answer cannot be read, fails the whole request.  Every error,
    including the invalid key, has the code 500. *)
Theorem handleValidatorRelayers_answers (Network valPubKey : string) :
  ((exists ok,
      handleValidatorRelayers unicodeLower MainnetRelays GoerliRelays
        PoolAddress Get Network valPubKey = RespondOK ok) <->
   IsValidPubkey valPubKey = true /\
   exists relays,
     relaysOfNetwork MainnetRelays GoerliRelays Network = Some relays /\
     List.Forall
       (fun relay =>
          relayClass unicodeLower PoolAddress Get valPubKey relay <> RelayFailed)
       relays) /\
  (forall code message,
     handleValidatorRelayers unicodeLower MainnetRelays GoerliRelays
       PoolAddress Get Network valPubKey = RespondError code message ->
     code = 500).
Proof.
  unfold handleValidatorRelayers, relaysOfNetwork.
  destruct (IsValidPubkey valPubKey); simpl negb; cbv iota.
  2:{ split; [split; [intros [ok H]; discriminate | intros [H _]; discriminate]|].
      intros code message H. now injection H as <- _. }
  destruct (if String.eqb Network "mainnet" then Some MainnetRelays
            else if String.eqb Network "goerli" then Some GoerliRelays
            else None) as [relays|].
  2:{ split; [split; [intros [ok H]; discriminate
                     | intros [_ (relays & H & _)]; discriminate]|].
      intros code message H. now injection H as <- _. }
  pose proof (askRelays_spec valPubKey relays (Relayers.mkLists [] [] [])) as Hspec.
  destruct (askRelays _ _ _ valPubKey relays _) as [msg|l].
  - destruct Hspec as [_ Hex]. split.
    + split; [intros [ok H]; discriminate|].
      intros [_ (relays' & Hr & Hall)]. injection Hr as <-.
      apply List.Exists_exists in Hex as (relay & Hin & Hfail).
      rewrite List.Forall_forall in Hall. exfalso. exact (Hall relay Hin Hfail).
    + intros code message H. now injection H as <- _.
  - destruct Hspec as [Hall _]. split.
    + split; [|intros _; eexists; reflexivity].
      intros _. split; [reflexivity|]. exists relays. split; [reflexivity | exact Hall].
    + intros code message H. discriminate.
Qed.

(** What [handleValidatorRelayers] answers: the relays of the network, in
    their order, sorted into those where the key is registered with the
    pool's address as fee recipient (compared in lower case), those where
    it is registered with another one, and those that answered with a
    status other than 200.  The fee recipients are reported correct when
    at least one relay has the pool's address and none has another. *)
Theorem handleValidatorRelayers_body (Network valPubKey : string)
  (ok : Relayers.httpOkRelayersState) :
  handleValidatorRelayers unicodeLower MainnetRelays GoerliRelays PoolAddress
    Get Network valPubKey = RespondOK ok ->
  exists relays,
    relaysOfNetwork MainnetRelays GoerliRelays Network = Some relays /\
    map Relayers.RelayAddress (Relayers.CorrectFeeRelays ok)
    = relaysOfClass unicodeLower PoolAddress Get valPubKey RegisteredToPool
        relays /\
    map Relayers.RelayAddress (Relayers.WrongFeeRelays ok)
    = relaysOfClass unicodeLower PoolAddress Get valPubKey RegisteredElsewhere
        relays /\
    map Relayers.RelayAddress (Relayers.UnregisteredRelays ok)
    = relaysOfClass unicodeLower PoolAddress Get valPubKey NotRegistered
        relays /\
    (Relayers.CorrectFeeRecipients ok = true <->
     (exists relay, In relay relays /\
        relayClass unicodeLower PoolAddress Get valPubKey relay
        = RegisteredToPool) /\
     (forall relay, In relay relays ->
        relayClass unicodeLower PoolAddress Get valPubKey relay
        <> RegisteredElsewhere)).
Proof.
  unfold handleValidatorRelayers, relaysOfNetwork.
  destruct (IsValidPubkey valPubKey); simpl negb; cbv iota; [|discriminate].
  destruct (if String.eqb Network "mainnet" then Some MainnetRelays
            else if String.eqb Network "goerli" then Some GoerliRelays
            else None) as [relays|]; [|discriminate].
  pose proof (askRelays_spec valPubKey relays (Relayers.mkLists [] [] [])) as Hspec.
  destruct (askRelays _ _ _ valPubKey relays _) as [msg|l]; [discriminate|].
  destruct Hspec as (_ & Hc & Hw & Hu). cbn in Hc, Hw, Hu.
  intros H. injection H as <-.
  cbn [Relayers.CorrectFeeRecipients Relayers.CorrectFeeRelays
       Relayers.WrongFeeRelays Relayers.UnregisteredRelays].
  exists relays. split; [reflexivity|].
  split; [exact Hc|]. split; [exact Hw|]. split; [exact Hu|].
  rewrite andb_true_iff, Nat.eqb_eq, Nat.ltb_lt.
  rewrite <- (length_map Relayers.RelayAddress (Relayers.wrongFeeRelays l)).
  rewrite <- (length_map Relayers.RelayAddress (Relayers.correctFeeRelays l)).
  rewrite Hc, Hw. unfold relaysOfClass. cbn [length app].
  set (fc := List.filter
               (fun relay => RelayClass_eqb (class valPubKey relay)
                               RegisteredToPool) relays).
  set (fw := List.filter
               (fun relay => RelayClass_eqb (class valPubKey relay)
                               RegisteredElsewhere) relays).
  assert (Hfc : forall relay, In relay fc <->
                  In relay relays /\ class valPubKey relay = RegisteredToPool).
  { intros relay. unfold fc. rewrite filter_In.
    destruct (class valPubKey relay); simpl; intuition discriminate. }
  assert (Hfw : forall relay, In relay fw <->
                  In relay relays /\ class valPubKey relay = RegisteredElsewhere).
  { intros relay. unfold fw. rewrite filter_In.
    destruct (class valPubKey relay); simpl; intuition discriminate. }
  clearbody fc fw. split.
  - intros [Hnone Hsome]. split.
    + destruct fc as [|relay rest]; [simpl in Hsome; lia|].
      exists relay. apply Hfc. now left.
    + intros relay Hin Hcls. apply length_zero_iff_nil in Hnone. subst fw.
      apply (proj2 (Hfw relay)). split; assumption.
  - intros [(relay & Hin & Hcls) Hnone]. split.
    + destruct fw as [|r rest]; [reflexivity|]. exfalso.
      destruct (proj1 (Hfw r) (or_introl eq_refl)) as [Hin' Hcls'].
      exact (Hnone r Hin' Hcls').
    + assert (Hin' : In relay fc) by (apply Hfc; split; assumption).
      destruct fc; [inversion Hin' | simpl; lia].
Qed.

End RelayersProperties.

(** ** [GetDepositAddressOfValidator] *)

(** [GetDepositAddressOfValidator] returns for every slot: the address the
    database has for the key, and else one of the seven fallback
    addresses, each a valid address, the same one for two slots that
    differ by a multiple of seven.  The index into the fallback list is
    never out of range. *)
Theorem GetDepositAddressOfValidator_spec (dbReply : option string) (slot : Z) :
  exists depositAddress,
    GetDepositAddressOfValidator dbReply slot = Some depositAddress /\
    (dbReply = Some depositAddress \/
     (dbReply = None /\ In depositAddress someDepositAddresses /\
      IsValidAddress depositAddress = true)) /\
    (forall slot', slot' mod 7 = slot mod 7 ->
       GetDepositAddressOfValidator dbReply slot' = Some depositAddress).
Proof.
  unfold GetDepositAddressOfValidator.
  destruct dbReply as [d|].
  - exists d. split; [reflexivity|]. split; [now left|]. reflexivity.
  - pose proof (Z.mod_pos_bound slot 7 ltac:(lia)) as Hm.
    assert (Hcases : slot mod 7 = 0 \/ slot mod 7 = 1 \/ slot mod 7 = 2 \/
                     slot mod 7 = 3 \/ slot mod 7 = 4 \/ slot mod 7 = 5 \/
                     slot mod 7 = 6) by lia.
    destruct Hcases as [H|[H|[H|[H|[H|[H|H]]]]]]; rewrite H;
      eexists; (split; [reflexivity|]);
      (split; [right; split; [reflexivity|]; split; [simpl; tauto | reflexivity]|]);
      intros slot' ->; reflexivity.
Qed.

Lemma exampleRelayers_answers :
  exampleRelayers "mainnet" examplePubkey = RespondOK exampleRelayersState.
Proof. vm_compute. reflexivity. Qed.

Lemma handleValidatorRelayers_body_witness :
  exists relays,
    relaysOfNetwork ["relay-a"; "relay-b"] [] "mainnet" = Some relays /\
    map Relayers.RelayAddress (Relayers.CorrectFeeRelays exampleRelayersState)
    = relaysOfClass (fun s => s) "0x9427a30991170f917d7b83def6e44d26577871ed"
        exampleRelayGet examplePubkey RegisteredToPool relays /\
    map Relayers.RelayAddress (Relayers.WrongFeeRelays exampleRelayersState)
    = relaysOfClass (fun s => s) "0x9427a30991170f917d7b83def6e44d26577871ed"
        exampleRelayGet examplePubkey RegisteredElsewhere relays /\
    map Relayers.RelayAddress (Relayers.UnregisteredRelays exampleRelayersState)
    = relaysOfClass (fun s => s) "0x9427a30991170f917d7b83def6e44d26577871ed"
        exampleRelayGet examplePubkey NotRegistered relays /\
    (Relayers.CorrectFeeRecipients exampleRelayersState = true <->
     (exists relay, In relay relays /\
        relayClass (fun s => s) "0x9427a30991170f917d7b83def6e44d26577871ed"
          exampleRelayGet examplePubkey relay = RegisteredToPool) /\
     (forall relay, In relay relays ->
        relayClass (fun s => s) "0x9427a30991170f917d7b83def6e44d26577871ed"
          exampleRelayGet examplePubkey relay <> RegisteredElsewhere)).
Proof.
  exact (handleValidatorRelayers_body (fun s => s) ["relay-a"; "relay-b"] []
           "0x9427a30991170f917d7b83def6e44d26577871ed" exampleRelayGet
           "mainnet" examplePubkey exampleRelayersState exampleRelayers_answers).
Defined.

(** ** An event replayed twice *)

Section OverlayIdempotent.
Variable unicodeLower : string -> string.
Variable AddressString : Address -> string.
Variable CanValidatorSubscribeToPool : BeaconValidator.t -> bool.
Variable CollateralInWei : Z.

(** An event applied a second time, right after it was applied, changes
    nothing: a subscription that took effect left the validator Active, so
    its collateral is added to the pending rewards once; an unsubscription
    that took effect left it NotSubscribed. *)
Theorem applyEvent_idempotent (e : OverlayEvent)
  (validators validators' : gmap Z ValidatorInfo) :
  applyEvent unicodeLower AddressString CanValidatorSubscribeToPool
    CollateralInWei e validators = Returns validators' ->
  applyEvent unicodeLower AddressString CanValidatorSubscribeToPool
    CollateralInWei e validators' = Returns validators'.
Proof.
  destruct e as [sub|unsub]; cbn [applyEvent].
  - rewrite !applySubscription_unfold.
    destruct (validators !! _) as [val|] eqn:Hval.
    + destruct (Nat.eqb (String.length (WithdrawalAddress val)) _) eqn:Hlen;
        [|discriminate].
      destruct (subscriptionApplies _ _ _ _ sub val) eqn:Happ;
        intros H; injection H as <-.
      * rewrite lookup_insert_eq. cbn [WithdrawalAddress setStatusAndPending].
        rewrite Hlen. unfold subscriptionApplies.
        cbn [ValidatorStatus setStatusAndPending ValStatus_eqb].
        rewrite orb_false_r, andb_false_r. reflexivity.
      * rewrite Hval, Hlen, Happ. reflexivity.
    + intros H. injection H as <-. rewrite Hval. reflexivity.
  - rewrite !applyUnsubscription_unfold.
    destruct (validators !! _) as [val|] eqn:Hval.
    + destruct (Nat.eqb (String.length (WithdrawalAddress val)) _) eqn:Hlen;
        [|discriminate].
      destruct (unsubscriptionApplies _ _ unsub val) eqn:Happ;
        intros H; injection H as <-.
      * rewrite lookup_insert_eq. cbn [WithdrawalAddress setStatusAndPending].
        rewrite Hlen. unfold unsubscriptionApplies.
        cbn [ValidatorStatus setStatusAndPending ValStatus_eqb].
        rewrite !orb_false_r, andb_false_r. reflexivity.
      * rewrite Hval, Hlen, Happ. reflexivity.
    + intros H. injection H as <-. rewrite Hval. reflexivity.
Qed.

End OverlayIdempotent.

Lemma applyEvent_idempotent_witness :
  applyEvent (fun s => s) hexAddress canSubscribeUnlessSlashedOrExited 1000
    (SubscribeEvent
       (testSubscription 1 1000 testSender ValidatorStateActiveOngoing 10 0))
    {[ 1 := testValidator 1 Active 1005 ]}
  = Returns {[ 1 := testValidator 1 Active 1005 ]}.
Proof.
  apply (applyEvent_idempotent (fun s => s) hexAddress
           canSubscribeUnlessSlashedOrExited 1000
           (SubscribeEvent
              (testSubscription 1 1000 testSender ValidatorStateActiveOngoing 10 0))
           {[ 1 := testValidator 1 Untracked 5 ]}).
  vm_compute. reflexivity.
Defined.
